(** * ZorinShot: the annotation editor of [zorinshot_enhanced.py]

    A shallow embedding of [EditorWindow]: the annotation primitives, the
    pointer and keyboard handlers, the undo stack, the save paths and the two
    renderers' arrow-head computation.

    Conventions.
    - A Python [float] is read as a real number ([R]): event coordinates and
      stroke widths are finite, and rounding, infinities and NaN are left out.
    - A Python [int] is a [Z]; a [str] is a [string] whose characters are the
      code points below 256; a list is a [list], most recent element last, as
      [append] and [pop] have it.
    - Dialogs, the file system and the clipboard are an oracle ([World]) that
      tells a handler what the user answered and whether the write raised. *)

From Stdlib Require Import Reals Lra ZArith Lia List Bool.
From Stdlib Require Import Strings.String Strings.Ascii.
Import ListNotations.

Local Open Scope Z_scope.
Local Open Scope R_scope.
Local Open Scope string_scope.
Local Open Scope list_scope.

(** ** Settings ([zorinshot_settings.py], the fields the editor reads) *)

Record ZorinShotSettings : Type := mkSettings {
  autosave_enabled : bool;
  default_pen_width : R;
  default_arrow_width : R;
  default_rect_width : R;
  default_text_size : Z;
  default_color_r : Z;
  default_color_g : Z;
  default_color_b : Z;
  default_color_a : Z;
  copy_to_clipboard_on_save : bool;
  show_save_confirmation : bool;
  auto_close_after_save : bool;
  remember_tool_selection : bool;
  last_selected_tool : string;
  max_undo_levels : Z
}.

(** The dataclass defaults. *)
Definition default_settings : ZorinShotSettings :=
  {| autosave_enabled := false;
     default_pen_width := 3;
     default_arrow_width := 3;
     default_rect_width := 3;
     default_text_size := 16;
     default_color_r := 153;
     default_color_g := 51;
     default_color_b := 255;
     default_color_a := 242;
     copy_to_clipboard_on_save := true;
     show_save_confirmation := true;
     auto_close_after_save := false;
     remember_tool_selection := true;
     last_selected_tool := "arrow";
     max_undo_levels := 20 |}.

Definition Color : Type := (Z * Z * Z * Z)%type.

(** [SettingsManager.get_default_color] *)
Definition get_default_color (s : ZorinShotSettings) : Color :=
  (default_color_r s, default_color_g s, default_color_b s, default_color_a s).

Definition set_last_selected_tool (t : string) (s : ZorinShotSettings)
  : ZorinShotSettings :=
  {| autosave_enabled := autosave_enabled s;
     default_pen_width := default_pen_width s;
     default_arrow_width := default_arrow_width s;
     default_rect_width := default_rect_width s;
     default_text_size := default_text_size s;
     default_color_r := default_color_r s;
     default_color_g := default_color_g s;
     default_color_b := default_color_b s;
     default_color_a := default_color_a s;
     copy_to_clipboard_on_save := copy_to_clipboard_on_save s;
     show_save_confirmation := show_save_confirmation s;
     auto_close_after_save := auto_close_after_save s;
     remember_tool_selection := remember_tool_selection s;
     last_selected_tool := t;
     max_undo_levels := max_undo_levels s |}.

(** ** Annotation primitives *)

Definition Point : Type := (R * R)%type.

Inductive Shape : Type :=
| PenStroke (points : list Point) (width : R) (color : Color)
| RectShape (x y w h : R) (width : R) (color : Color)
| ArrowShape (x1 y1 x2 y2 : R) (width : R) (color : Color)
| TextLabel (x y : R) (text : string) (font_size : Z) (color : Color).

(** ** Python built-ins the handlers use *)

(** [min(a, b)]: the second argument wins only when it is strictly smaller. *)
Definition py_min (a b : R) : R := if Rlt_dec b a then b else a.

(** [abs(a)] *)
Definition py_abs (a : R) : R := Rabs a.

(** [l[i] = v]: [None] stands for the [IndexError] of an index out of range. *)
Fixpoint list_assign {A : Type} (l : list A) (i : nat) (v : A)
  : option (list A) :=
  match l, i with
  | [], _ => None
  | _ :: t, O => Some (v :: t)
  | a :: t, S j => option_map (cons a) (list_assign t j v)
  end.

(** [str.isspace] on the code points below 256. *)
Definition is_space (c : ascii) : bool :=
  let n := nat_of_ascii c in
  ((9 <=? n) && (n <=? 13) || (28 <=? n) && (n <=? 32)
   || (n =? 133) || (n =? 160))%nat.

Fixpoint lstrip (s : string) : string :=
  match s with
  | EmptyString => EmptyString
  | String c s' => if is_space c then lstrip s' else s
  end.

Fixpoint rstrip (s : string) : string :=
  match s with
  | EmptyString => EmptyString
  | String c s' =>
      match rstrip s' with
      | EmptyString => if is_space c then EmptyString else String c EmptyString
      | r => String c r
      end
  end.

(** [str.strip()] *)
Definition strip (s : string) : string := rstrip (lstrip s).

(** The truth value of a [str]. *)
Definition str_truthy (s : string) : bool :=
  match s with EmptyString => false | _ => true end.

(** ** The editor window *)

Definition TOOL_PEN : string := "pen".
Definition TOOL_RECT : string := "rect".
Definition TOOL_ARROW : string := "arrow".
Definition TOOL_TEXT : string := "text".

Record EditorWindow : Type := mkEditor {
  settings : ZorinShotSettings;
  current_tool : string;
  drawing : bool;
  temp_points : list Point;
  shapes : list Shape;
  undo_stack : list (list Shape);
  modified : bool;
  closed : bool
}.

(** [EditorWindow.__init__] *)
Definition init (s : ZorinShotSettings) : EditorWindow :=
  {| settings := s;
     current_tool :=
       if remember_tool_selection s then last_selected_tool s else TOOL_ARROW;
     drawing := false;
     temp_points := [];
     shapes := [];
     undo_stack := [];
     modified := false;
     closed := false |}.

Definition set_settings (v : ZorinShotSettings) (st : EditorWindow) :=
  mkEditor v (current_tool st) (drawing st) (temp_points st) (shapes st)
           (undo_stack st) (modified st) (closed st).
Definition set_current_tool (v : string) (st : EditorWindow) :=
  mkEditor (settings st) v (drawing st) (temp_points st) (shapes st)
           (undo_stack st) (modified st) (closed st).
Definition set_drawing (v : bool) (st : EditorWindow) :=
  mkEditor (settings st) (current_tool st) v (temp_points st) (shapes st)
           (undo_stack st) (modified st) (closed st).
Definition set_temp_points (v : list Point) (st : EditorWindow) :=
  mkEditor (settings st) (current_tool st) (drawing st) v (shapes st)
           (undo_stack st) (modified st) (closed st).
Definition set_shapes (v : list Shape) (st : EditorWindow) :=
  mkEditor (settings st) (current_tool st) (drawing st) (temp_points st) v
           (undo_stack st) (modified st) (closed st).
Definition set_undo_stack (v : list (list Shape)) (st : EditorWindow) :=
  mkEditor (settings st) (current_tool st) (drawing st) (temp_points st)
           (shapes st) v (modified st) (closed st).
Definition set_modified (v : bool) (st : EditorWindow) :=
  mkEditor (settings st) (current_tool st) (drawing st) (temp_points st)
           (shapes st) (undo_stack st) v (closed st).
Definition set_closed (v : bool) (st : EditorWindow) :=
  mkEditor (settings st) (current_tool st) (drawing st) (temp_points st)
           (shapes st) (undo_stack st) (modified st) v.

(** What the user and the system answer during one handler call. *)
Record World : Type := mkWorld {
  text_dialog_ok : bool;     (* "Add Text" closed with OK *)
  entry_text : string;       (* the entry's content *)
  file_chosen : bool;        (* "Save Screenshot" closed with OK *)
  save_raises : bool;        (* an exception inside the save's try block *)
  confirm_save_yes : bool    (* "Save changes before closing?" answered Yes *)
}.

(** A handler either returns its boolean or raises; the state is the one
    reached at that point. *)
Inductive Outcome (W : Type) : Type :=
| Returned (handled : bool) (st : W)
| Raised (exn : string) (st : W).

Arguments Returned {W} handled st.
Arguments Raised {W} exn st.

Definition state_of {W : Type} (o : Outcome W) : W :=
  match o with Returned _ st => st | Raised _ st => st end.

Definition was_handled {W : Type} (o : Outcome W) : bool :=
  match o with Returned b _ => b | Raised _ _ => false end.

(** The two statements that open both commit paths:
    [self.undo_stack.append([shape for shape in self.shapes])] and
    [if len(self.undo_stack) > self.settings.max_undo_levels:
         self.undo_stack.pop(0)]. *)
Definition push_undo (st : EditorWindow) : EditorWindow :=
  let stack := undo_stack st ++ [shapes st] in
  if (max_undo_levels (settings st) <? Z.of_nat (List.length stack))%Z
  then set_undo_stack (tl stack) st
  else set_undo_stack stack st.

(** [EditorWindow.set_tool] *)
Definition set_tool (tool : string) (st : EditorWindow) : EditorWindow :=
  let st1 := set_current_tool tool st in
  if remember_tool_selection (settings st1)
  then set_settings (set_last_selected_tool tool (settings st1)) st1
  else st1.

(** [EditorWindow.create_text_at] *)
Definition create_text_at (w : World) (x y : R) (st : EditorWindow)
  : EditorWindow :=
  if text_dialog_ok w then
    let text := strip (entry_text w) in
    if str_truthy text then
      let st1 := push_undo st in
      let default_color := get_default_color (settings st1) in
      let st2 :=
        set_shapes (shapes st1 ++
                    [TextLabel x y text (default_text_size (settings st1))
                               default_color]) st1 in
      set_modified true st2
    else st
  else st.

(** [EditorWindow.on_button_press] *)
Definition on_button_press (w : World) (button : Z) (x y : R)
           (st : EditorWindow) : Outcome EditorWindow :=
  if negb (button =? 1)%Z then Returned false st
  else
    let st1 := set_drawing true st in
    let st2 := set_temp_points [(x, y)] st1 in
    if (current_tool st2 =? TOOL_TEXT)%string
    then Returned true (set_drawing false (create_text_at w x y st2))
    else Returned true st2.

(** [EditorWindow.on_motion] *)
Definition on_motion (x y : R) (st : EditorWindow) : Outcome EditorWindow :=
  if negb (drawing st) then Returned false st
  else if (current_tool st =? TOOL_PEN)%string
  then Returned true (set_temp_points (temp_points st ++ [(x, y)]) st)
  else if (List.length (temp_points st) =? 1)%nat
  then Returned true (set_temp_points (temp_points st ++ [(x, y)]) st)
  else match list_assign (temp_points st) 1 (x, y) with
       | Some pts => Returned true (set_temp_points pts st)
       | None => Raised "IndexError" st
       end.

(** The branch of [on_button_release] that adds the new shape. *)
Definition add_shape (st : EditorWindow) : EditorWindow :=
  let default_color := get_default_color (settings st) in
  let pts := temp_points st in
  if (current_tool st =? TOOL_PEN)%string && (2 <=? List.length pts)%nat then
    set_shapes (shapes st ++
                [PenStroke pts (default_pen_width (settings st)) default_color])
               st
  else if (current_tool st =? TOOL_RECT)%string
          && (2 <=? List.length pts)%nat then
    let '(x1, y1) := hd (0, 0) pts in
    let '(x2, y2) := last pts (0, 0) in
    set_shapes (shapes st ++
                [RectShape (py_min x1 x2) (py_min y1 y2)
                           (py_abs (x2 - x1)) (py_abs (y2 - y1))
                           (default_rect_width (settings st)) default_color])
               st
  else if (current_tool st =? TOOL_ARROW)%string
          && (2 <=? List.length pts)%nat then
    let '(x1, y1) := hd (0, 0) pts in
    let '(x2, y2) := last pts (0, 0) in
    set_shapes (shapes st ++
                [ArrowShape x1 y1 x2 y2
                            (default_arrow_width (settings st)) default_color])
               st
  else st.

(** [EditorWindow.on_button_release] *)
Definition on_button_release (button : Z) (st : EditorWindow)
  : Outcome EditorWindow :=
  if negb (button =? 1)%Z || negb (drawing st) then Returned false st
  else
    let st1 := set_drawing false st in
    match temp_points st1 with
    | [] => Returned true st1
    | _ :: _ =>
        let st2 := push_undo st1 in
        let st3 := add_shape st2 in
        let st4 := set_temp_points [] st3 in
        Returned true (set_modified true st4)
    end.

(** [EditorWindow.undo] *)
Definition undo (st : EditorWindow) : EditorWindow :=
  match undo_stack st with
  | [] => st
  | _ :: _ =>
      let st1 := set_shapes (last (undo_stack st) []) st in
      let st2 := set_undo_stack (removelast (undo_stack st)) st1 in
      set_modified true st2
  end.

(** The tail of both save paths once the image is written:
    [self.modified = False] and, when [auto_close_after_save], [self.close()],
    whose [on_close] then finds nothing to save. *)
Definition save_succeeded (st : EditorWindow) : EditorWindow :=
  let st1 := set_modified false st in
  if auto_close_after_save (settings st1) then set_closed true st1 else st1.

(** [EditorWindow.save_dialog] *)
Definition save_dialog (w : World) (st : EditorWindow) : EditorWindow :=
  if file_chosen w then
    if save_raises w then st else save_succeeded st
  else st.

(** [EditorWindow.quick_save] *)
Definition quick_save (w : World) (st : EditorWindow) : EditorWindow :=
  if negb (autosave_enabled (settings st)) then save_dialog w st
  else if save_raises w then st else save_succeeded st.

(** [EditorWindow.copy_to_clipboard]: writes a temporary file and publishes
    it; no attribute of the window is assigned. *)
Definition copy_to_clipboard (w : World) (st : EditorWindow) : EditorWindow :=
  st.

(** [EditorWindow.upload]: an information dialog. *)
Definition upload (st : EditorWindow) : EditorWindow := st.

(** [EditorWindow.on_close], the [delete-event] handler. *)
Definition on_close (w : World) (st : EditorWindow) : EditorWindow :=
  if modified st && show_save_confirmation (settings st) then
    if confirm_save_yes w then
      if autosave_enabled (settings st) then quick_save w st
      else save_dialog w st
    else st
  else st.

(** [self.close()]: the [delete-event] runs [on_close], which lets the window
    go. *)
Definition close (w : World) (st : EditorWindow) : EditorWindow :=
  set_closed true (on_close w st).

(** Key values and modifier masks of GDK. *)
Definition KEY_P : Z := 80.
Definition KEY_p : Z := 112.
Definition KEY_R : Z := 82.
Definition KEY_r : Z := 114.
Definition KEY_A : Z := 65.
Definition KEY_a : Z := 97.
Definition KEY_T : Z := 84.
Definition KEY_t : Z := 116.
Definition KEY_U : Z := 85.
Definition KEY_u : Z := 117.
Definition KEY_z : Z := 122.
Definition KEY_s : Z := 115.
Definition KEY_c : Z := 99.
Definition KEY_Return : Z := 65293.
Definition KEY_Escape : Z := 65307.
Definition SHIFT_MASK : Z := 1.
Definition CONTROL_MASK : Z := 4.

(** [EditorWindow.on_key] *)
Definition on_key (w : World) (keyval state : Z) (st : EditorWindow)
  : Outcome EditorWindow :=
  let key := keyval in
  let ctrl := negb (Z.land state CONTROL_MASK =? 0)%Z in
  let shift := negb (Z.land state SHIFT_MASK =? 0)%Z in
  Returned true
    (if (key =? KEY_P)%Z || (key =? KEY_p)%Z then set_tool TOOL_PEN st
     else if (key =? KEY_R)%Z || (key =? KEY_r)%Z then set_tool TOOL_RECT st
     else if (key =? KEY_A)%Z || (key =? KEY_a)%Z then set_tool TOOL_ARROW st
     else if (key =? KEY_T)%Z || (key =? KEY_t)%Z then set_tool TOOL_TEXT st
     else if ctrl && (key =? KEY_z)%Z then undo st
     else if ctrl && shift && (key =? KEY_s)%Z then save_dialog w st
     else if ctrl && (key =? KEY_s)%Z then
       if autosave_enabled (settings st) then quick_save w st
       else save_dialog w st
     else if ctrl && (key =? KEY_c)%Z then copy_to_clipboard w st
     else if (key =? KEY_Return)%Z then copy_to_clipboard w st
     else if (key =? KEY_Escape)%Z then close w st
     else if (key =? KEY_U)%Z || (key =? KEY_u)%Z then upload st
     else st).

(** ** The event loop *)

(** What GTK delivers to the window: pointer and key events on the drawing
    area, and the toolbar and menu entries, which call the same methods. *)
Inductive Event : Type :=
| ButtonPress (button : Z) (x y : R)
| MotionNotify (x y : R)
| ButtonRelease (button : Z)
| KeyPress (keyval state : Z)
| ClickTool (tool : string)
| ClickUndo
| ClickQuickSave
| ClickSaveAs
| ClickCopy
| ClickUpload
| ClickClose.

(** One callback. An exception that leaves a callback is reported by the
    binding and the main loop goes on with the state as it is. *)
Definition dispatch (w : World) (ev : Event) (st : EditorWindow)
  : Outcome EditorWindow :=
  match ev with
  | ButtonPress b x y => on_button_press w b x y st
  | MotionNotify x y => on_motion x y st
  | ButtonRelease b => on_button_release b st
  | KeyPress k s => on_key w k s st
  | ClickTool t => Returned true (set_tool t st)
  | ClickUndo => Returned true (undo st)
  | ClickQuickSave => Returned true (quick_save w st)
  | ClickSaveAs => Returned true (save_dialog w st)
  | ClickCopy => Returned true (copy_to_clipboard w st)
  | ClickUpload => Returned true (upload st)
  | ClickClose => Returned true (close w st)
  end.

Definition step (st : EditorWindow) (we : World * Event) : EditorWindow :=
  state_of (dispatch (fst we) (snd we) st).

Definition run (evs : list (World * Event)) (st : EditorWindow)
  : EditorWindow :=
  fold_left step evs st.

(** ** Gestures and commits as event sequences *)

(** A world in which every dialog is cancelled and nothing raises. *)
Definition quiet : World :=
  {| text_dialog_ok := false; entry_text := "";
     file_chosen := false; save_raises := false; confirm_save_yes := false |}.

(** A world in which the "Add Text" dialog is confirmed with [text]. *)
Definition typing (text : string) : World :=
  {| text_dialog_ok := true; entry_text := text;
     file_chosen := false; save_raises := false; confirm_save_yes := false |}.

(** One pointer-move per element of [moves]. *)
Definition moves_events (moves : list Point) : list (World * Event) :=
  map (fun q => (quiet, MotionNotify (fst q) (snd q))) moves.

(** Pointer-down at [p], the pointer-moves, pointer-up; primary button. *)
Definition gesture (p : Point) (moves : list Point) : list (World * Event) :=
  (quiet, ButtonPress 1 (fst p) (snd p))
    :: moves_events moves ++ [(quiet, ButtonRelease 1)].

(** The draft a gesture has collected when the button is released. *)
Definition tracked (tool : string) (p : Point) (moves : list Point)
  : list Point :=
  if (tool =? TOOL_PEN)%string then p :: moves
  else match moves with [] => [p] | _ :: _ => [p; last moves p] end.


(** The per-tool test that guards the three [append] calls of
    [on_button_release]. *)
Definition release_accepts (st : EditorWindow) : bool :=
  ((current_tool st =? TOOL_PEN)%string
   || (current_tool st =? TOOL_RECT)%string
   || (current_tool st =? TOOL_ARROW)%string)
  && (2 <=? List.length (temp_points st))%nat.

(** The length of the undo stack, as the integer [len] returns. *)
Definition history_len (st : EditorWindow) : Z :=
  Z.of_nat (List.length (undo_stack st)).

(** [len(self.undo_stack) <= self.settings.max_undo_levels] *)
Definition history_bounded (st : EditorWindow) : Prop :=
  (history_len st <= max_undo_levels (settings st))%Z.

(** One accepted commit: a drag with a drawing tool and at least one
    pointer-move, or a confirmed text whose stripped content is not empty. *)
Inductive Commit : Type :=
| DragCommit (tool : string) (p : Point) (moves : list Point)
| TextCommit (x y : R) (text : string).

Definition commit_accepted (c : Commit) : bool :=
  match c with
  | DragCommit tool _ moves =>
      ((tool =? TOOL_PEN)%string || (tool =? TOOL_RECT)%string
       || (tool =? TOOL_ARROW)%string)
      && negb (Nat.eqb (List.length moves) 0)
  | TextCommit _ _ text => str_truthy (strip text)
  end.

Definition commit_events (c : Commit) : list (World * Event) :=
  match c with
  | DragCommit tool p moves => (quiet, ClickTool tool) :: gesture p moves
  | TextCommit x y text =>
      [(quiet, ClickTool TOOL_TEXT); (typing text, ButtonPress 1 x y)]
  end.

(** The dragging state of the gesture machine is [drawing = True]; while it
    lasts the draft holds at least the pressed point. *)
Definition draft_present (st : EditorWindow) : Prop :=
  drawing st = true -> temp_points st <> [].

(** ** Arrows in the two renderers

    Both renderers draw an arrow as three line segments. The arithmetic is
    the same text in both methods; it is written here over any number type
    with the operations of [float] and of the [math] module, so that what is
    proved of the two does not rest on how [float] rounds. *)

Section ArrowSegments.

Variable F : Type.
Variables (add sub mul div : F -> F -> F) (of_int : Z -> F).
Variables (math_pi : F) (math_atan2 : F -> F -> F) (math_cos math_sin : F -> F).

Local Notation "a + b" := (add a b).
Local Notation "a - b" := (sub a b).
Local Notation "a * b" := (mul a b).
Local Notation "a / b" := (div a b).

Definition Segment : Type := ((F * F) * (F * F))%type.

(** [EditorWindow.draw_arrow]: the [move_to]/[line_to] pairs stroked on
    the cairo context. *)
Definition draw_arrow (x1 y1 x2 y2 width : F) : list Segment :=
  let shaft := ((x1, y1), (x2, y2)) in
  let ang := math_atan2 (y2 - y1) (x2 - x1) in
  let head_len := of_int 12 + width * of_int 2 in
  let head_ang := math_pi / of_int 6 in
  let xh1 := x2 - head_len * math_cos (ang - head_ang) in
  let yh1 := y2 - head_len * math_sin (ang - head_ang) in
  let xh2 := x2 - head_len * math_cos (ang + head_ang) in
  let yh2 := y2 - head_len * math_sin (ang + head_ang) in
  [shaft; ((x2, y2), (xh1, yh1)); ((x2, y2), (xh2, yh2))].

(** [EditorWindow._save_current_image_pil], the [ArrowShape] branch: the
    three [draw.line] calls, on the fields of [shp]. *)
Definition save_arrow (shp_x1 shp_y1 shp_x2 shp_y2 shp_width : F)
  : list Segment :=
  let shaft := ((shp_x1, shp_y1), (shp_x2, shp_y2)) in
  let ang := math_atan2 (shp_y2 - shp_y1) (shp_x2 - shp_x1) in
  let head_len := of_int 12 + shp_width * of_int 2 in
  let head_ang := math_pi / of_int 6 in
  let xh1 := shp_x2 - head_len * math_cos (ang - head_ang) in
  let yh1 := shp_y2 - head_len * math_sin (ang - head_ang) in
  let xh2 := shp_x2 - head_len * math_cos (ang + head_ang) in
  let yh2 := shp_y2 - head_len * math_sin (ang + head_ang) in
  [shaft;
   ((shp_x2, shp_y2), (xh1, yh1));
   ((shp_x2, shp_y2), (xh2, yh2))].

End ArrowSegments.

(** [math.atan2(y, x)] on finite arguments. *)
Definition atan2 (y x : R) : R :=
  if Rlt_dec 0 x then atan (y / x)
  else if Rlt_dec x 0 then
    if Rle_dec 0 y then atan (y / x) + PI else atan (y / x) - PI
  else if Rlt_dec 0 y then PI / 2
  else if Rlt_dec y 0 then - (PI / 2)
  else 0.

(** [on_draw] on a committed shape: the segments of an arrow, through
    [self.draw_arrow(cr, shp.x1, shp.y1, shp.x2, shp.y2, shp.width)]. *)
Definition on_draw_arrow (shp : Shape) : list (Segment R) :=
  match shp with
  | ArrowShape x1 y1 x2 y2 width _ =>
      draw_arrow R Rplus Rminus Rmult Rdiv IZR PI atan2 cos sin
                 x1 y1 x2 y2 width
  | _ => []
  end.

(** [_save_current_image_pil] on a committed shape: the segments of an
    arrow. *)
Definition export_arrow (shp : Shape) : list (Segment R) :=
  match shp with
  | ArrowShape x1 y1 x2 y2 width _ =>
      save_arrow R Rplus Rminus Rmult Rdiv IZR PI atan2 cos sin
                 x1 y1 x2 y2 width
  | _ => []
  end.

(** ** The minimum policy, as the specification words it

    "Stroke needs >= 2 points; Rectangle/Arrow need 2 distinct points": the
    draft of a rectangle or an arrow tracks the pressed point and the latest
    pointer position. *)
Definition spec_minimum_policy (tool : string) (pts : list Point) : Prop :=
  (tool = TOOL_PEN /\ (2 <= List.length pts)%nat)
  \/ ((tool = TOOL_RECT \/ tool = TOOL_ARROW)
      /\ (2 <= List.length pts)%nat
      /\ hd (0, 0) pts <> last pts (0, 0)).

(** ** Keys and the canvas *)

(** The one test of [on_key] that leads to [undo]: Control held and the key
    value of a lower-case z. *)
Definition is_undo_shortcut (keyval state : Z) : bool :=
  negb (Z.land state CONTROL_MASK =? 0)%Z && (keyval =? KEY_z)%Z.

(** Two windows with the same draft, gesture state, committed shapes and
    history. *)
Definition same_canvas (st st' : EditorWindow) : Prop :=
  temp_points st' = temp_points st
  /\ drawing st' = drawing st
  /\ shapes st' = shapes st
  /\ undo_stack st' = undo_stack st.

(** ** The window over a store of list objects

    The Python lists of the editor are objects: [self.temp_points] is
    appended to and assigned by index in place, [self.shapes] is appended to
    in place, an undo snapshot is a list of its own and [undo] makes a
    popped snapshot the shape list. Here every such list lives in a store
    and the window holds references. A shape is a dataclass instance no
    attribute of which is ever assigned; it is a value that, for a pen
    stroke, refers to the list of its points. *)

Module Heap.

Definition loc : Type := nat.

Inductive HShape : Type :=
| HPenStroke (points : loc) (width : R) (color : Color)
| HRectShape (x y w h : R) (width : R) (color : Color)
| HArrowShape (x1 y1 x2 y2 : R) (width : R) (color : Color)
| HTextLabel (x y : R) (text : string) (font_size : Z) (color : Color).

Record Window : Type := mkWindow {
  settings : ZorinShotSettings;
  current_tool : string;
  drawing : bool;
  temp_points : loc;
  shapes : loc;
  undo_stack : list loc;
  modified : bool;
  closed : bool;
  point_lists : list (list Point);    (* the store of point lists *)
  shape_lists : list (list HShape)    (* the store of shape lists *)
}.

(** Reading a list object; every reference a window holds is allocated. *)
Definition read {A : Type} (store : list (list A)) (l : loc) : list A :=
  nth l store [].

(** Replacing the content of the list object at [l], in place. *)
Fixpoint write {A : Type} (store : list (list A)) (l : loc) (v : list A)
  : list (list A) :=
  match store, l with
  | [], _ => []
  | _ :: t, O => v :: t
  | a :: t, S l' => a :: write t l' v
  end.

Definition set_settings (v : ZorinShotSettings) (h : Window) :=
  mkWindow v (current_tool h) (drawing h) (temp_points h) (shapes h)
           (undo_stack h) (modified h) (closed h) (point_lists h)
           (shape_lists h).
Definition set_current_tool (v : string) (h : Window) :=
  mkWindow (settings h) v (drawing h) (temp_points h) (shapes h)
           (undo_stack h) (modified h) (closed h) (point_lists h)
           (shape_lists h).
Definition set_drawing (v : bool) (h : Window) :=
  mkWindow (settings h) (current_tool h) v (temp_points h) (shapes h)
           (undo_stack h) (modified h) (closed h) (point_lists h)
           (shape_lists h).
Definition set_temp_points (v : loc) (h : Window) :=
  mkWindow (settings h) (current_tool h) (drawing h) v (shapes h)
           (undo_stack h) (modified h) (closed h) (point_lists h)
           (shape_lists h).
Definition set_shapes (v : loc) (h : Window) :=
  mkWindow (settings h) (current_tool h) (drawing h) (temp_points h) v
           (undo_stack h) (modified h) (closed h) (point_lists h)
           (shape_lists h).
Definition set_undo_stack (v : list loc) (h : Window) :=
  mkWindow (settings h) (current_tool h) (drawing h) (temp_points h)
           (shapes h) v (modified h) (closed h) (point_lists h)
           (shape_lists h).
Definition set_modified (v : bool) (h : Window) :=
  mkWindow (settings h) (current_tool h) (drawing h) (temp_points h)
           (shapes h) (undo_stack h) v (closed h) (point_lists h)
           (shape_lists h).
Definition set_closed (v : bool) (h : Window) :=
  mkWindow (settings h) (current_tool h) (drawing h) (temp_points h)
           (shapes h) (undo_stack h) (modified h) v (point_lists h)
           (shape_lists h).
Definition set_point_lists (v : list (list Point)) (h : Window) :=
  mkWindow (settings h) (current_tool h) (drawing h) (temp_points h)
           (shapes h) (undo_stack h) (modified h) (closed h) v
           (shape_lists h).
Definition set_shape_lists (v : list (list HShape)) (h : Window) :=
  mkWindow (settings h) (current_tool h) (drawing h) (temp_points h)
           (shapes h) (undo_stack h) (modified h) (closed h)
           (point_lists h) v.

(** A new list object with content [v]; its reference is the next free
    one. *)
Definition new_point_list (v : list Point) (h : Window) : loc * Window :=
  (List.length (point_lists h), set_point_lists (point_lists h ++ [v]) h).

Definition new_shape_list (v : list HShape) (h : Window) : loc * Window :=
  (List.length (shape_lists h), set_shape_lists (shape_lists h ++ [v]) h).

(** [self.shapes.append(shp)] *)
Definition shapes_append (shp : HShape) (h : Window) : Window :=
  set_shape_lists
    (write (shape_lists h) (shapes h)
           (read (shape_lists h) (shapes h) ++ [shp])) h.

(** [EditorWindow.__init__]: two new empty lists. *)
Definition init (s : ZorinShotSettings) : Window :=
  {| settings := s;
     current_tool :=
       if remember_tool_selection s then last_selected_tool s
       else TOOL_ARROW;
     drawing := false;
     temp_points := 0%nat;
     shapes := 0%nat;
     undo_stack := [];
     modified := false;
     closed := false;
     point_lists := [[]];
     shape_lists := [[]] |}.

(** The snapshot [[shape for shape in self.shapes]] is a new list with the
    same shape objects; it is appended to the stack, and the bottom
    reference is popped beyond the limit. *)
Definition push_undo (h : Window) : Window :=
  let '(snapshot, h1) :=
    new_shape_list (read (shape_lists h) (shapes h)) h in
  let stack := undo_stack h1 ++ [snapshot] in
  if (max_undo_levels (settings h1) <? Z.of_nat (List.length stack))%Z
  then set_undo_stack (tl stack) h1
  else set_undo_stack stack h1.

Definition set_tool (tool : string) (h : Window) : Window :=
  let h1 := set_current_tool tool h in
  if remember_tool_selection (settings h1)
  then set_settings (set_last_selected_tool tool (settings h1)) h1
  else h1.

Definition create_text_at (w : World) (x y : R) (h : Window) : Window :=
  if text_dialog_ok w then
    let text := strip (entry_text w) in
    if str_truthy text then
      let h1 := push_undo h in
      let default_color := get_default_color (settings h1) in
      let h2 :=
        shapes_append
          (HTextLabel x y text (default_text_size (settings h1))
                      default_color) h1 in
      set_modified true h2
    else h
  else h.

Definition on_button_press (w : World) (button : Z) (x y : R) (h : Window)
  : Outcome Window :=
  if negb (button =? 1)%Z then Returned false h
  else
    let h1 := set_drawing true h in
    let '(fresh, h2) := new_point_list [(x, y)] h1 in
    let h3 := set_temp_points fresh h2 in
    if (current_tool h3 =? TOOL_TEXT)%string
    then Returned true (set_drawing false (create_text_at w x y h3))
    else Returned true h3.

Definition on_motion (x y : R) (h : Window) : Outcome Window :=
  let pts := read (point_lists h) (temp_points h) in
  if negb (drawing h) then Returned false h
  else if (current_tool h =? TOOL_PEN)%string
  then Returned true
         (set_point_lists
            (write (point_lists h) (temp_points h) (pts ++ [(x, y)])) h)
  else if (List.length pts =? 1)%nat
  then Returned true
         (set_point_lists
            (write (point_lists h) (temp_points h) (pts ++ [(x, y)])) h)
  else match list_assign pts 1 (x, y) with
       | Some pts' =>
           Returned true
             (set_point_lists
                (write (point_lists h) (temp_points h) pts') h)
       | None => Raised "IndexError" h
       end.

(** The pen branch copies the draft: [points=self.temp_points.copy()]. *)
Definition add_shape (h : Window) : Window :=
  let default_color := get_default_color (settings h) in
  let pts := read (point_lists h) (temp_points h) in
  if (current_tool h =? TOOL_PEN)%string && (2 <=? List.length pts)%nat then
    let '(copy, h1) := new_point_list pts h in
    shapes_append
      (HPenStroke copy (default_pen_width (settings h1)) default_color) h1
  else if (current_tool h =? TOOL_RECT)%string
          && (2 <=? List.length pts)%nat then
    let '(x1, y1) := hd (0, 0) pts in
    let '(x2, y2) := last pts (0, 0) in
    shapes_append
      (HRectShape (py_min x1 x2) (py_min y1 y2)
                  (py_abs (x2 - x1)) (py_abs (y2 - y1))
                  (default_rect_width (settings h)) default_color) h
  else if (current_tool h =? TOOL_ARROW)%string
          && (2 <=? List.length pts)%nat then
    let '(x1, y1) := hd (0, 0) pts in
    let '(x2, y2) := last pts (0, 0) in
    shapes_append
      (HArrowShape x1 y1 x2 y2
                   (default_arrow_width (settings h)) default_color) h
  else h.

(** The draft is cleared by binding a new empty list:
    [self.temp_points = []]. *)
Definition on_button_release (button : Z) (h : Window) : Outcome Window :=
  if negb (button =? 1)%Z || negb (drawing h) then Returned false h
  else
    let h1 := set_drawing false h in
    match read (point_lists h1) (temp_points h1) with
    | [] => Returned true h1
    | _ :: _ =>
        let h2 := push_undo h1 in
        let h3 := add_shape h2 in
        let '(fresh, h4) := new_point_list [] h3 in
        let h5 := set_temp_points fresh h4 in
        Returned true (set_modified true h5)
    end.

(** [self.shapes = self.undo_stack.pop()]: the popped list object becomes
    the shape list. *)
Definition undo (h : Window) : Window :=
  match undo_stack h with
  | [] => h
  | _ :: _ =>
      let h1 := set_shapes (last (undo_stack h) 0%nat) h in
      let h2 := set_undo_stack (removelast (undo_stack h)) h1 in
      set_modified true h2
  end.

Definition save_succeeded (h : Window) : Window :=
  let h1 := set_modified false h in
  if auto_close_after_save (settings h1) then set_closed true h1 else h1.

Definition save_dialog (w : World) (h : Window) : Window :=
  if file_chosen w then
    if save_raises w then h else save_succeeded h
  else h.

Definition quick_save (w : World) (h : Window) : Window :=
  if negb (autosave_enabled (settings h)) then save_dialog w h
  else if save_raises w then h else save_succeeded h.

Definition copy_to_clipboard (w : World) (h : Window) : Window := h.

Definition upload (h : Window) : Window := h.

Definition on_close (w : World) (h : Window) : Window :=
  if modified h && show_save_confirmation (settings h) then
    if confirm_save_yes w then
      if autosave_enabled (settings h) then quick_save w h
      else save_dialog w h
    else h
  else h.

Definition close (w : World) (h : Window) : Window :=
  set_closed true (on_close w h).

Definition on_key (w : World) (keyval state : Z) (h : Window)
  : Outcome Window :=
  let key := keyval in
  let ctrl := negb (Z.land state CONTROL_MASK =? 0)%Z in
  let shift := negb (Z.land state SHIFT_MASK =? 0)%Z in
  Returned true
    (if (key =? KEY_P)%Z || (key =? KEY_p)%Z then set_tool TOOL_PEN h
     else if (key =? KEY_R)%Z || (key =? KEY_r)%Z then set_tool TOOL_RECT h
     else if (key =? KEY_A)%Z || (key =? KEY_a)%Z then set_tool TOOL_ARROW h
     else if (key =? KEY_T)%Z || (key =? KEY_t)%Z then set_tool TOOL_TEXT h
     else if ctrl && (key =? KEY_z)%Z then undo h
     else if ctrl && shift && (key =? KEY_s)%Z then save_dialog w h
     else if ctrl && (key =? KEY_s)%Z then
       if autosave_enabled (settings h) then quick_save w h
       else save_dialog w h
     else if ctrl && (key =? KEY_c)%Z then copy_to_clipboard w h
     else if (key =? KEY_Return)%Z then copy_to_clipboard w h
     else if (key =? KEY_Escape)%Z then close w h
     else if (key =? KEY_U)%Z || (key =? KEY_u)%Z then upload h
     else h).

Definition dispatch (w : World) (ev : Event) (h : Window) : Outcome Window :=
  match ev with
  | ButtonPress b x y => on_button_press w b x y h
  | MotionNotify x y => on_motion x y h
  | ButtonRelease b => on_button_release b h
  | KeyPress k s => on_key w k s h
  | ClickTool t => Returned true (set_tool t h)
  | ClickUndo => Returned true (undo h)
  | ClickQuickSave => Returned true (quick_save w h)
  | ClickSaveAs => Returned true (save_dialog w h)
  | ClickCopy => Returned true (copy_to_clipboard w h)
  | ClickUpload => Returned true (upload h)
  | ClickClose => Returned true (close w h)
  end.

Definition step (h : Window) (we : World * Event) : Window :=
  state_of (dispatch (fst we) (snd we) h).

Definition run (evs : list (World * Event)) (h : Window) : Window :=
  fold_left step evs h.

(** *** What the references stand for *)

(** The annotation a shape object denotes in a store of point lists. *)
Definition geometry (pl : list (list Point)) (shp : HShape) : Shape :=
  match shp with
  | HPenStroke l width color => PenStroke (read pl l) width color
  | HRectShape x y w h width color => RectShape x y w h width color
  | HArrowShape x1 y1 x2 y2 width color =>
      ArrowShape x1 y1 x2 y2 width color
  | HTextLabel x y text size color => TextLabel x y text size color
  end.

(** The shapes a shape-list object denotes. *)
Definition shapes_at (h : Window) (l : loc) : list Shape :=
  map (geometry (point_lists h)) (read (shape_lists h) l).

(** The window with every reference replaced by what it stands for. *)
Definition value (h : Window) : EditorWindow :=
  mkEditor (settings h) (current_tool h) (drawing h)
           (read (point_lists h) (temp_points h))
           (shapes_at h (shapes h))
           (map (shapes_at h) (undo_stack h))
           (modified h) (closed h).

(** The shape objects of the committed list and of every snapshot. *)
Definition committed (h : Window) : list HShape :=
  read (shape_lists h) (shapes h)
  ++ List.concat (map (read (shape_lists h)) (undo_stack h)).

(** The point list a pen stroke refers to. *)
Definition stroke_points (shp : HShape) : option loc :=
  match shp with HPenStroke l _ _ => Some l | _ => None end.

(** A shape object that some shape list of the store holds: every shape
    that was ever committed, whether or not a later undo dropped it. *)
Definition stored (h : Window) (shp : HShape) : Prop :=
  exists sl, In sl (shape_lists h) /\ In shp sl.

(** The invariant of the store: references are allocated, the shape list
    is no snapshot of the stack, the stack holds no reference twice, and
    no shape in the store refers to the draft. *)
Record well_formed (h : Window) : Prop := mkWellFormed {
  wf_temp : (temp_points h < List.length (point_lists h))%nat;
  wf_shapes : (shapes h < List.length (shape_lists h))%nat;
  wf_stack :
    forall l, In l (undo_stack h) ->
              (l < List.length (shape_lists h))%nat;
  wf_no_alias : ~ In (shapes h) (undo_stack h);
  wf_nodup : NoDup (undo_stack h);
  wf_strokes :
    forall shp l,
      stored h shp -> stroke_points shp = Some l ->
      (l < List.length (point_lists h))%nat /\ l <> temp_points h
}.

(** [h'] comes after [h]: every stored shape is still stored and denotes
    the same annotation. *)
Definition later (h h' : Window) : Prop :=
  forall shp,
    stored h shp ->
    stored h' shp
    /\ geometry (point_lists h') shp = geometry (point_lists h) shp.

(** Two windows over the same references and the same store. *)
Definition same_store (h h' : Window) : Prop :=
  temp_points h' = temp_points h
  /\ shapes h' = shapes h
  /\ undo_stack h' = undo_stack h
  /\ point_lists h' = point_lists h
  /\ shape_lists h' = shape_lists h.

(** [h'] is well formed, comes after [h] and stands for [st']. *)
Definition simulates (h h' : Window) (st' : EditorWindow) : Prop :=
  well_formed h' /\ later h h' /\ value h' = st'.

End Heap.

(** ** Proof automation *)

(** Case analysis on the first conditional of the goal. *)
Ltac break_if :=
  match goal with
  | |- context [if ?b then _ else _] => destruct b eqn:?
  end.


(** * Further definitions: whole gestures, the renderers, capture, settings *)

(** ** Clicks and repeated undo *)

(** A click with the text tool: pointer-down (the dialog answers as [w]
    says), pointer-moves, pointer-up. *)
Definition text_click (w : World) (x y : R) (moves : list Point)
  : list (World * Event) :=
  (w, ButtonPress 1 x y)
    :: moves_events moves ++ [(quiet, ButtonRelease 1)].

(** Pointer-down, pointer-moves and pointer-up with button [b]. *)
Definition button_gesture (b : Z) (p : Point) (moves : list Point)
  : list (World * Event) :=
  (quiet, ButtonPress b (fst p) (snd p))
    :: moves_events moves ++ [(quiet, ButtonRelease b)].

(** [undo] called [n] times. *)
Definition undo_times (n : nat) (st : EditorWindow) : EditorWindow :=
  Nat.iter n undo st.

(** ** The two renderers, call by call

    [on_draw] paints the window through a cairo context and
    [_save_current_image_pil] paints the exported image through PIL's
    [ImageDraw]. Both are modelled by the calls they make on the drawing
    object, in order, with the arguments the code passes. *)

(** [shp.color], the attribute every annotation has. *)
Definition shape_color (shp : Shape) : Color :=
  match shp with
  | PenStroke _ _ color => color
  | RectShape _ _ _ _ _ color => color
  | ArrowShape _ _ _ _ _ color => color
  | TextLabel _ _ _ _ color => color
  end.

(** [int(x)] of a float: the integer part, towards zero. *)
Definition py_int (x : R) : Z :=
  if Rle_dec 0 x then Int_part x else (- Int_part (- x))%Z.

(** What ends up on the picture, colours and line widths left aside: a
    straight line between two points and the outline of an axis-parallel
    box given by two opposite corners. *)
Inductive Mark : Type :=
| Line (p q : Point)
| Box (p q : Point).

Module Cairo.

(** The methods of [cairo.Context] that [on_draw] and [draw_arrow] call. *)
Inductive Call : Type :=
| set_source_pixbuf              (* Gdk.cairo_set_source_pixbuf(cr, pb, 0, 0) *)
| paint
| set_source_rgba (r g b a : R)
| set_line_width (width : R)
| move_to (x y : R)
| line_to (x y : R)
| rectangle (x y w h : R)
| stroke
| select_font_face (family : string)   (* normal slant, bold weight *)
| set_font_size (size : Z)
| show_text (text : string).

(** [EditorWindow.draw_arrow] *)
Definition draw_arrow (x1 y1 x2 y2 width : R) : list Call :=
  let ang := atan2 (y2 - y1) (x2 - x1) in
  let head_len := 12 + width * 2 in
  let head_ang := PI / 6 in
  let xh1 := x2 - head_len * cos (ang - head_ang) in
  let yh1 := y2 - head_len * sin (ang - head_ang) in
  let xh2 := x2 - head_len * cos (ang + head_ang) in
  let yh2 := y2 - head_len * sin (ang + head_ang) in
  [set_line_width width; move_to x1 y1; line_to x2 y2; stroke;
   move_to x2 y2; line_to xh1 yh1; move_to x2 y2; line_to xh2 yh2; stroke].

(** [cr.move_to] to the first point, [cr.line_to] to every point of
    [pts[1:]], [cr.stroke()]; both uses are guarded by [len(pts) >= 2]. *)
Definition polyline (pts : list Point) : list Call :=
  match pts with
  | [] => []
  | p0 :: rest =>
      move_to (fst p0) (snd p0)
        :: map (fun p => line_to (fst p) (snd p)) rest ++ [stroke]
  end.

(** One turn of the loop [for shp in self.shapes] of [on_draw]. *)
Definition draw_shape (shp : Shape) : list Call :=
  let '(r, g, b, a) := shape_color shp in
  set_source_rgba (IZR r / 255.0) (IZR g / 255.0) (IZR b / 255.0)
                  (IZR a / 255.0)
    :: match shp with
       | PenStroke pts width _ =>
           set_line_width width
             :: (if (2 <=? List.length pts)%nat then polyline pts else [])
       | RectShape x y w h width _ =>
           [set_line_width width; rectangle (x + 0.5) (y + 0.5) w h; stroke]
       | ArrowShape x1 y1 x2 y2 width _ => draw_arrow x1 y1 x2 y2 width
       | TextLabel x y text font_size _ =>
           [select_font_face "Sans"; set_font_size font_size; move_to x y;
            show_text text]
       end.

(** The end of [on_draw]: the temporary shape being drawn. *)
Definition draw_draft (st : EditorWindow) : list Call :=
  match temp_points st with
  | [] => []
  | _ :: _ =>
      set_source_rgba 0.6 0.2 1.0 0.7
        :: (if (current_tool st =? TOOL_PEN)%string
               && (2 <=? List.length (temp_points st))%nat
            then set_line_width 3.0 :: polyline (temp_points st)
            else if ((current_tool st =? TOOL_RECT)%string
                     || (current_tool st =? TOOL_ARROW)%string)
                    && (2 <=? List.length (temp_points st))%nat
            then
              let '(x1, y1) := hd (0, 0) (temp_points st) in
              let '(x2, y2) := last (temp_points st) (0, 0) in
              if (current_tool st =? TOOL_RECT)%string
              then [set_line_width 3.0;
                    rectangle (py_min x1 x2 + 0.5) (py_min y1 y2 + 0.5)
                              (py_abs (x2 - x1)) (py_abs (y2 - y1));
                    stroke]
              else draw_arrow x1 y1 x2 y2 3.0
            else [])
  end.

(** [EditorWindow.on_draw]: the base image, the committed shapes, the
    draft. *)
Definition on_draw (st : EditorWindow) : list Call :=
  [set_source_pixbuf; paint]
    ++ flat_map draw_shape (shapes st)
    ++ draw_draft st.

(** *** What a sequence of calls strokes

    The context holds a current point and a path. [move_to] starts a
    sub-path, [line_to] extends it from the current point (with no current
    point it is a [move_to]), [rectangle] adds a closed box and leaves the
    current point at its corner, [stroke] inks the path and clears it
    together with the current point. [show_text] leaves the current point
    behind the text, at a place that depends on the font: a [line_to] from
    there has no mark this model can name. *)
Inductive Position : Type :=
| NoPoint
| At (p : Point)
| AfterText.

Record Context : Type := mkContext {
  current_point : Position;
  path : list Mark;
  inked : list Mark
}.

Definition exec (cr : Context) (c : Call) : option Context :=
  match c with
  | move_to x y => Some (mkContext (At (x, y)) (path cr) (inked cr))
  | line_to x y =>
      match current_point cr with
      | NoPoint => Some (mkContext (At (x, y)) (path cr) (inked cr))
      | At p =>
          Some (mkContext (At (x, y)) (path cr ++ [Line p (x, y)]) (inked cr))
      | AfterText => None
      end
  | rectangle x y w h =>
      Some (mkContext (At (x, y))
                      (path cr ++ [Box (x, y) (x + w, y + h)]) (inked cr))
  | stroke => Some (mkContext NoPoint [] (inked cr ++ path cr))
  | show_text _ => Some (mkContext AfterText (path cr) (inked cr))
  | set_source_pixbuf | paint | set_source_rgba _ _ _ _ | set_line_width _
  | select_font_face _ | set_font_size _ => Some cr
  end.

Fixpoint exec_all (cr : Context) (calls : list Call) : option Context :=
  match calls with
  | [] => Some cr
  | c :: rest =>
      match exec cr c with
      | Some cr' => exec_all cr' rest
      | None => None
      end
  end.

(** The marks a sequence of calls strokes on a new context, in order. *)
Definition marks (calls : list Call) : option (list Mark) :=
  option_map inked (exec_all (mkContext NoPoint [] []) calls).

End Cairo.

Module PIL.

(** What [ImageFont] gave: the DejaVu face at size 16 or the built-in
    font. *)
Inductive Font : Type :=
| TrueType (path : string) (size : Z)
| DefaultFont.

(** The methods of [ImageDraw] that [_save_current_image_pil] calls. *)
Inductive Call : Type :=
| line (xy : Point * Point) (fill : Color) (width : Z)
| rectangle (xy : Point * Point) (outline : Color) (width : Z)
| text (xy : Point) (s : string) (fill : Color) (font : option Font).

(** The font of the export: [ImageFont.truetype], else
    [ImageFont.load_default], else [None]. The two flags say which of the
    calls raise. *)
Definition load_font (truetype_raises default_raises : bool)
  : option Font :=
  if negb truetype_raises
  then Some (TrueType "/usr/share/fonts/truetype/dejavu/DejaVuSans-Bold.ttf"
                      16)
  else if negb default_raises then Some DefaultFont
  else None.

(** One turn of the loop [for shp in self.shapes] of
    [_save_current_image_pil]. *)
Definition save_shape (font : option Font) (shp : Shape) : list Call :=
  let color := shape_color shp in
  match shp with
  | PenStroke pts width _ =>
      if (2 <=? List.length pts)%nat then
        map (fun i =>
               let '(x1, y1) := nth i pts (0, 0) in
               let '(x2, y2) := nth (i + 1) pts (0, 0) in
               line ((x1, y1), (x2, y2)) color (py_int width))
            (seq 0 (List.length pts - 1))
      else []
  | RectShape x y w h width _ =>
      let '(x1, y1) := (x, y) in
      let '(x2, y2) := (x + w, y + h) in
      [rectangle ((x1, y1), (x2, y2)) color (py_int width)]
  | ArrowShape x1 y1 x2 y2 width _ =>
      let ang := atan2 (y2 - y1) (x2 - x1) in
      let head_len := 12 + width * 2 in
      let head_ang := PI / 6 in
      let xh1 := x2 - head_len * cos (ang - head_ang) in
      let yh1 := y2 - head_len * sin (ang - head_ang) in
      let xh2 := x2 - head_len * cos (ang + head_ang) in
      let yh2 := y2 - head_len * sin (ang + head_ang) in
      [line ((x1, y1), (x2, y2)) color (py_int width);
       line ((x2, y2), (xh1, yh1)) color (py_int width);
       line ((x2, y2), (xh2, yh2)) color (py_int width)]
  | TextLabel x y s font_size _ =>
      [text (x, y - IZR font_size) s color font]
  end.

(** The drawing part of [_save_current_image_pil]. *)
Definition _save_current_image_pil (font : option Font)
           (st : EditorWindow) : list Call :=
  flat_map (save_shape font) (shapes st).

(** The marks of the calls, in order; [rectangle] outlines the box between
    its two points. *)
Definition marks (calls : list Call) : list Mark :=
  flat_map (fun c =>
              match c with
              | line (p, q) _ _ => [Line p q]
              | rectangle (p, q) _ _ => [Box p q]
              | text _ _ _ _ => []
              end) calls.

End PIL.

(** Where a mark of the export lies on the screen: a line is where it is, a
    box is half a pixel further right and down. *)
Definition on_screen (m : Mark) : Mark :=
  match m with
  | Line p q => Line p q
  | Box (x1, y1) (x2, y2) => Box (x1 + 0.5, y1 + 0.5) (x2 + 0.5, y2 + 0.5)
  end.

(** *** The marks of a shape, for the proofs about the two renderers *)

(** The lines that join each point of a list to the next. *)
Fixpoint segments (pts : list Point) : list Mark :=
  match pts with
  | [] => []
  | p :: rest =>
      match rest with
      | [] => []
      | q :: _ => Line p q :: segments rest
      end
  end.

(** The three lines of an arrow, as [draw_arrow] computes them. *)
Definition arrow_lines (x1 y1 x2 y2 width : R) : list Mark :=
  map (fun s : Segment R => Line (fst s) (snd s))
      (draw_arrow R Rplus Rminus Rmult Rdiv IZR PI atan2 cos sin
                  x1 y1 x2 y2 width).

(** The marks of a committed shape on the screen. *)
Definition shape_marks (shp : Shape) : list Mark :=
  match shp with
  | PenStroke pts _ _ =>
      if (2 <=? List.length pts)%nat then segments pts else []
  | RectShape x y w h _ _ => [Box (x + 0.5, y + 0.5) (x + 0.5 + w, y + 0.5 + h)]
  | ArrowShape x1 y1 x2 y2 width _ => arrow_lines x1 y1 x2 y2 width
  | TextLabel _ _ _ _ _ => []
  end.

(** The marks of the draft on the screen. *)
Definition draft_marks (st : EditorWindow) : list Mark :=
  if (2 <=? List.length (temp_points st))%nat then
    let '(x1, y1) := hd (0, 0) (temp_points st) in
    let '(x2, y2) := last (temp_points st) (0, 0) in
    if (current_tool st =? TOOL_PEN)%string then segments (temp_points st)
    else if (current_tool st =? TOOL_RECT)%string then
      [Box (py_min x1 x2 + 0.5, py_min y1 y2 + 0.5)
           (py_min x1 x2 + 0.5 + py_abs (x2 - x1),
            py_min y1 y2 + 0.5 + py_abs (y2 - y1))]
    else if (current_tool st =? TOOL_ARROW)%string
    then arrow_lines x1 y1 x2 y2 3.0
    else []
  else [].

(** ** Screen capture and clipboard ([wayland_screenshot_simple.py])

    The module runs external programs. The system is an oracle that tells
    what [subprocess.run], [os.path.exists] and [shutil.which] answer; every
    method returns its result together with the command lines it ran, in
    order. Programs are taken to end (the two-argument probes of
    [__init__] have no timeout). *)

Module Capture.

(** What [subprocess.run] does with a command line. *)
Inductive Process : Type :=
| Completed (returncode : Z) (stdout : string)
| FileNotFoundError              (* the program is not installed *)
| OtherException.                (* TimeoutExpired, PermissionError, ... *)

Definition Command : Type := list string.

Record System : Type := mkSystem {
  (* subprocess.run(cmd, ...) *)
  run_process : Command -> Process;
  (* os.path.exists(path), asked after [cmd] has completed *)
  path_exists : Command -> string -> bool;
  (* shutil.which(name) found the program *)
  which : string -> bool;
  (* open(path, 'rb') or the read that follows raises *)
  open_raises : string -> bool;
  (* str(Path(tempfile.gettempdir()) / "zorinshot") *)
  tempdir_zorinshot : string;
  (* self.temp_dir.mkdir(exist_ok=True) raises *)
  mkdir_raises : bool;
  (* the digits of os.getpid() *)
  getpid : string
}.

Record WaylandScreenshotCapture : Type := mkCapture {
  temp_dir : string;
  grim_available : bool;
  gnome_screenshot_available : bool;
  imagemagick_available : bool
}.

(** A result, or an exception that leaves the method. *)
Inductive Try (A : Type) : Type :=
| Ok (a : A)
| Propagated.

Arguments Ok {A} a.
Arguments Propagated {A}.

(** [subprocess.run(cmd, capture_output=True, check=True)] under
    [except (subprocess.CalledProcessError, FileNotFoundError)]: a status
    other than 0 raises [CalledProcessError]. [Ok true] when the statement
    went through, [Ok false] when the handler caught. *)
Definition probe (sys : System) (cmd : Command) : Try bool :=
  match run_process sys cmd with
  | Completed returncode _ => Ok (returncode =? 0)%Z
  | FileNotFoundError => Ok false
  | OtherException => Propagated
  end.

(** [_check_grim_available] *)
Definition _check_grim_available (sys : System)
  : Try bool * list Command :=
  match probe sys ["grim"; "--version"] with
  | Ok true =>
      (probe sys ["slurp"; "--version"],
       [["grim"; "--version"]; ["slurp"; "--version"]])
  | r => (r, [["grim"; "--version"]])
  end.

(** [_check_gnome_screenshot_available] *)
Definition _check_gnome_screenshot_available (sys : System)
  : Try bool * list Command :=
  (probe sys ["gnome-screenshot"; "--version"],
   [["gnome-screenshot"; "--version"]]).

(** [_check_imagemagick_available] *)
Definition _check_imagemagick_available (sys : System)
  : Try bool * list Command :=
  (probe sys ["import"; "-version"], [["import"; "-version"]]).

(** [WaylandScreenshotCapture.__init__] *)
Definition init (sys : System)
  : Try WaylandScreenshotCapture * list Command :=
  if mkdir_raises sys then (Propagated, [])
  else
    match _check_grim_available sys with
    | (Propagated, t1) => (Propagated, t1)
    | (Ok grim, t1) =>
        match _check_gnome_screenshot_available sys with
        | (Propagated, t2) => (Propagated, t1 ++ t2)
        | (Ok gnome, t2) =>
            match _check_imagemagick_available sys with
            | (Propagated, t3) => (Propagated, t1 ++ t2 ++ t3)
            | (Ok imagemagick, t3) =>
                (Ok (mkCapture (tempdir_zorinshot sys) grim gnome
                               imagemagick),
                 t1 ++ t2 ++ t3)
            end
        end
    end.

(** The body the five one-command capture methods share, after the
    availability test:
    [try: result = subprocess.run(cmd, ...)]
    [     if result.returncode == 0 and os.path.exists(output_path):]
    [         return output_path]
    [     else: return None]
    [except Exception: return None]. *)
Definition run_to_file (sys : System) (cmd : Command) (output_path : string)
  : option string * list Command :=
  (match run_process sys cmd with
   | Completed returncode _ =>
       if (returncode =? 0)%Z && path_exists sys cmd output_path
       then Some output_path else None
   | FileNotFoundError | OtherException => None
   end,
   [cmd]).

Definition _capture_fullscreen_grim (sys : System)
           (self : WaylandScreenshotCapture) (output_path : string)
  : option string * list Command :=
  if negb (grim_available self) then (None, [])
  else run_to_file sys ["grim"; output_path] output_path.

Definition _capture_fullscreen_gnome (sys : System)
           (self : WaylandScreenshotCapture) (output_path : string)
  : option string * list Command :=
  if negb (gnome_screenshot_available self) then (None, [])
  else run_to_file sys ["gnome-screenshot"; "--file"; output_path]
                   output_path.

Definition _capture_fullscreen_imagemagick (sys : System)
           (self : WaylandScreenshotCapture) (output_path : string)
  : option string * list Command :=
  if negb (imagemagick_available self) then (None, [])
  else run_to_file sys ["import"; "-window"; "root"; output_path]
                   output_path.

(** [_capture_region_grim_slurp]: [slurp] selects, [grim -g] captures. *)
Definition _capture_region_grim_slurp (sys : System)
           (self : WaylandScreenshotCapture) (output_path : string)
  : option string * list Command :=
  if negb (grim_available self) then (None, [])
  else
    match run_process sys ["slurp"] with
    | Completed returncode stdout =>
        if negb (returncode =? 0)%Z then (None, [["slurp"]])
        else
          let region := strip stdout in
          if negb (str_truthy region) then (None, [["slurp"]])
          else
            let '(result, ran) :=
              run_to_file sys ["grim"; "-g"; region; output_path]
                          output_path in
            (result, ["slurp"] :: ran)
    | FileNotFoundError | OtherException => (None, [["slurp"]])
    end.

Definition _capture_region_gnome (sys : System)
           (self : WaylandScreenshotCapture) (output_path : string)
  : option string * list Command :=
  if negb (gnome_screenshot_available self) then (None, [])
  else run_to_file sys ["gnome-screenshot"; "--area"; "--file"; output_path]
                   output_path.

Definition _capture_region_imagemagick (sys : System)
           (self : WaylandScreenshotCapture) (output_path : string)
  : option string * list Command :=
  if negb (imagemagick_available self) then (None, [])
  else run_to_file sys ["import"; output_path] output_path.

(** The truth value of an [Optional[str]]. *)
Definition truthy (result : option string) : bool :=
  match result with
  | Some s => str_truthy s
  | None => false
  end.

(** The loop of both capture methods:
    [for method_name, method_func in methods:]
    [    result = method_func(output_path)]
    [    if result: return result]
    and [return None] after it. No method lets an exception out, so the
    loop's own handler has nothing to catch. *)
Fixpoint try_methods
         (methods : list (string -> option string * list Command))
         (output_path : string) : option string * list Command :=
  match methods with
  | [] => (None, [])
  | method_func :: rest =>
      let '(result, ran) := method_func output_path in
      if truthy result then (result, ran)
      else
        let '(result', ran') := try_methods rest output_path in
        (result', ran ++ ran')
  end.

(** [capture_fullscreen] *)
Definition capture_fullscreen (sys : System)
           (self : WaylandScreenshotCapture) (output_path : option string)
  : option string * list Command :=
  let output_path :=
    if negb (truthy output_path)
    then (temp_dir self ++ "/screenshot_" ++ getpid sys ++ ".png")%string
    else match output_path with Some p => p | None => "" end in
  try_methods [_capture_fullscreen_grim sys self;
               _capture_fullscreen_gnome sys self;
               _capture_fullscreen_imagemagick sys self] output_path.

(** [capture_region] *)
Definition capture_region (sys : System)
           (self : WaylandScreenshotCapture) (output_path : option string)
  : option string * list Command :=
  let output_path :=
    if negb (truthy output_path)
    then (temp_dir self ++ "/screenshot_region_" ++ getpid sys
          ++ ".png")%string
    else match output_path with Some p => p | None => "" end in
  try_methods [_capture_region_grim_slurp sys self;
               _capture_region_gnome sys self;
               _capture_region_imagemagick sys self] output_path.

(** [copy_to_clipboard] *)
Definition copy_to_clipboard (sys : System) (image_path : string)
  : bool * list Command :=
  if which sys "wl-copy" then
    if open_raises sys image_path then (false, [])
    else
      match run_process sys ["wl-copy"; "--type"; "image/png"] with
      | Completed returncode _ =>
          ((returncode =? 0)%Z, [["wl-copy"; "--type"; "image/png"]])
      | FileNotFoundError | OtherException =>
          (false, [["wl-copy"; "--type"; "image/png"]])
      end
  else if which sys "xclip" then
    match run_process sys ["xclip"; "-selection"; "clipboard"; "-t";
                           "image/png"; "-i"; image_path] with
    | Completed returncode _ =>
        ((returncode =? 0)%Z,
         [["xclip"; "-selection"; "clipboard"; "-t"; "image/png"; "-i";
           image_path]])
    | FileNotFoundError | OtherException =>
        (false,
         [["xclip"; "-selection"; "clipboard"; "-t"; "image/png"; "-i";
           image_path]])
    end
  else (false, []).

(** [get_available_methods], the values of the dictionary. *)
Definition get_available_methods (self : WaylandScreenshotCapture)
  : list (string * bool) :=
  [("grim", grim_available self);
   ("gnome", gnome_screenshot_available self);
   ("imagemagick", imagemagick_available self)].

(** The effective output path of both capture methods. *)
Definition effective_path (default : string) (output_path : option string)
  : string :=
  if negb (truthy output_path) then default
  else match output_path with Some p => p | None => "" end.

(** A command line that completes with status 0 and leaves the file. *)
Definition succeeds (sys : System) (cmd : Command) (output_path : string)
  : bool :=
  match run_process sys cmd with
  | Completed returncode _ =>
      (returncode =? 0)%Z && path_exists sys cmd output_path
  | FileNotFoundError | OtherException => false
  end.

(** The program a command line starts. *)
Definition program (cmd : Command) : string := hd "" cmd.

End Capture.

(** ** The preferences dialog and the shared settings object

    [get_settings()] hands out the object that [settings_manager.settings]
    refers to. The editor window and the preferences dialog keep it in
    their own [self.settings]; [_save_settings] assigns to its attributes in
    place and [reset_to_defaults] binds the manager to a new object. The
    settings objects live in a store and each holder has a reference. *)

Module Prefs.

Definition loc : Type := nat.

Record State : Type := mkState {
  objects : list ZorinShotSettings;   (* every settings object *)
  manager : loc;                      (* settings_manager.settings *)
  editor : loc                        (* EditorWindow.settings *)
}.

Definition read (s : State) (l : loc) : ZorinShotSettings :=
  nth l (objects s) default_settings.

Fixpoint write (objs : list ZorinShotSettings) (l : loc)
         (v : ZorinShotSettings) : list ZorinShotSettings :=
  match objs, l with
  | [], _ => []
  | _ :: t, O => v :: t
  | a :: t, S l' => a :: write t l' v
  end.

(** What the user does in the dialog: the reset button answered with Yes,
    or a response; [ui] is what the widgets hold when Apply or OK is
    pressed. *)
Inductive Action : Type :=
| ResetToDefaults
| Apply (ui : ZorinShotSettings)
| Ok (ui : ZorinShotSettings)
| Cancel.

(** [PreferencesDialog._save_settings]: every attribute the dialog has a
    widget for is assigned on the object the dialog refers to; the dialog
    has no widget for [last_selected_tool]. *)
Definition _save_settings (ui : ZorinShotSettings) (dialog : loc)
           (s : State) : State :=
  mkState
    (write (objects s) dialog
           (set_last_selected_tool (last_selected_tool (read s dialog)) ui))
    (manager s) (editor s).

(** [SettingsManager.reset_to_defaults]:
    [self.settings = ZorinShotSettings()]. *)
Definition reset_to_defaults (s : State) : State :=
  mkState (objects s ++ [default_settings]) (List.length (objects s))
          (editor s).

(** [PreferencesDialog.run_dialog], with [_on_reset_settings] between the
    responses. A dialog that is closed otherwise gives a response that is
    neither OK nor APPLY. *)
Fixpoint run_dialog (actions : list Action) (dialog : loc) (s : State)
  : bool * State :=
  match actions with
  | [] => (false, s)
  | ResetToDefaults :: rest =>
      let s' := reset_to_defaults s in
      run_dialog rest (manager s') s'
  | Apply ui :: rest => run_dialog rest dialog (_save_settings ui dialog s)
  | Ok ui :: _ => (true, _save_settings ui dialog s)
  | Cancel :: _ => (false, s)
  end.

(** [EditorWindow.show_preferences]: the dialog starts on the manager's
    object; after OK the editor takes the manager's object. *)
Definition show_preferences (actions : list Action) (s : State) : State :=
  let '(accepted, s') := run_dialog actions (manager s) s in
  if accepted then mkState (objects s') (manager s') (manager s') else s'.

(** Whether the reset button is used before the dialog ends. *)
Fixpoint resets (actions : list Action) : bool :=
  match actions with
  | ResetToDefaults :: _ => true
  | Apply _ :: rest => resets rest
  | Ok _ :: _ | Cancel :: _ | [] => false
  end.

(** The settings the editor's handlers read through [self.settings]. *)
Definition editor_settings (s : State) : ZorinShotSettings :=
  read s (editor s).

(** The settings [settings_manager.get_default_color()] reads. *)
Definition manager_settings (s : State) : ZorinShotSettings :=
  read s (manager s).

(** A state as [EditorWindow.__init__] leaves it: the editor holds the
    manager's object. *)
Definition in_sync (s : State) : Prop :=
  editor s = manager s /\ (manager s < List.length (objects s))%nat.

End Prefs.

(** ** Settings persistence ([zorinshot_settings.py])

    [load_settings] copies a JSON object into the settings instance with
    [hasattr] and [setattr], which know nothing of the types of the fields.
    The instance is therefore modelled by its attribute dictionary, whose
    values are JSON values. *)

Module Settings.

(** What [json.load] returns. *)
#[warnings="-register-all"] Inductive Json : Type :=
| JNull
| JBool (b : bool)
| JInt (n : Z)
| JFloat (x : R)
| JString (s : string)
| JArray (items : list Json)
| JObject (members : list (string * Json)).

(** A dictionary with string keys, in insertion order. *)
Definition Dict : Type := list (string * Json).

(** [d.get(key)] *)
Fixpoint get (key : string) (d : Dict) : option Json :=
  match d with
  | [] => None
  | (k, v) :: rest => if (k =? key)%string then Some v else get key rest
  end.

(** [d[key] = value] *)
Fixpoint set (key : string) (value : Json) (d : Dict) : Dict :=
  match d with
  | [] => [(key, value)]
  | (k, v) :: rest =>
      if (k =? key)%string then (k, value) :: rest
      else (k, v) :: set key value rest
  end.

(** The fields of the dataclass [ZorinShotSettings] with their defaults,
    in the order of the class body. *)
Definition fields : Dict :=
  [("autosave_enabled", JBool false);
   ("default_save_location", JString "");
   ("filename_pattern", JString "Screenshot_%Y%m%d_%H%M%S");
   ("default_format", JString "png");
   ("window_width", JInt 900);
   ("window_height", JInt 600);
   ("toolbar_style", JString "icons");
   ("default_pen_width", JFloat 3.0);
   ("default_arrow_width", JFloat 3.0);
   ("default_rect_width", JFloat 3.0);
   ("default_text_size", JInt 16);
   ("default_color_r", JInt 153);
   ("default_color_g", JInt 51);
   ("default_color_b", JInt 255);
   ("default_color_a", JInt 242);
   ("copy_to_clipboard_on_save", JBool true);
   ("show_save_confirmation", JBool true);
   ("auto_close_after_save", JBool false);
   ("remember_tool_selection", JBool true);
   ("last_selected_tool", JString "arrow");
   ("temp_dir", JString "");
   ("max_undo_levels", JInt 20);
   ("image_quality_jpeg", JInt 95)].

(** [ZorinShotSettings()]: the attribute dictionary of a new instance. *)
Definition new : Dict := fields.

Definition is_field (key : string) : bool :=
  match get key fields with Some _ => true | None => false end.

(** The attributes of every instance that are data descriptors of the
    class: assigning to them does not go to the attribute dictionary. *)
Definition is_special (key : string) : bool :=
  (key =? "__class__")%string || (key =? "__dict__")%string
  || (key =? "__weakref__")%string.

Section Attributes.

(** The other names the class and [object] define ([__init__], [__eq__],
    [__doc__], ...); which ones there are depends on the Python version.
    Assigning to one of them on an instance is an entry of the attribute
    dictionary like any other. *)
Variable class_attribute : string -> bool.

(** [hasattr(obj, key)] *)
Definition hasattr (obj : Dict) (key : string) : bool :=
  match get key obj with
  | Some _ => true
  | None => is_field key || is_special key || class_attribute key
  end.

(** [getattr(obj, key)] for a field: the instance's value, else the class
    default. *)
Definition getattr (obj : Dict) (key : string) : option Json :=
  match get key obj with
  | Some v => Some v
  | None => get key fields
  end.

(** [setattr(obj, key, value)] with a value that came out of [json.load];
    [None] stands for the exception. [__class__] takes only a class,
    [__dict__] only a dictionary, which then is the attribute dictionary,
    and [__weakref__] cannot be assigned. *)
Definition setattr (obj : Dict) (key : string) (value : Json)
  : option Dict :=
  if (key =? "__class__")%string then None
  else if (key =? "__dict__")%string then
    match value with
    | JObject members => Some members
    | _ => None
    end
  else if (key =? "__weakref__")%string then None
  else Some (set key value obj).

(** The loop of [load_settings] and [import_settings]:
    [for key, value in data.items():]
    [    if hasattr(self.settings, key):]
    [        setattr(self.settings, key, value)].
    The flag is false when a [setattr] raised; the instance is then as the
    turns before have left it. *)
Fixpoint update_from (items : Dict) (obj : Dict) : bool * Dict :=
  match items with
  | [] => (true, obj)
  | (key, value) :: rest =>
      if hasattr obj key then
        match setattr obj key value with
        | Some obj' => update_from rest obj'
        | None => (false, obj)
        end
      else update_from rest obj
  end.

(** The configuration file as [load_settings] finds it. *)
Inductive File : Type :=
| Missing                    (* config_file.exists() is false *)
| Unreadable                 (* open or json.load raises *)
| Holds (data : Json).

(** [SettingsManager.load_settings]: the result and the instance
    afterwards. Data that is no JSON object has no [items]. *)
Definition load_settings (file : File) (obj : Dict) : bool * Dict :=
  match file with
  | Missing => (false, obj)
  | Unreadable => (false, obj)
  | Holds (JObject members) => update_from members obj
  | Holds _ => (false, obj)
  end.

(** [dataclasses.asdict(obj)]: the fields, in order, with the instance's
    values. *)
Definition asdict (obj : Dict) : Dict :=
  map (fun f => (fst f,
                 match getattr obj (fst f) with
                 | Some v => v
                 | None => JNull
                 end)) fields.

(** How the write of [save_settings] goes. *)
Inductive Write : Type :=
| Written
| OpenRaises                 (* the file is as it was *)
| DumpRaises.                (* the file is cut short *)

(** [SettingsManager.save_settings]: the result and the file afterwards. *)
Definition save_settings (w : Write) (obj : Dict) (file : File)
  : bool * File :=
  match w with
  | Written => (true, Holds (JObject (asdict obj)))
  | OpenRaises => (false, file)
  | DumpRaises => (false, Unreadable)
  end.

End Attributes.

End Settings.

(** ** Starting the application ([ZorinShotApp]) *)

Module App.

(** How [ZorinShotApp()] ends. *)
Inductive Failure : Type :=
| CaptureFailed          (* "Failed to capture region. ..." *)
| LoadFailed.            (* "Failed to load captured image: ..." *)

Inductive Startup : Type :=
| Raises                           (* an exception leaves [__init__] *)
| Exits (status : Z)               (* [sys.exit(status)] *)
| OpensEditor (image : string)     (* [editor.show_all()] went through *)
| ShowsError (failure : Failure).  (* [_show_error_dialog] *)

(** What the application finds besides the programs of [Capture.System]. *)
Record Desktop : Type := mkDesktop {
  (* Path(self.settings.temp_dir).mkdir(parents=True, exist_ok=True)
     raises *)
  temp_mkdir_raises : bool;
  (* str(Path(self.settings.temp_dir) / f"region_{os.getpid()}.png") *)
  temp_file : string;
  (* Pixbuf.new_from_file(path), EditorWindow(...) or show_all() raises *)
  editor_raises : string -> bool
}.

(** [any(methods.values())] *)
Definition any_method (self : Capture.WaylandScreenshotCapture) : bool :=
  existsb snd (Capture.get_available_methods self).

(** [ZorinShotApp._capture_region_and_edit] *)
Definition _capture_region_and_edit (sys : Capture.System) (d : Desktop)
           (self : Capture.WaylandScreenshotCapture)
  : Startup * list Capture.Command :=
  let '(result, ran) :=
    Capture.capture_region sys self (Some (temp_file d)) in
  match result with
  | Some path =>
      if str_truthy path then
        if editor_raises d path then (ShowsError LoadFailed, ran)
        else (OpensEditor path, ran)
      else (ShowsError CaptureFailed, ran)
  | None => (ShowsError CaptureFailed, ran)
  end.

(** [ZorinShotApp.__init__]; [start_region_selection] is a call of
    [_capture_region_and_edit]. *)
Definition init (sys : Capture.System) (d : Desktop)
  : Startup * list Capture.Command :=
  match Capture.init sys with
  | (Capture.Propagated, ran) => (Raises, ran)
  | (Capture.Ok self, ran) =>
      if temp_mkdir_raises d then (Raises, ran)
      else if negb (any_method self) then (Exits 1, ran)
      else
        let '(outcome, ran') := _capture_region_and_edit sys d self in
        (outcome, ran ++ ran')
  end.

End App.
(** ** Basic facts about the handlers *)

Section FieldLemmas.

Variable st : EditorWindow.

Lemma push_undo_shapes : shapes (push_undo st) = shapes st.
Proof. unfold push_undo. destruct (_ <? _)%Z; reflexivity. Qed.

Lemma push_undo_settings : settings (push_undo st) = settings st.
Proof. unfold push_undo. destruct (_ <? _)%Z; reflexivity. Qed.

Lemma push_undo_temp_points : temp_points (push_undo st) = temp_points st.
Proof. unfold push_undo. destruct (_ <? _)%Z; reflexivity. Qed.

Lemma push_undo_current_tool : current_tool (push_undo st) = current_tool st.
Proof. unfold push_undo. destruct (_ <? _)%Z; reflexivity. Qed.

Lemma push_undo_drawing : drawing (push_undo st) = drawing st.
Proof. unfold push_undo. destruct (_ <? _)%Z; reflexivity. Qed.

Lemma push_undo_modified : modified (push_undo st) = modified st.
Proof. unfold push_undo. destruct (_ <? _)%Z; reflexivity. Qed.

Lemma push_undo_stack :
  undo_stack (push_undo st) =
  if (max_undo_levels (settings st)
      <? Z.of_nat (List.length (undo_stack st ++ [shapes st])))%Z
  then tl (undo_stack st ++ [shapes st])
  else undo_stack st ++ [shapes st].
Proof. unfold push_undo. destruct (_ <? _)%Z; reflexivity. Qed.

Lemma add_shape_undo_stack : undo_stack (add_shape st) = undo_stack st.
Proof.
  unfold add_shape.
  destruct (hd _ _) as [x1 y1], (last _ _) as [x2 y2].
  repeat match goal with |- context [if ?b then _ else _] => destruct b end;
    reflexivity.
Qed.

Lemma add_shape_settings : settings (add_shape st) = settings st.
Proof.
  unfold add_shape.
  destruct (hd _ _) as [x1 y1], (last _ _) as [x2 y2].
  repeat match goal with |- context [if ?b then _ else _] => destruct b end;
    reflexivity.
Qed.

Lemma add_shape_drawing : drawing (add_shape st) = drawing st.
Proof.
unfold add_shape.
destruct (hd _ _) as [x1 y1], (last _ _) as [x2 y2].
repeat match goal with |- context [if ?b then _ else _] => destruct b end;
  reflexivity.
Qed.

Lemma add_shape_modified : modified (add_shape st) = modified st.
Proof.
  unfold add_shape.
  destruct (hd _ _) as [x1 y1], (last _ _) as [x2 y2].
  repeat match goal with |- context [if ?b then _ else _] => destruct b end;
    reflexivity.
Qed.

(** The shape list after [add_shape]: one shape more when the tool's test
    passes, the same list otherwise. *)
Lemma add_shape_shapes :
  (release_accepts st = true /\
   exists shp, shapes (add_shape st) = shapes st ++ [shp])
  \/ (release_accepts st = false /\ shapes (add_shape st) = shapes st).
Proof.
  unfold add_shape, release_accepts.
  destruct (hd _ _) as [x1 y1], (last _ _) as [x2 y2].
  destruct (current_tool st =? TOOL_PEN)%string;
    destruct (current_tool st =? TOOL_RECT)%string;
    destruct (current_tool st =? TOOL_ARROW)%string;
    destruct (2 <=? List.length (temp_points st))%nat; cbn;
    solve [ left; split; [reflexivity | eexists; reflexivity]
          | right; split; reflexivity ].
Qed.

End FieldLemmas.

(** A draft that fails the test leaves the window as it is. *)
Lemma add_shape_rejected (st : EditorWindow) :
  release_accepts st = false -> add_shape st = st.
Proof.
  unfold release_accepts, add_shape. intros H.
  destruct (hd _ _) as [x1 y1], (last _ _) as [x2 y2].
  destruct (current_tool st =? TOOL_PEN)%string,
           (current_tool st =? TOOL_RECT)%string,
           (current_tool st =? TOOL_ARROW)%string,
           (2 <=? List.length (temp_points st))%nat;
    cbn in H |- *; try discriminate; reflexivity.
Qed.

(** After a push the stack is never longer than before plus one, and within
    the limit when it was within the limit. *)
Lemma push_undo_bounded (st : EditorWindow) :
  history_bounded st -> history_bounded (push_undo st).
Proof.
  unfold history_bounded, history_len. intros Hb.
  rewrite push_undo_settings, push_undo_stack.
  destruct (Z.ltb_spec (max_undo_levels (settings st))
              (Z.of_nat (List.length (undo_stack st ++ [shapes st]))))
    as [Hlt|Hge].
  - rewrite length_app in Hlt. cbn [List.length] in Hlt.
    destruct (undo_stack st) as [|h t]; cbn [tl app List.length] in *.
    + lia.
    + rewrite length_app. cbn [List.length]. lia.
  - exact Hge.
Qed.

(** With room for at least one level the newest snapshot is on top. *)
Lemma push_undo_top (st : EditorWindow) :
  (0 < max_undo_levels (settings st))%Z ->
  exists below, undo_stack (push_undo st) = below ++ [shapes st].
Proof.
  intros Hpos. rewrite push_undo_stack.
  destruct (Z.ltb_spec (max_undo_levels (settings st))
              (Z.of_nat (List.length (undo_stack st ++ [shapes st]))))
    as [Hlt|Hge].
  - destruct (undo_stack st) as [|h t]; cbn [tl app].
    + cbn in Hlt. lia.
    + exists t. reflexivity.
  - exists (undo_stack st). reflexivity.
Qed.

(** [undo] on a stack whose top is [s]. *)
Lemma undo_top (st : EditorWindow) (below : list (list Shape))
      (s : list Shape) :
  undo_stack st = below ++ [s] ->
  shapes (undo st) = s /\ undo_stack (undo st) = below.
Proof.
  intros Hs. unfold undo. rewrite Hs.
  destruct (below ++ [s]) eqn:E.
  - destruct below; discriminate.
  - rewrite <- E. cbn. rewrite last_last, removelast_last. split; reflexivity.
Qed.

(** What one handled release does to a dragging window. *)
Lemma on_button_release_dragging (st : EditorWindow) :
  drawing st = true -> temp_points st <> [] ->
  on_button_release 1 st =
  Returned true
    (set_modified true
       (set_temp_points [] (add_shape (push_undo (set_drawing false st))))).
Proof.
  intros Hd Hp. unfold on_button_release. rewrite Hd. cbn.
  destruct (temp_points st) eqn:E; [contradiction|reflexivity].
Qed.

Lemma release_accepts_push_undo (st : EditorWindow) :
  release_accepts (push_undo (set_drawing false st)) = release_accepts st.
Proof.
  unfold release_accepts.
  rewrite push_undo_current_tool, push_undo_temp_points. reflexivity.
Qed.

(** ** C1: a rejected release and the history *)

(** C1 (the code departs from the claim). The claim: a gesture whose geometry
    fails the minimum policy leaves both [shapes] and [undo_stack] at their
    length. The code, on the pen tool with the default settings, at
    pointer-down (10,10) followed at once by pointer-up: no shape is appended,
    and the undo stack grows from 0 to 1 entries, because [on_button_release]
    pushes the snapshot before it tests the draft. *)
Theorem C1_rejected_release_grows_history :
  let st0 := set_tool TOOL_PEN (init default_settings) in
  let st1 := run (gesture (10, 10) []) st0 in
  shapes st1 = shapes st0
  /\ List.length (undo_stack st0) = 0%nat
  /\ List.length (undo_stack st1) = 1%nat
  /\ undo_stack st1 = [shapes st0].
Proof.
  cbn. repeat split; reflexivity.
Qed.

(** The same on any window: a handled release whose draft is rejected
    leaves the shapes alone and still pushes the snapshot (one entry more
    while the stack is below the limit). *)
Lemma rejected_release_pushes_snapshot (st : EditorWindow) :
  drawing st = true -> temp_points st <> [] -> release_accepts st = false ->
  (history_len st < max_undo_levels (settings st))%Z ->
  let st' := state_of (on_button_release 1 st) in
  shapes st' = shapes st /\ undo_stack st' = undo_stack st ++ [shapes st].
Proof.
  intros Hd Hne Hrej Hroom st'. subst st'.
  rewrite on_button_release_dragging by assumption.
  cbn [state_of shapes undo_stack set_modified set_temp_points].
  rewrite add_shape_rejected by (rewrite release_accepts_push_undo; exact Hrej).
  rewrite push_undo_shapes, push_undo_stack.
  cbn [shapes undo_stack settings set_drawing].
  split; [reflexivity|].
  unfold history_len in Hroom.
  destruct (Z.ltb_spec (max_undo_levels (settings st))
              (Z.of_nat (List.length (undo_stack st ++ [shapes st]))))
    as [Hlt|Hge]; [|reflexivity].
  rewrite length_app in Hlt. cbn [List.length] in Hlt. lia.
Qed.

(** ** C2: undo inverts the last accepted commit *)

Lemma create_text_at_accepted (w : World) (x y : R) (st : EditorWindow) :
  text_dialog_ok w = true -> str_truthy (strip (entry_text w)) = true ->
  create_text_at w x y st =
  set_modified true
    (set_shapes
       (shapes (push_undo st) ++
        [TextLabel x y (strip (entry_text w))
                   (default_text_size (settings (push_undo st)))
                   (get_default_color (settings (push_undo st)))])
       (push_undo st)).
Proof.
  intros Hok Ht. unfold create_text_at. rewrite Hok, Ht. reflexivity.
Qed.

Lemma create_text_at_rejected (w : World) (x y : R) (st : EditorWindow) :
  text_dialog_ok w = false \/ str_truthy (strip (entry_text w)) = false ->
  create_text_at w x y st = st.
Proof.
  unfold create_text_at.
  intros [H|H]; rewrite H; [|destruct (text_dialog_ok w)]; reflexivity.
Qed.



(** ** C3: the undo history is bounded *)

Lemma undo_bounded (st : EditorWindow) :
  history_bounded st -> history_bounded (undo st).
Proof.
  unfold history_bounded, history_len, undo. intros Hb.
  destruct (undo_stack st) as [|h t] eqn:E; [rewrite E; exact Hb|].
  cbn [undo_stack settings set_modified set_undo_stack set_shapes].
  assert (Hl : (List.length (removelast (h :: t)) <= List.length (h :: t))%nat).
  { destruct (exists_last (l := h :: t)) as [l' [a Ha]]; [discriminate|].
    rewrite Ha, removelast_last, length_app. cbn. lia. }
  lia.
Qed.

Lemma set_tool_bounded (t : string) (st : EditorWindow) :
  history_bounded st -> history_bounded (set_tool t st).
Proof.
  unfold history_bounded, history_len, set_tool. intros Hb.
  break_if; exact Hb.
Qed.

Lemma save_succeeded_bounded (st : EditorWindow) :
  history_bounded st -> history_bounded (save_succeeded st).
Proof.
  unfold history_bounded, history_len, save_succeeded. intros Hb.
  break_if; exact Hb.
Qed.

Lemma save_dialog_bounded (w : World) (st : EditorWindow) :
  history_bounded st -> history_bounded (save_dialog w st).
Proof.
  unfold save_dialog. intros Hb.
  repeat break_if; auto using save_succeeded_bounded.
Qed.

Lemma quick_save_bounded (w : World) (st : EditorWindow) :
  history_bounded st -> history_bounded (quick_save w st).
Proof.
  unfold quick_save. intros Hb.
  repeat break_if; auto using save_succeeded_bounded, save_dialog_bounded.
Qed.

Lemma close_bounded (w : World) (st : EditorWindow) :
  history_bounded st -> history_bounded (close w st).
Proof.
  unfold close, on_close. intros Hb.
  repeat break_if;
    first [ exact Hb
          | apply (quick_save_bounded w st Hb)
          | apply (save_dialog_bounded w st Hb) ].
Qed.

Lemma create_text_at_bounded (w : World) (x y : R) (st : EditorWindow) :
  history_bounded st -> history_bounded (create_text_at w x y st).
Proof.
  unfold create_text_at. intros Hb.
  repeat break_if; try exact Hb.
  apply (push_undo_bounded st Hb).
Qed.

Lemma add_shape_bounded (st : EditorWindow) :
  history_bounded st -> history_bounded (add_shape st).
Proof.
  unfold history_bounded, history_len.
  rewrite add_shape_undo_stack, add_shape_settings. auto.
Qed.

Create HintDb history.

#[local] Hint Resolve undo_bounded set_tool_bounded save_dialog_bounded
  quick_save_bounded close_bounded create_text_at_bounded
  push_undo_bounded add_shape_bounded : history.

(** Every callback keeps the stack within the limit. *)
Lemma dispatch_bounded (w : World) (ev : Event) (st : EditorWindow) :
  history_bounded st -> history_bounded (state_of (dispatch w ev st)).
Proof.
  intros Hb. destruct ev; cbn [dispatch state_of]; auto with history.
  - unfold on_button_press. repeat break_if; cbn [state_of]; try exact Hb.
    apply (create_text_at_bounded w x y
             (set_temp_points [(x, y)] (set_drawing true st)) Hb).
  - unfold on_motion. repeat break_if; cbn [state_of]; try exact Hb.
    destruct (list_assign _ _ _); exact Hb.
  - unfold on_button_release. break_if; cbn [state_of]; [exact Hb|].
    destruct (temp_points (set_drawing false st)) eqn:E; cbn [state_of];
      [exact Hb|].
    apply (add_shape_bounded (push_undo (set_drawing false st))).
    apply (push_undo_bounded (set_drawing false st) Hb).
  - unfold on_key. cbn [state_of]. unfold copy_to_clipboard, upload.
    repeat break_if; auto with history.
Qed.

Lemma run_bounded (evs : list (World * Event)) (st : EditorWindow) :
  history_bounded st -> history_bounded (run evs st).
Proof.
  revert st. induction evs as [|[w ev] evs IH]; intros st Hb; cbn.
  - exact Hb.
  - apply IH. apply dispatch_bounded. exact Hb.
Qed.

(** *** Pointer-moves during a drag *)

Lemma run_app (evs1 evs2 : list (World * Event)) (st : EditorWindow) :
  run (evs1 ++ evs2) st = run evs2 (run evs1 st).
Proof. unfold run. apply fold_left_app. Qed.

Lemma set_temp_points_same (st : EditorWindow) :
  set_temp_points (temp_points st) st = st.
Proof. destruct st; reflexivity. Qed.

(** With the pen every pointer-move is appended to the draft. *)
Lemma run_moves_pen (moves : list Point) (st : EditorWindow) :
  drawing st = true -> current_tool st = TOOL_PEN ->
  run (moves_events moves) st = set_temp_points (temp_points st ++ moves) st.
Proof.
  revert st. induction moves as [|[x y] moves IH]; intros st Hd Ht.
  - cbn. rewrite app_nil_r. symmetry. apply set_temp_points_same.
  - cbn [moves_events map run fold_left].
    change (fold_left step (map _ moves) ?s) with (run (moves_events moves) s).
    unfold step at 1. cbn [fst snd dispatch]. unfold on_motion.
    rewrite Hd, Ht. cbn [negb state_of String.eqb].
    change ((TOOL_PEN =? TOOL_PEN)%string) with true. cbn iota.
    rewrite IH by assumption. cbn. rewrite <- app_assoc. reflexivity.
Qed.

(** With any other tool the draft keeps the pressed point and the latest
    pointer position. *)
Lemma run_moves_other (moves : list Point) (st : EditorWindow) (p : Point) :
  drawing st = true -> (current_tool st =? TOOL_PEN)%string = false ->
  (temp_points st = [p] \/ exists q, temp_points st = [p; q]) ->
  moves <> [] ->
  run (moves_events moves) st = set_temp_points [p; last moves p] st.
Proof.
  revert st. induction moves as [|[x y] moves IH]; intros st Hd Ht Hp Hne;
    [contradiction|].
  cbn [moves_events map run fold_left].
  change (fold_left step (map _ moves) ?s) with (run (moves_events moves) s).
  assert (Hstep : step st (quiet, MotionNotify x y)
                  = set_temp_points [p; (x, y)] st).
  { unfold step. cbn [fst snd dispatch]. unfold on_motion.
    rewrite Hd, Ht. cbn [negb].
    destruct Hp as [Hp|[q Hp]]; rewrite Hp; reflexivity. }
  cbn [fst snd] in Hstep |- *. rewrite Hstep.
  destruct moves as [|m moves'].
  - reflexivity.
  - rewrite (IH (set_temp_points [p; (x, y)] st)); try assumption;
      try discriminate.
    + reflexivity.
    + right. exists (x, y). reflexivity.
Qed.

(** A gesture is a press, the moves, and a release. *)
Lemma run_gesture (p : Point) (moves : list Point) (st : EditorWindow) :
  run (gesture p moves) st =
  state_of (on_button_release 1
              (run (moves_events moves)
                   (state_of (on_button_press quiet 1 (fst p) (snd p) st)))).
Proof.
  unfold gesture. change (?a :: ?l ++ ?r) with ([a] ++ l ++ r).
  rewrite !run_app. reflexivity.
Qed.

Lemma on_button_press_drawing_tool (w : World) (x y : R) (st : EditorWindow) :
  (current_tool st =? TOOL_TEXT)%string = false ->
  on_button_press w 1 x y st =
  Returned true (set_temp_points [(x, y)] (set_drawing true st)).
Proof.
  intros Ht. unfold on_button_press. cbn. rewrite Ht. reflexivity.
Qed.

Lemma run_drag (p : Point) (moves : list Point) (st : EditorWindow) :
  (current_tool st =? TOOL_TEXT)%string = false ->
  run (moves_events moves)
      (state_of (on_button_press quiet 1 (fst p) (snd p) st))
  = set_temp_points (tracked (current_tool st) p moves) (set_drawing true st).
Proof.
  intros Ht. rewrite on_button_press_drawing_tool by assumption.
  cbn [state_of]. unfold tracked.
  destruct (current_tool st =? TOOL_PEN)%string eqn:Hpen.
  - rewrite run_moves_pen; cbn; try reflexivity.
    + destruct p; reflexivity.
    + apply String.eqb_eq. exact Hpen.
  - destruct moves as [|m moves'].
    + destruct p; reflexivity.
    + rewrite (run_moves_other _ _ p); try reflexivity; try discriminate.
      * exact Hpen.
      * left. destruct p; reflexivity.
Qed.

(** *** Counting pushes *)

Lemma push_undo_len (st : EditorWindow) :
  (0 <= max_undo_levels (settings st))%Z -> history_bounded st ->
  history_len (push_undo st)
  = Z.min (history_len st + 1) (max_undo_levels (settings st)).
Proof.
  unfold history_bounded, history_len. intros Hmax Hb.
  rewrite push_undo_stack, length_app. cbn [List.length].
  destruct (Z.ltb_spec (max_undo_levels (settings st))
              (Z.of_nat (List.length (undo_stack st) + 1))) as [Hlt|Hge].
  - destruct (undo_stack st) as [|h t]; cbn [tl app List.length] in *.
    + lia.
    + rewrite length_app. cbn [List.length]. lia.
  - rewrite length_app. cbn [List.length]. lia.
Qed.

(** On a full stack the push drops the bottom entry and keeps the new one. *)
Lemma push_undo_evicts (st : EditorWindow) :
  (0 < max_undo_levels (settings st))%Z ->
  history_len st = max_undo_levels (settings st) ->
  exists oldest rest,
    undo_stack st = oldest :: rest
    /\ undo_stack (push_undo st) = rest ++ [shapes st].
Proof.
  unfold history_len. intros Hmax Hfull.
  rewrite push_undo_stack, length_app. cbn [List.length].
  destruct (undo_stack st) as [|h t] eqn:E; cbn [List.length] in Hfull; [lia|].
  exists h, t. split; [reflexivity|].
  destruct (Z.ltb_spec (max_undo_levels (settings st))
              (Z.of_nat (List.length (h :: t) + 1))) as [Hlt|Hge].
  - reflexivity.
  - cbn [List.length] in Hge. lia.
Qed.

Lemma tracked_length (tool : string) (p : Point) (moves : list Point) :
  moves <> [] -> (2 <= List.length (tracked tool p moves))%nat.
Proof.
  intros Hne. unfold tracked. destruct moves; [contradiction|].
  destruct (tool =? TOOL_PEN)%string; cbn [List.length]; lia.
Qed.

Lemma drawing_tool_not_text (tool : string) :
  ((tool =? TOOL_PEN)%string || (tool =? TOOL_RECT)%string
   || (tool =? TOOL_ARROW)%string) = true ->
  (tool =? TOOL_TEXT)%string = false.
Proof.
  intros H. apply orb_true_iff in H as [H|H];
    [apply orb_true_iff in H as [H|H]|];
    apply String.eqb_eq in H; subst; reflexivity.
Qed.

Lemma set_tool_current (tool : string) (st : EditorWindow) :
  current_tool (set_tool tool st) = tool
  /\ shapes (set_tool tool st) = shapes st
  /\ undo_stack (set_tool tool st) = undo_stack st
  /\ temp_points (set_tool tool st) = temp_points st
  /\ drawing (set_tool tool st) = drawing st
  /\ modified (set_tool tool st) = modified st
  /\ max_undo_levels (settings (set_tool tool st))
     = max_undo_levels (settings st).
Proof. unfold set_tool. break_if; cbn; repeat split; reflexivity. Qed.

Lemma on_button_press_text_tool (w : World) (x y : R) (st : EditorWindow) :
  current_tool st = TOOL_TEXT ->
  on_button_press w 1 x y st =
  Returned true
    (set_drawing false
       (create_text_at w x y
          (set_temp_points [(x, y)] (set_drawing true st)))).
Proof.
  intros Ht. unfold on_button_press. cbn. rewrite Ht. reflexivity.
Qed.

(** The state a gesture with a drawing tool ends in. *)
Lemma run_gesture_drawing_tool (p : Point) (moves : list Point)
      (st : EditorWindow) :
  (current_tool st =? TOOL_TEXT)%string = false ->
  run (gesture p moves) st =
  set_modified true
    (set_temp_points []
       (add_shape
          (push_undo
             (set_drawing false
                (set_temp_points (tracked (current_tool st) p moves)
                                 (set_drawing true st)))))).
Proof.
  intros Ht. rewrite run_gesture, run_drag by assumption.
  rewrite on_button_release_dragging; try reflexivity.
  cbn [temp_points set_temp_points]. unfold tracked.
  destruct (current_tool st =? TOOL_PEN)%string; [discriminate|].
  destruct moves; discriminate.
Qed.

(** One accepted commit: one shape more, one push. *)
Lemma commit_effect (c : Commit) (st : EditorWindow) :
  commit_accepted c = true ->
  (0 <= max_undo_levels (settings st))%Z -> history_bounded st ->
  let st' := run (commit_events c) st in
  history_len st'
  = Z.min (history_len st + 1) (max_undo_levels (settings st))
  /\ max_undo_levels (settings st') = max_undo_levels (settings st)
  /\ List.length (shapes st') = S (List.length (shapes st)).
Proof.
  intros Hacc Hmax Hb st'. subst st'.
  destruct c as [tool p moves|x y text]; cbn [commit_accepted] in Hacc.
  - apply andb_true_iff in Hacc as [Htool Hmoves].
    assert (Hne : moves <> []) by (destruct moves; [discriminate|discriminate]).
    cbn [commit_events].
    change (?a :: gesture p moves) with ([a] ++ gesture p moves).
    rewrite run_app. cbn [run fold_left step fst snd dispatch state_of].
    destruct (set_tool_current tool st) as (Hc & Hs & Hu & _ & _ & _ & Hm).
    set (st1 := set_tool tool st) in *.
    rewrite run_gesture_drawing_tool
      by (rewrite Hc; apply drawing_tool_not_text, Htool).
    set (st2 := set_drawing false _).
    assert (Hb2 : history_bounded st2).
    { unfold history_bounded, history_len, st2. cbn. rewrite Hu, Hm. exact Hb. }
    assert (Hacc2 : release_accepts (push_undo st2) = true).
    { unfold release_accepts.
      rewrite push_undo_current_tool, push_undo_temp_points.
      unfold st2. cbn [current_tool temp_points set_drawing set_temp_points].
      rewrite Hc, Htool. cbn [andb].
      apply Nat.leb_le, tracked_length, Hne. }
    unfold history_len. cbn. rewrite add_shape_undo_stack, add_shape_settings.
    rewrite push_undo_settings.
    change (Z.of_nat (List.length (undo_stack (push_undo st2))))
      with (history_len (push_undo st2)).
    rewrite push_undo_len; [|unfold st2; cbn; lia|exact Hb2].
    unfold history_len, st2. cbn. rewrite Hu, Hm.
    repeat split; try reflexivity.
    destruct (add_shape_shapes (push_undo st2)) as [[_ [shp Hshp]]|[Hrej _]];
      [|congruence].
    fold st2. rewrite Hshp, length_app, push_undo_shapes. unfold st2. cbn.
    rewrite Hs. lia.
  - cbn [commit_events run fold_left step fst snd dispatch state_of].
    destruct (set_tool_current TOOL_TEXT st) as (Hc & Hs & Hu & _ & _ & _ & Hm).
    set (st1 := set_tool TOOL_TEXT st) in *.
    unfold step. cbn [fst snd dispatch].
    rewrite on_button_press_text_tool by exact Hc. cbn [state_of].
    rewrite create_text_at_accepted by (cbn; auto).
    set (st2 := set_temp_points _ _).
    assert (Hb2 : history_bounded st2).
    { unfold history_bounded, history_len, st2. cbn. rewrite Hu, Hm. exact Hb. }
    unfold history_len. cbn. rewrite push_undo_settings.
    change (Z.of_nat (List.length (undo_stack (push_undo st2))))
      with (history_len (push_undo st2)).
    rewrite push_undo_len; [|unfold st2; cbn; lia|exact Hb2].
    unfold history_len, st2. cbn. rewrite Hu, Hm.
    repeat split; try reflexivity.
    rewrite length_app, push_undo_shapes. cbn. rewrite Hs. lia.
Qed.

Lemma commits_effect (cs : list Commit) (st : EditorWindow) :
  forallb commit_accepted cs = true ->
  (0 <= max_undo_levels (settings st))%Z -> history_bounded st ->
  let st' := run (List.concat (map commit_events cs)) st in
  history_len st'
  = Z.min (history_len st + Z.of_nat (List.length cs))
          (max_undo_levels (settings st))
  /\ List.length (shapes st')
     = (List.length (shapes st) + List.length cs)%nat.
Proof.
  revert st. induction cs as [|c cs IH]; intros st Hacc Hmax Hb st'; subst st'.
  - cbn. unfold history_bounded in Hb. split; lia.
  - cbn [forallb] in Hacc. apply andb_true_iff in Hacc as [Hc Hcs].
    cbn [map List.concat]. rewrite run_app.
    destruct (commit_effect c st Hc Hmax Hb) as (Hlen & Hm & Hsh).
    set (st1 := run (commit_events c) st) in *.
    assert (Hb1 : history_bounded st1) by (apply run_bounded, Hb).
    assert (Hmax1 : (0 <= max_undo_levels (settings st1))%Z) by lia.
    destruct (IH st1 Hcs Hmax1 Hb1) as (Hlen' & Hsh').
    rewrite Hlen', Hsh', Hlen, Hm, Hsh. cbn [List.length].
    unfold history_bounded in Hb. split; lia.
Qed.



(** ** C4: rectangle normalisation *)

Lemma py_min_Rmin (a b : R) : py_min a b = Rmin a b.
Proof.
  unfold py_min, Rmin.
  destruct (Rlt_dec b a), (Rle_dec a b); lra.
Qed.

Lemma tracked_rect (p q : Point) (moves : list Point) :
  tracked TOOL_RECT p (moves ++ [q]) = [p; q].
Proof.
  unfold tracked. change ((TOOL_RECT =? TOOL_PEN)%string) with false.
  cbn iota. destruct (moves ++ [q]) eqn:E.
  - destruct moves; discriminate.
  - rewrite <- E, last_last. reflexivity.
Qed.

(** The shape list after a rectangle drag from [p] to [q]. *)
Lemma run_rect_gesture (st : EditorWindow) (p q : Point)
      (moves : list Point) :
  current_tool st = TOOL_RECT ->
  shapes (run (gesture p (moves ++ [q])) st)
  = shapes st ++
    [RectShape (Rmin (fst p) (fst q)) (Rmin (snd p) (snd q))
               (Rabs (fst q - fst p)) (Rabs (snd q - snd p))
               (default_rect_width (settings st))
               (get_default_color (settings st))].
Proof.
  intros Ht. rewrite run_gesture_drawing_tool by (rewrite Ht; reflexivity).
  rewrite Ht, tracked_rect.
  cbn [shapes set_modified set_temp_points].
  unfold add_shape.
  rewrite push_undo_current_tool, push_undo_temp_points, push_undo_shapes,
    push_undo_settings.
  cbn [current_tool temp_points shapes settings set_drawing set_temp_points].
  rewrite Ht. change ((TOOL_RECT =? TOOL_PEN)%string) with false.
  change ((TOOL_RECT =? TOOL_RECT)%string) with true.
  destruct p as [x1 y1], q as [x2 y2].
  cbn [andb List.length Nat.leb hd last fst snd shapes set_shapes].
  rewrite !py_min_Rmin. reflexivity.
Qed.

(** C4. A rectangle dragged from corner (x1,y1) to corner (x2,y2), whatever
    the pointer did in between, is committed as
    [{x: min(x1,x2), y: min(y1,y2), w: |x2-x1|, h: |y2-y1|}]: its width and
    height are never negative, the drag in the reverse direction commits the
    same rectangle, and the drag from (50,50) to (10,20) commits
    [{x:10, y:20, w:40, h:30}]. *)
Theorem C4_rectangle_normalised (st : EditorWindow) (x1 y1 x2 y2 : R)
        (moves : list Point) :
  current_tool st = TOOL_RECT ->
  let width := default_rect_width (settings st) in
  let color := get_default_color (settings st) in
  shapes (run (gesture (x1, y1) (moves ++ [(x2, y2)])) st)
  = shapes st ++
    [RectShape (Rmin x1 x2) (Rmin y1 y2) (Rabs (x2 - x1)) (Rabs (y2 - y1))
               width color]
  /\ 0 <= Rabs (x2 - x1)
  /\ 0 <= Rabs (y2 - y1)
  /\ shapes (run (gesture (x2, y2) (moves ++ [(x1, y1)])) st)
     = shapes (run (gesture (x1, y1) (moves ++ [(x2, y2)])) st)
  /\ shapes (run (gesture (50, 50) [(10, 20)]) st)
     = shapes st ++ [RectShape 10 20 40 30 width color]
  /\ shapes (run (gesture (10, 20) [(50, 50)]) st)
     = shapes st ++ [RectShape 10 20 40 30 width color].
Proof.
  intros Ht width color.
  repeat match goal with |- _ /\ _ => split end.
  - apply (run_rect_gesture st (x1, y1) (x2, y2) moves Ht).
  - apply Rabs_pos.
  - apply Rabs_pos.
  - rewrite !run_rect_gesture by exact Ht. cbn [fst snd].
    rewrite (Rmin_comm x2 x1), (Rmin_comm y2 y1).
    rewrite (Rabs_minus_sym x1 x2), (Rabs_minus_sym y1 y2). reflexivity.
  - pose proof (run_rect_gesture st (50, 50) (10, 20) [] Ht) as H.
    cbn [app fst snd] in H.
    replace (Rmin 50 10) with 10 in H
      by (unfold Rmin; destruct (Rle_dec 50 10); lra).
    replace (Rmin 50 20) with 20 in H
      by (unfold Rmin; destruct (Rle_dec 50 20); lra).
    replace (Rabs (10 - 50)) with 40 in H
      by (unfold Rabs; destruct (Rcase_abs (10 - 50)); lra).
    replace (Rabs (20 - 50)) with 30 in H
      by (unfold Rabs; destruct (Rcase_abs (20 - 50)); lra).
    exact H.
  - pose proof (run_rect_gesture st (10, 20) (50, 50) [] Ht) as H.
    cbn [app fst snd] in H.
    replace (Rmin 10 50) with 10 in H
      by (unfold Rmin; destruct (Rle_dec 10 50); lra).
    replace (Rmin 20 50) with 20 in H
      by (unfold Rmin; destruct (Rle_dec 20 50); lra).
    replace (Rabs (50 - 10)) with 40 in H
      by (unfold Rabs; destruct (Rcase_abs (50 - 10)); lra).
    replace (Rabs (50 - 20)) with 30 in H
      by (unfold Rabs; destruct (Rcase_abs (50 - 20)); lra).
    exact H.
Qed.

(** C4 at work on a new window with the rectangle tool selected. *)
Lemma C4_rectangle_normalised_witness :
  let st := set_tool TOOL_RECT (init default_settings) in
  current_tool st = TOOL_RECT
  /\ shapes (run (gesture (50, 50) [(10, 20)]) st)
     = [RectShape 10 20 40 30 3 (153, 51, 255, 242)%Z]
  /\ shapes (run (gesture (10, 20) [(50, 50)]) st)
     = [RectShape 10 20 40 30 3 (153, 51, 255, 242)%Z].
Proof.
  intros st.
  assert (Ht : current_tool st = TOOL_RECT) by reflexivity.
  destruct (C4_rectangle_normalised st 0 0 1 1 [] Ht)
    as (_ & _ & _ & _ & Hfwd & Hback).
  split; [exact Ht|split]; [exact Hfwd|exact Hback].
Defined.

(** ** C6: which drafts a release commits *)

Lemma py_min_same (a : R) : py_min a a = a.
Proof. unfold py_min. destruct (Rlt_dec a a); reflexivity. Qed.

Lemma py_abs_zero (a : R) : py_abs (a - a) = 0.
Proof. unfold py_abs. replace (a - a) with 0 by lra. apply Rabs_R0. Qed.

(** C6, the claim as stated fails: with the rectangle tool, pointer-down at
    (100,100), a move to (140,130), a move back to (100,100) and pointer-up
    commit a rectangle of width and height 0, although the two tracked points
    are the same point. *)
Lemma C6_zero_size_rectangle_committed :
  let st := run [(quiet, ButtonPress 1 100 100);
                 (quiet, MotionNotify 140 130);
                 (quiet, MotionNotify 100 100)]
                (set_tool TOOL_RECT (init default_settings)) in
  let st' := state_of (on_button_release 1 st) in
  drawing st = true
  /\ temp_points st = [(100, 100); (100, 100)]
  /\ shapes st' = shapes st ++ [RectShape 100 100 0 0 3 (153, 51, 255, 242)%Z]
  /\ ~ spec_minimum_policy (current_tool st) (temp_points st).
Proof.
  cbn. repeat split.
  - rewrite py_min_same, py_abs_zero. reflexivity.
  - unfold spec_minimum_policy. cbn.
    intros [[Hpen _]|[_ [_ Hne]]]; [discriminate|]. apply Hne. reflexivity.
Qed.

(** The committed shapes after a handled release, with or without a
    draft. *)
Lemma on_button_release_shapes (st : EditorWindow) :
  drawing st = true ->
  shapes (state_of (on_button_release 1 st))
  = shapes (add_shape (push_undo (set_drawing false st))).
Proof.
  intros Hd. unfold on_button_release. rewrite Hd. cbn [negb orb Z.eqb Pos.eqb].
  destruct (temp_points (set_drawing false st)) eqn:E; cbn [state_of].
  - rewrite add_shape_rejected.
    + rewrite push_undo_shapes. reflexivity.
    + unfold release_accepts. rewrite push_undo_temp_points, E.
      apply andb_false_r.
  - reflexivity.
Qed.

(** C6 as the code has it. A handled release appends the draft to the
    committed shapes if and only if the tool is the pen, the rectangle or the
    arrow and the draft holds at least two tracked points, that is, at least
    one pointer-move arrived during the drag; the two points of a rectangle or
    an arrow need not differ. A pen draft is committed as the stroke of its
    points, a rectangle or arrow draft from its first and last point. A
    gesture without movement, with any drawing tool, and so a rectangle
    gesture (100,100) to (100,100) and a single-point stroke, leaves the
    committed shapes as they were, without an error. *)
Theorem C6_commit_policy (st : EditorWindow) :
  drawing st = true ->
  let st' := state_of (on_button_release 1 st) in
  let pts := temp_points st in
  let color := get_default_color (settings st) in
  (release_accepts st = true <-> exists shp, shapes st' = shapes st ++ [shp])
  /\ (release_accepts st = false <-> shapes st' = shapes st)
  /\ (release_accepts st = true -> current_tool st = TOOL_PEN ->
      shapes st' = shapes st ++
                   [PenStroke pts (default_pen_width (settings st)) color])
  /\ (release_accepts st = true -> current_tool st = TOOL_RECT ->
      shapes st' = shapes st ++
        [RectShape (Rmin (fst (hd (0, 0) pts)) (fst (last pts (0, 0))))
                   (Rmin (snd (hd (0, 0) pts)) (snd (last pts (0, 0))))
                   (Rabs (fst (last pts (0, 0)) - fst (hd (0, 0) pts)))
                   (Rabs (snd (last pts (0, 0)) - snd (hd (0, 0) pts)))
                   (default_rect_width (settings st)) color])
  /\ (release_accepts st = true -> current_tool st = TOOL_ARROW ->
      shapes st' = shapes st ++
        [ArrowShape (fst (hd (0, 0) pts)) (snd (hd (0, 0) pts))
                    (fst (last pts (0, 0))) (snd (last pts (0, 0)))
                    (default_arrow_width (settings st)) color])
  /\ (forall st0 p,
        (current_tool st0 =? TOOL_TEXT)%string = false ->
        shapes (run (gesture p []) st0) = shapes st0)
  /\ (forall st0 p moves,
        ((current_tool st0 =? TOOL_PEN)%string
         || (current_tool st0 =? TOOL_RECT)%string
         || (current_tool st0 =? TOOL_ARROW)%string) = true ->
        moves <> [] ->
        exists shp, shapes (run (gesture p moves) st0) = shapes st0 ++ [shp]).
Proof.
  intros Hd st' pts color. subst st'.
  rewrite (on_button_release_shapes st Hd).
  set (st1 := push_undo (set_drawing false st)).
  assert (Hacc1 : release_accepts st1 = release_accepts st)
    by apply release_accepts_push_undo.
  assert (Hs1 : shapes st1 = shapes st)
    by exact (push_undo_shapes (set_drawing false st)).
  assert (Ht1 : current_tool st1 = current_tool st)
    by exact (push_undo_current_tool (set_drawing false st)).
  assert (Hp1 : temp_points st1 = temp_points st)
    by exact (push_undo_temp_points (set_drawing false st)).
  assert (Hset1 : settings st1 = settings st)
    by exact (push_undo_settings (set_drawing false st)).
  assert (Hgrow : forall (l : list Shape) shp, l ++ [shp] <> l).
  { intros l shp H. apply (f_equal (@List.length Shape)) in H.
    rewrite length_app in H. cbn in H. lia. }
  repeat match goal with |- _ /\ _ => split end.
  - split.
    + intros Hacc. rewrite <- Hacc1 in Hacc.
      destruct (add_shape_shapes st1) as [[_ [shp Hshp]]|[Hrej _]];
        [|congruence].
      exists shp. rewrite Hshp, Hs1. reflexivity.
    + intros [shp Hshp].
      destruct (release_accepts st) eqn:Hacc; [reflexivity|].
      rewrite add_shape_rejected in Hshp by congruence.
      rewrite Hs1 in Hshp. symmetry in Hshp. destruct (Hgrow _ _ Hshp).
  - split.
    + intros Hrej. rewrite add_shape_rejected by congruence. exact Hs1.
    + intros Hsame. destruct (release_accepts st) eqn:Hacc; [|reflexivity].
      destruct (add_shape_shapes st1) as [[_ [shp Hshp]]|[Hrej _]];
        [|congruence].
      rewrite Hshp, Hs1 in Hsame. destruct (Hgrow _ _ Hsame).
  - intros Hacc Htool. unfold release_accepts in Hacc.
    apply andb_true_iff in Hacc as [_ Hlen].
    unfold add_shape. rewrite Ht1, Hp1, Hs1, Hset1, Htool, Hlen.
    reflexivity.
  - intros Hacc Htool. unfold release_accepts in Hacc.
    apply andb_true_iff in Hacc as [_ Hlen].
    unfold add_shape. rewrite Ht1, Hp1, Hs1, Hset1, Htool, Hlen.
    fold pts. destruct (hd (0, 0) pts), (last pts (0, 0)).
    cbn. rewrite !py_min_Rmin. reflexivity.
  - intros Hacc Htool. unfold release_accepts in Hacc.
    apply andb_true_iff in Hacc as [_ Hlen].
    unfold add_shape. rewrite Ht1, Hp1, Hs1, Hset1, Htool, Hlen.
    fold pts. destruct (hd (0, 0) pts), (last pts (0, 0)).
    reflexivity.
  - intros st0 p Htext. rewrite run_gesture_drawing_tool by exact Htext.
    cbn [shapes set_modified set_temp_points].
    rewrite add_shape_rejected.
    + rewrite push_undo_shapes. reflexivity.
    + unfold release_accepts.
      rewrite push_undo_temp_points.
      cbn [temp_points set_drawing set_temp_points].
      unfold tracked. destruct (current_tool st0 =? TOOL_PEN)%string;
        cbn [List.length Nat.leb]; apply andb_false_r.
  - intros st0 p moves Htool Hmoves.
    rewrite run_gesture_drawing_tool by (apply drawing_tool_not_text, Htool).
    cbn [shapes set_modified set_temp_points].
    set (st2 := set_drawing false _).
    destruct (add_shape_shapes (push_undo st2)) as [[_ [shp Hshp]]|[Hrej _]].
    + exists shp. rewrite Hshp, push_undo_shapes. reflexivity.
    + unfold release_accepts in Hrej.
      rewrite push_undo_current_tool, push_undo_temp_points in Hrej.
      unfold st2 in Hrej.
      cbn [current_tool temp_points set_drawing set_temp_points] in Hrej.
      rewrite Htool in Hrej. cbn [andb] in Hrej.
      apply Nat.leb_gt in Hrej.
      pose proof (tracked_length (current_tool st0) p moves Hmoves). lia.
Qed.

(** C6 at work: an arrow dragged from (0,0) to (30,40) is committed; a
    rectangle gesture at (100,100) without movement and a single-point pen
    gesture are not. *)
Lemma C6_commit_policy_witness :
  let st := run [(quiet, ButtonPress 1 0 0); (quiet, MotionNotify 30 40)]
                (set_tool TOOL_ARROW (init default_settings)) in
  let rect := set_tool TOOL_RECT (init default_settings) in
  let pen := set_tool TOOL_PEN (init default_settings) in
  drawing st = true
  /\ release_accepts st = true
  /\ shapes (state_of (on_button_release 1 st))
     = [ArrowShape 0 0 30 40 3 (153, 51, 255, 242)%Z]
  /\ shapes (run (gesture (100, 100) []) rect) = []
  /\ shapes (run (gesture (7, 7) []) pen) = [].
Proof.
  intros st rect pen.
  assert (Hd : drawing st = true) by reflexivity.
  destruct (C6_commit_policy st Hd)
    as (_ & _ & _ & _ & Harrow & Hnone & _).
  repeat match goal with |- _ /\ _ => split end.
  - exact Hd.
  - reflexivity.
  - apply Harrow; reflexivity.
  - apply (Hnone rect (100, 100)). reflexivity.
  - apply (Hnone pen (7, 7)). reflexivity.
Defined.

(** ** C8: committing a text label *)

Lemma str_truthy_false (s : string) : str_truthy s = false <-> s = EmptyString.
Proof. destruct s; cbn; split; intros H; try reflexivity; discriminate. Qed.

Lemma str_truthy_true (s : string) : str_truthy s = true <-> s <> EmptyString.
Proof.
  destruct s; cbn; split; intros H; try reflexivity; try discriminate.
  - contradiction.
Qed.

(** C8. A text whose content is empty once the surrounding whitespace is
    stripped commits nothing: [create_text_at] returns the window as it was
    (shapes, history and [modified] included) and nothing is shown to the
    user; the press that opened the dialog leaves these three fields alone
    too. A confirmed text with other content pushes one snapshot of the
    shapes onto the history (dropping the bottom one beyond the limit),
    appends exactly one [TextLabel] with the stripped text at the pressed
    point, and sets [modified]. *)
Theorem C8_text_commit (w : World) (x y : R) (st : EditorWindow) :
  let text := strip (entry_text w) in
  let st' := create_text_at w x y st in
  (text = EmptyString -> st' = st)
  /\ (text = EmptyString -> current_tool st = TOOL_TEXT ->
      let st'' := state_of (on_button_press w 1 x y st) in
      shapes st'' = shapes st /\ undo_stack st'' = undo_stack st
      /\ modified st'' = modified st)
  /\ (text_dialog_ok w = true -> text <> EmptyString ->
      shapes st' = shapes st ++
                   [TextLabel x y text (default_text_size (settings st))
                              (get_default_color (settings st))]
      /\ undo_stack st'
         = (if (max_undo_levels (settings st)
                <? Z.of_nat (List.length (undo_stack st ++ [shapes st])))%Z
            then tl (undo_stack st ++ [shapes st])
            else undo_stack st ++ [shapes st])
      /\ (history_len st < max_undo_levels (settings st) ->
          undo_stack st' = undo_stack st ++ [shapes st])%Z
      /\ modified st' = true).
Proof.
  intros text st'. subst st'.
  split; [|split].
  - intros He. apply create_text_at_rejected. right.
    apply str_truthy_false. exact He.
  - intros He Ht st''. subst st''.
    rewrite on_button_press_text_tool by exact Ht. cbn [state_of].
    rewrite create_text_at_rejected
      by (right; apply str_truthy_false; exact He).
    repeat split; reflexivity.
  - intros Hok Hne.
    rewrite create_text_at_accepted
      by (try exact Hok; apply str_truthy_true; exact Hne).
    cbn [shapes undo_stack modified set_modified set_shapes].
    rewrite push_undo_shapes, push_undo_settings, push_undo_stack.
    repeat split.
    intros Hroom. unfold history_len in Hroom.
    destruct (Z.ltb_spec (max_undo_levels (settings st))
                (Z.of_nat (List.length (undo_stack st ++ [shapes st]))))
      as [Hlt|Hge]; [|reflexivity].
    rewrite length_app in Hlt. cbn [List.length] in Hlt. lia.
Qed.

(** C8 at work on a window that holds one arrow: blanks commit nothing,
    [" hi "] commits the label ["hi"]. *)
Lemma C8_text_commit_witness :
  let st := run (gesture (0, 0) [(30, 40)])
                (set_tool TOOL_ARROW (init default_settings)) in
  strip "  " = EmptyString
  /\ create_text_at (typing "  ") 5 6 st = st
  /\ strip " hi " <> EmptyString
  /\ shapes (create_text_at (typing " hi ") 5 6 st)
     = shapes st ++ [TextLabel 5 6 "hi" 16 (153, 51, 255, 242)%Z]
  /\ undo_stack (create_text_at (typing " hi ") 5 6 st)
     = undo_stack st ++ [shapes st]
  /\ modified (create_text_at (typing " hi ") 5 6 st) = true.
Proof.
  intros st.
  assert (He : strip "  " = EmptyString) by reflexivity.
  assert (Hne : strip " hi " <> EmptyString) by (cbn; discriminate).
  destruct (C8_text_commit (typing "  ") 5 6 st) as (Hblank & _ & _).
  destruct (C8_text_commit (typing " hi ") 5 6 st) as (_ & _ & Hhi).
  destruct (Hhi eq_refl Hne) as (Hs & _ & Hu & Hm).
  repeat match goal with |- _ /\ _ => split end.
  - exact He.
  - apply Hblank. exact He.
  - exact Hne.
  - exact Hs.
  - apply Hu. cbn. lia.
  - exact Hm.
Defined.

(** ** C9: keys during a drag *)

Lemma same_canvas_refl (st : EditorWindow) : same_canvas st st.
Proof. repeat split. Qed.

Lemma set_tool_same_canvas (t : string) (st : EditorWindow) :
  same_canvas st (set_tool t st).
Proof. unfold set_tool. break_if; repeat split. Qed.

Lemma save_succeeded_same_canvas (st : EditorWindow) :
  same_canvas st (save_succeeded st).
Proof. unfold save_succeeded. break_if; repeat split. Qed.

Lemma save_dialog_same_canvas (w : World) (st : EditorWindow) :
  same_canvas st (save_dialog w st).
Proof.
  unfold save_dialog.
  repeat break_if; auto using same_canvas_refl, save_succeeded_same_canvas.
Qed.

Lemma quick_save_same_canvas (w : World) (st : EditorWindow) :
  same_canvas st (quick_save w st).
Proof.
  unfold quick_save.
  repeat break_if;
    auto using same_canvas_refl, save_succeeded_same_canvas,
      save_dialog_same_canvas.
Qed.

Lemma on_close_same_canvas (w : World) (st : EditorWindow) :
  same_canvas st (on_close w st).
Proof.
  unfold on_close.
  repeat break_if;
    first [ apply (quick_save_same_canvas w st)
          | apply (save_dialog_same_canvas w st)
          | apply same_canvas_refl ].
Qed.

Lemma close_same_canvas (w : World) (st : EditorWindow) :
  same_canvas st (close w st).
Proof.
  unfold close.
  destruct (on_close_same_canvas w st) as (Hp & Hd & Hs & Hu).
  repeat split; cbn; assumption.
Qed.

(** [undo] leaves the draft and the gesture state alone. *)
Lemma undo_keeps_draft (st : EditorWindow) :
  temp_points (undo st) = temp_points st /\ drawing (undo st) = drawing st.
Proof. unfold undo. destruct (undo_stack st); split; reflexivity. Qed.




(** ** No callback raises

    [on_motion] is the one handler with an unguarded index; it is reached
    with a draft of at least one point, so the [IndexError] does not
    occur. *)

Lemma list_assign_nonempty {A : Type} (l l' : list A) (i : nat) (v : A) :
  list_assign l i v = Some l' -> l' <> [].
Proof.
  destruct l as [|a t]; [discriminate|]. destruct i as [|j]; cbn.
  - intros H. injection H as <-. discriminate.
  - destruct (list_assign t j v); cbn; [|discriminate].
    intros H. injection H as <-. discriminate.
Qed.

Lemma same_canvas_draft_present (st st' : EditorWindow) :
  same_canvas st st' -> draft_present st -> draft_present st'.
Proof.
  intros (Hp & Hd & _ & _) H. unfold draft_present in *. rewrite Hp, Hd.
  exact H.
Qed.

Lemma undo_draft_present (st : EditorWindow) :
  draft_present st -> draft_present (undo st).
Proof.
  unfold draft_present. destruct (undo_keeps_draft st) as [Hp Hd].
  rewrite Hp, Hd. auto.
Qed.

Lemma dispatch_draft_present (w : World) (ev : Event) (st : EditorWindow) :
  draft_present st -> draft_present (step st (w, ev)).
Proof.
  intros H. unfold step. cbn [fst snd].
  destruct ev; cbn [dispatch state_of].
  - unfold on_button_press, draft_present.
    repeat break_if; cbn [state_of]; try exact H; cbn; intros; discriminate.
  - unfold on_motion.
    repeat break_if; cbn [state_of]; try exact H;
      try (intros _; cbn; destruct (temp_points st); discriminate).
    destruct (list_assign _ _ _) as [pts|] eqn:E; cbn [state_of]; [|exact H].
    intros _. cbn. apply (list_assign_nonempty _ _ _ _ E).
  - unfold on_button_release. break_if; cbn [state_of]; [exact H|].
    destruct (temp_points (set_drawing false st)); cbn [state_of];
      intros Hd; cbn in Hd; try discriminate.
    rewrite add_shape_drawing, push_undo_drawing in Hd. discriminate.
  - unfold on_key. cbn [state_of]. unfold copy_to_clipboard, upload.
    repeat break_if;
      eauto using same_canvas_draft_present, set_tool_same_canvas,
        undo_draft_present, quick_save_same_canvas, save_dialog_same_canvas,
        close_same_canvas.
  - eauto using same_canvas_draft_present, set_tool_same_canvas.
  - apply undo_draft_present, H.
  - eauto using same_canvas_draft_present, quick_save_same_canvas.
  - eauto using same_canvas_draft_present, save_dialog_same_canvas.
  - exact H.
  - exact H.
  - eauto using same_canvas_draft_present, close_same_canvas.
Qed.

Lemma run_draft_present (evs : list (World * Event)) (s : ZorinShotSettings) :
  draft_present (run evs (init s)).
Proof.
  assert (H : forall st, draft_present st -> draft_present (run evs st)).
  { induction evs as [|[w ev] evs IH]; intros st Hst; cbn; [exact Hst|].
    apply IH, dispatch_draft_present, Hst. }
  apply H. intros Hd. discriminate.
Qed.

(** Every callback returns in every state a new window can reach. *)
Lemma dispatch_returns (evs : list (World * Event)) (s : ZorinShotSettings)
      (w : World) (ev : Event) :
  exists handled st',
    dispatch w ev (run evs (init s)) = Returned handled st'.
Proof.
  pose proof (run_draft_present evs s) as Hdp.
  set (st := run evs (init s)) in *.
  destruct ev; cbn [dispatch]; try (eexists; eexists; reflexivity).
  - unfold on_button_press. repeat break_if; eexists; eexists; reflexivity.
  - unfold on_motion. repeat break_if; try (eexists; eexists; reflexivity).
    destruct (temp_points st) as [|p [|q t]] eqn:E.
    + destruct (drawing st) eqn:Hd; [|discriminate].
      destruct (Hdp Hd E).
    + discriminate.
    + cbn. eexists; eexists; reflexivity.
  - unfold on_button_release. break_if; [eexists; eexists; reflexivity|].
    destruct (temp_points _); eexists; eexists; reflexivity.
Qed.

(** ** C7: the [modified] flag *)

(** C7 (the code departs from the claim). The claim: [modified] becomes true
    only on a commit or undo that changes the committed shapes. The code, on
    the pen tool with the default settings, at pointer-down (10,10) followed
    at once by pointer-up: the draft is rejected, the committed shapes are
    the same list as before, and [modified] goes from false to true, because
    [on_button_release] sets the flag after every handled release. *)
Theorem C7_rejected_release_sets_modified :
  let st0 := set_tool TOOL_PEN (init default_settings) in
  let st1 := run (gesture (10, 10) []) st0 in
  modified st0 = false
  /\ shapes st1 = shapes st0
  /\ modified st1 = true.
Proof.
  cbn. repeat split; reflexivity.
Qed.

(** The rest of C7 holds. A save that raises leaves the window as it was. *)
Lemma failed_save_keeps_window (w : World) (st : EditorWindow) :
  save_raises w = true ->
  quick_save w st = st /\ save_dialog w st = st.
Proof.
  intros Hr. unfold quick_save, save_dialog. rewrite Hr.
  repeat break_if; split; reflexivity.
Qed.

(** A copy to the clipboard leaves the window as it was. *)
Lemma copy_keeps_window (w : World) (st : EditorWindow) :
  copy_to_clipboard w st = st.
Proof. reflexivity. Qed.

Lemma save_dialog_clears (w : World) (st : EditorWindow) :
  modified st = true -> modified (save_dialog w st) = false ->
  file_chosen w = true /\ save_raises w = false.
Proof.
  unfold save_dialog, save_succeeded. intros Hm.
  repeat break_if; cbn; intros H; try congruence; split; reflexivity.
Qed.

Lemma quick_save_clears (w : World) (st : EditorWindow) :
  modified st = true -> modified (quick_save w st) = false ->
  save_raises w = false.
Proof.
  unfold quick_save. intros Hm. break_if.
  - intros H. apply (save_dialog_clears w st Hm H).
  - unfold save_succeeded. repeat break_if; cbn; intros H; congruence.
Qed.

Lemma close_clears (w : World) (st : EditorWindow) :
  modified st = true -> modified (close w st) = false ->
  save_raises w = false.
Proof.
  unfold close, on_close. intros Hm. cbn [modified set_closed].
  repeat break_if; intros H; try congruence.
  - apply (quick_save_clears w st Hm H).
  - apply (save_dialog_clears w st Hm H).
Qed.

Lemma set_tool_modified (t : string) (st : EditorWindow) :
  modified (set_tool t st) = modified st.
Proof. unfold set_tool. break_if; reflexivity. Qed.

Lemma undo_modified (st : EditorWindow) :
  modified st = true -> modified (undo st) = true.
Proof. unfold undo. destruct (undo_stack st); auto. Qed.

Lemma create_text_at_modified (w : World) (x y : R) (st : EditorWindow) :
  modified st = true -> modified (create_text_at w x y st) = true.
Proof. unfold create_text_at. repeat break_if; auto. Qed.

(** The flag is cleared by no callback but a save whose write did not
    raise. *)
Lemma modified_cleared_only_by_save (w : World) (ev : Event)
      (st : EditorWindow) :
  modified st = true -> modified (step st (w, ev)) = false ->
  save_raises w = false
  /\ match ev with
     | KeyPress _ _ | ClickQuickSave | ClickSaveAs | ClickClose => True
     | _ => False
     end.
Proof.
  intros Hm. unfold step. cbn [fst snd].
  destruct ev; cbn [dispatch state_of].
  - unfold on_button_press.
    repeat break_if; cbn [state_of modified set_drawing]; intros H;
      try congruence.
    + rewrite create_text_at_modified in H by exact Hm. discriminate.
    + cbn in H. congruence.
  - unfold on_motion.
    repeat break_if; try destruct (list_assign _ _ _); cbn; congruence.
  - unfold on_button_release. break_if; cbn [state_of]; [congruence|].
    destruct (temp_points (set_drawing false st)); cbn;
      [congruence|discriminate].
  - unfold on_key. cbn [state_of]. unfold copy_to_clipboard, upload.
    repeat break_if; intros H;
      rewrite ?set_tool_modified in H; try congruence;
      try (rewrite undo_modified in H by exact Hm; discriminate);
      split; try exact I;
      first [ apply (quick_save_clears w st Hm H)
            | apply (save_dialog_clears w st Hm H)
            | apply (close_clears w st Hm H) ].
  - rewrite set_tool_modified. congruence.
  - intros H. rewrite undo_modified in H by exact Hm. discriminate.
  - intros H. split; [apply (quick_save_clears w st Hm H)|exact I].
  - intros H. split; [apply (save_dialog_clears w st Hm H)|exact I].
  - unfold copy_to_clipboard. congruence.
  - unfold upload. congruence.
  - intros H. split; [apply (close_clears w st Hm H)|exact I].
Qed.

(** ** C5: the arrow head in the two renderers *)

(** Whatever the arithmetic, the two methods draw the same segments. *)
Lemma draw_arrow_save_arrow (F : Type) (add sub mul div : F -> F -> F)
      (of_int : Z -> F) (math_pi : F) (math_atan2 : F -> F -> F)
      (math_cos math_sin : F -> F) (x1 y1 x2 y2 width : F) :
  draw_arrow F add sub mul div of_int math_pi math_atan2 math_cos math_sin
             x1 y1 x2 y2 width
  = save_arrow F add sub mul div of_int math_pi math_atan2 math_cos math_sin
               x1 y1 x2 y2 width.
Proof. reflexivity. Qed.

Lemma atan2_positive_axis (x : R) : 0 < x -> atan2 0 x = 0.
Proof.
  intros Hx. unfold atan2. destruct (Rlt_dec 0 x); [|contradiction].
  replace (0 / x) with 0 by (field; lra). apply atan_0.
Qed.

Lemma head_distance (x y len a : R) :
  (x - len * cos a - x)² + (y - len * sin a - y)² = len².
Proof.
  replace (x - len * cos a - x) with (- (len * cos a)) by ring.
  replace (y - len * sin a - y) with (- (len * sin a)) by ring.
  rewrite <- !Rsqr_neg, !Rsqr_mult.
  rewrite <- Rmult_plus_distr_l, Rplus_comm, sin2_cos2. ring.
Qed.

(** C5. For every committed arrow the interactive renderer and the export
    renderer draw the same three segments. The two head segments start at
    the arrow's end (x2,y2) and end at distance [12 + 2*w] from it, in the
    directions that make the angles -pi/6 and +pi/6 with the reversed line
    direction. For start (0,0), end (100,0) and width 3 the head length is 18
    and the head ends are (100 - 9*sqrt 3, 9) and (100 - 9*sqrt 3, -9), at
    distance 18 from (100,0). *)
Theorem C5_arrow_head_parity (x1 y1 x2 y2 w : R) (c : Color) :
  let shp := ArrowShape x1 y1 x2 y2 w c in
  let ang := atan2 (y2 - y1) (x2 - x1) in
  let rev := ang + PI in
  let len := 12 + 2 * w in
  let e1 := (x2 + len * cos (rev - PI / 6), y2 + len * sin (rev - PI / 6)) in
  let e2 := (x2 + len * cos (rev + PI / 6), y2 + len * sin (rev + PI / 6)) in
  on_draw_arrow shp = export_arrow shp
  /\ export_arrow shp = [((x1, y1), (x2, y2)); ((x2, y2), e1); ((x2, y2), e2)]
  /\ (fst e1 - x2)² + (snd e1 - y2)² = len²
  /\ (fst e2 - x2)² + (snd e2 - y2)² = len²
  /\ 12 + 2 * 3 = 18
  /\ export_arrow (ArrowShape 0 0 100 0 3 c)
     = [((0, 0), (100, 0));
        ((100, 0), (100 - 9 * sqrt 3, 9));
        ((100, 0), (100 - 9 * sqrt 3, -9))]
  /\ on_draw_arrow (ArrowShape 0 0 100 0 3 c)
     = export_arrow (ArrowShape 0 0 100 0 3 c)
  /\ (100 - 9 * sqrt 3 - 100)² + (9 - 0)² = 18²
  /\ (100 - 9 * sqrt 3 - 100)² + (-9 - 0)² = 18².
Proof.
  intros shp ang rev len e1 e2.
  assert (Hsq3 : sqrt 3 * sqrt 3 = 3) by (apply sqrt_def; lra).
  repeat match goal with |- _ /\ _ => split end.
  - reflexivity.
  - cbn [export_arrow shp]. unfold save_arrow. fold ang.
    subst e1 e2 rev len.
    replace (ang + PI - PI / 6) with (ang - PI / 6 + PI) by ring.
    replace (ang + PI + PI / 6) with (ang + PI / 6 + PI) by ring.
    rewrite !neg_cos, !neg_sin.
    repeat first [reflexivity | ring | apply f_equal2].
  - subst e1. cbn [fst snd].
    replace (x2 + len * cos (rev - PI / 6))
      with (x2 - len * cos (rev - PI / 6 + PI))
      by (rewrite neg_cos; ring).
    replace (y2 + len * sin (rev - PI / 6))
      with (y2 - len * sin (rev - PI / 6 + PI))
      by (rewrite neg_sin; ring).
    apply head_distance.
  - subst e2. cbn [fst snd].
    replace (x2 + len * cos (rev + PI / 6))
      with (x2 - len * cos (rev + PI / 6 + PI))
      by (rewrite neg_cos; ring).
    replace (y2 + len * sin (rev + PI / 6))
      with (y2 - len * sin (rev + PI / 6 + PI))
      by (rewrite neg_sin; ring).
    apply head_distance.
  - lra.
  - cbn [export_arrow]. unfold save_arrow.
    replace (0 - 0) with 0 by ring. replace (100 - 0) with 100 by ring.
    rewrite atan2_positive_axis by lra.
    replace (0 - PI / 6) with (- (PI / 6)) by ring.
    replace (0 + PI / 6) with (PI / 6) by ring.
    rewrite cos_neg, sin_neg, cos_PI6, sin_PI6.
    repeat first [reflexivity | field | apply f_equal2].
  - reflexivity.
  - unfold Rsqr. nra.
  - unfold Rsqr. nra.
Qed.

(** ** C10: committed shapes and the store *)

(** *** Reading and writing list objects *)

Section StoreFacts.

Context {A : Type}.
Implicit Types (store : list (list A)) (l : Heap.loc) (v : list A).

Lemma read_old store v l :
  (l < List.length store)%nat ->
  Heap.read (store ++ [v]) l = Heap.read store l.
Proof. intros Hl. unfold Heap.read. apply app_nth1. exact Hl. Qed.

Lemma read_new store v :
  Heap.read (store ++ [v]) (List.length store) = v.
Proof. unfold Heap.read. apply nth_middle. Qed.

Lemma read_In store l :
  (l < List.length store)%nat -> In (Heap.read store l) store.
Proof. intros Hl. unfold Heap.read. apply nth_In. exact Hl. Qed.

Lemma length_write store l v :
  List.length (Heap.write store l v) = List.length store.
Proof.
  revert l. induction store as [|a t IH]; intros [|l]; cbn; auto.
Qed.

Lemma read_write_same store l v :
  (l < List.length store)%nat -> Heap.read (Heap.write store l v) l = v.
Proof.
  revert l. induction store as [|a t IH]; intros [|l] Hl; cbn in *;
    try lia; try reflexivity.
  apply IH. lia.
Qed.

Lemma read_write_other store l l' v :
  l <> l' -> Heap.read (Heap.write store l v) l' = Heap.read store l'.
Proof.
  revert l l'. induction store as [|a t IH]; intros [|l] [|l'] Hne; cbn;
    try reflexivity; try contradiction.
  apply IH. congruence.
Qed.

Lemma In_write store l v x :
  In x (Heap.write store l v) -> x = v \/ In x store.
Proof.
  revert l. induction store as [|a t IH]; intros [|l]; cbn.
  - contradiction.
  - contradiction.
  - intros [H|H]; auto.
  - intros [H|H]; auto. destruct (IH l H); auto.
Qed.

End StoreFacts.

(** *** The store invariant and the value of a window *)

Lemma later_refl (h : Heap.Window) : Heap.later h h.
Proof. intros shp Hs. split; [exact Hs|reflexivity]. Qed.

Lemma later_trans (h1 h2 h3 : Heap.Window) :
  Heap.later h1 h2 -> Heap.later h2 h3 -> Heap.later h1 h3.
Proof.
  intros H12 H23 shp Hs.
  destruct (H12 shp Hs) as [Hs2 Hg2]. destruct (H23 shp Hs2) as [Hs3 Hg3].
  split; [exact Hs3|congruence].
Qed.

Lemma simulates_trans (h1 h2 h3 : Heap.Window) (st2 st3 : EditorWindow) :
  Heap.simulates h1 h2 st2 -> Heap.simulates h2 h3 st3 ->
  Heap.simulates h1 h3 st3.
Proof.
  intros (_ & L12 & _) (W3 & L23 & V3).
  split; [exact W3|split; [eapply later_trans; eassumption|exact V3]].
Qed.

(** A shape of an allocated shape list is stored. *)
Lemma stored_read (h : Heap.Window) (l : Heap.loc) (shp : Heap.HShape) :
  (l < List.length (Heap.shape_lists h))%nat ->
  In shp (Heap.read (Heap.shape_lists h) l) -> Heap.stored h shp.
Proof.
  intros Hl Hin. exists (Heap.read (Heap.shape_lists h) l).
  split; [apply read_In, Hl|exact Hin].
Qed.

(** The geometry of a shape depends on the point list of its stroke only. *)
Lemma geometry_agree (pl pl' : list (list Point)) (shp : Heap.HShape) :
  (forall l, Heap.stroke_points shp = Some l ->
             Heap.read pl' l = Heap.read pl l) ->
  Heap.geometry pl' shp = Heap.geometry pl shp.
Proof.
  intros H. destruct shp; cbn in *; try reflexivity.
  rewrite (H points eq_refl). reflexivity.
Qed.

(** Point lists that agree off the draft give every stored shape the same
    geometry. *)
Lemma geometry_off_draft (h : Heap.Window) (pl' : list (list Point))
      (shp : Heap.HShape) :
  Heap.well_formed h -> Heap.stored h shp ->
  (forall l, (l < List.length (Heap.point_lists h))%nat ->
             l <> Heap.temp_points h ->
             Heap.read pl' l = Heap.read (Heap.point_lists h) l) ->
  Heap.geometry pl' shp = Heap.geometry (Heap.point_lists h) shp.
Proof.
  intros Hwf Hs Hagree. apply geometry_agree. intros l Hl.
  destruct (Heap.wf_strokes h Hwf shp l Hs Hl) as [Hlt Hne].
  apply Hagree; assumption.
Qed.

(** Windows over the same store: scalar fields may differ. *)
Lemma same_store_simulates (h h' : Heap.Window) :
  Heap.well_formed h -> Heap.same_store h h' ->
  Heap.well_formed h' /\ Heap.later h h'.
Proof.
  intros Hwf (Ht & Hs & Hu & Hp & Hl). split.
  - destruct Hwf as [W1 W2 W3 W4 W5 W6].
    constructor; unfold Heap.stored in *; rewrite ?Ht, ?Hs, ?Hu, ?Hp, ?Hl;
      assumption.
  - intros shp Hst. unfold Heap.stored. rewrite Hp, Hl.
    split; [exact Hst|reflexivity].
Qed.

Lemma same_store_value (h h' : Heap.Window) :
  Heap.same_store h h' ->
  Heap.value h'
  = mkEditor (Heap.settings h') (Heap.current_tool h') (Heap.drawing h')
             (temp_points (Heap.value h)) (shapes (Heap.value h))
             (undo_stack (Heap.value h))
             (Heap.modified h') (Heap.closed h').
Proof.
  intros (Ht & Hs & Hu & Hp & Hl). unfold Heap.value, Heap.shapes_at.
  cbn [temp_points shapes undo_stack]. rewrite Ht, Hs, Hu, Hp, Hl.
  reflexivity.
Qed.

Lemma shapes_at_off_draft (h h' : Heap.Window) (l : Heap.loc) :
  Heap.well_formed h ->
  (l < List.length (Heap.shape_lists h))%nat ->
  Heap.read (Heap.shape_lists h') l = Heap.read (Heap.shape_lists h) l ->
  (forall p, (p < List.length (Heap.point_lists h))%nat ->
             p <> Heap.temp_points h ->
             Heap.read (Heap.point_lists h') p
             = Heap.read (Heap.point_lists h) p) ->
  Heap.shapes_at h' l = Heap.shapes_at h l.
Proof.
  intros Hwf Hl Hsl Hagree. unfold Heap.shapes_at. rewrite Hsl.
  apply map_ext_in. intros shp Hin.
  apply geometry_off_draft; try assumption.
  apply (stored_read h l); assumption.
Qed.

Lemma heap_set_temp_points_id (h : Heap.Window) :
  Heap.set_temp_points (Heap.temp_points h) h = h.
Proof. destruct h; reflexivity. Qed.

(** A change of the point lists that leaves every list but the draft as it
    was, with the draft bound to [t']. *)
Lemma sim_point_lists (h : Heap.Window) (pl' : list (list Point))
      (t' : Heap.loc) :
  Heap.well_formed h ->
  (List.length (Heap.point_lists h) <= List.length pl')%nat ->
  (t' < List.length pl')%nat ->
  (forall p, (p < List.length (Heap.point_lists h))%nat ->
             p <> Heap.temp_points h ->
             Heap.read pl' p = Heap.read (Heap.point_lists h) p /\ p <> t') ->
  Heap.simulates h
    (Heap.set_temp_points t' (Heap.set_point_lists pl' h))
    (set_temp_points (Heap.read pl' t') (Heap.value h)).
Proof.
  intros Hwf Hlen Ht' Hagree.
  set (h' := Heap.set_temp_points t' (Heap.set_point_lists pl' h)).
  assert (Hread : forall p, (p < List.length (Heap.point_lists h))%nat ->
                            p <> Heap.temp_points h ->
                            Heap.read (Heap.point_lists h') p
                            = Heap.read (Heap.point_lists h) p).
  { intros p Hp Hne. apply (Hagree p Hp Hne). }
  split; [|split].
  - destruct Hwf as [W1 W2 W3 W4 W5 W6].
    constructor; try assumption.
    intros shp l Hst Hl. destruct (W6 shp l Hst Hl) as [Hlt Hne].
    cbn. split; [lia|apply (Hagree l Hlt Hne)].
  - intros shp Hst. split; [exact Hst|].
    apply (geometry_off_draft h (Heap.point_lists h') shp Hwf Hst Hread).
  - unfold Heap.value at 1.
    cbn [Heap.settings Heap.current_tool Heap.drawing Heap.temp_points
         Heap.undo_stack Heap.modified Heap.closed Heap.shapes
         Heap.point_lists h' Heap.set_temp_points Heap.set_point_lists].
    unfold set_temp_points. cbn. f_equal.
    + apply (shapes_at_off_draft h h'); try assumption.
      * apply (Heap.wf_shapes h Hwf).
      * reflexivity.
    + apply map_ext_in. intros l Hin.
      apply (shapes_at_off_draft h h'); try assumption.
      * apply (Heap.wf_stack h Hwf l Hin).
      * reflexivity.
Qed.

(** [self.temp_points = v]: a new list object becomes the draft. *)
Lemma sim_new_draft (h : Heap.Window) (v : list Point) :
  Heap.well_formed h ->
  Heap.simulates h
    (Heap.set_temp_points (fst (Heap.new_point_list v h))
                          (snd (Heap.new_point_list v h)))
    (set_temp_points v (Heap.value h)).
Proof.
  intros Hwf. cbn [Heap.new_point_list fst snd].
  pose proof (sim_point_lists h (Heap.point_lists h ++ [v])
                (List.length (Heap.point_lists h)) Hwf) as H.
  rewrite read_new in H. apply H.
  - rewrite length_app. lia.
  - rewrite length_app. cbn. lia.
  - intros p Hp Hne. split; [apply read_old, Hp|lia].
Qed.

(** [self.temp_points.copy()]: a new list object that nothing refers to
    yet. *)
Lemma sim_copy_draft (h : Heap.Window) (v : list Point) :
  Heap.well_formed h ->
  Heap.simulates h (snd (Heap.new_point_list v h)) (Heap.value h).
Proof.
  intros Hwf. cbn [Heap.new_point_list snd].
  pose proof (sim_point_lists h (Heap.point_lists h ++ [v])
                (Heap.temp_points h) Hwf) as H.
  rewrite read_old in H by apply (Heap.wf_temp h Hwf).
  change (Heap.read (Heap.point_lists h) (Heap.temp_points h))
    with (temp_points (Heap.value h)) in H.
  rewrite set_temp_points_same in H.
  replace (Heap.set_point_lists (Heap.point_lists h ++ [v]) h)
    with (Heap.set_temp_points (Heap.temp_points h)
            (Heap.set_point_lists (Heap.point_lists h ++ [v]) h))
    by (destruct h; reflexivity).
  apply H.
  - rewrite length_app. lia.
  - rewrite length_app. pose proof (Heap.wf_temp h Hwf). lia.
  - intros p Hp Hne. split; [apply read_old, Hp|exact Hne].
Qed.

(** An append or an indexed assignment on the draft, in place. *)
Lemma sim_write_draft (h : Heap.Window) (v : list Point) :
  Heap.well_formed h ->
  Heap.simulates h
    (Heap.set_point_lists
       (Heap.write (Heap.point_lists h) (Heap.temp_points h) v) h)
    (set_temp_points v (Heap.value h)).
Proof.
  intros Hwf.
  pose proof (sim_point_lists h
                (Heap.write (Heap.point_lists h) (Heap.temp_points h) v)
                (Heap.temp_points h) Hwf) as H.
  rewrite read_write_same in H by apply (Heap.wf_temp h Hwf).
  match goal with
  | |- Heap.simulates _ ?h' _ =>
      replace h' with (Heap.set_temp_points (Heap.temp_points h) h')
        by (destruct h; reflexivity)
  end.
  apply H.
  - rewrite length_write. lia.
  - rewrite length_write. apply (Heap.wf_temp h Hwf).
  - intros p Hp Hne. split; [|exact Hne].
    apply read_write_other. congruence.
Qed.

Lemma map_tl {A B : Type} (f : A -> B) (l : list A) :
  map f (tl l) = tl (map f l).
Proof. destruct l; reflexivity. Qed.

Lemma In_tl {A : Type} (x : A) (l : list A) : In x (tl l) -> In x l.
Proof. destruct l; cbn; auto. Qed.

Lemma NoDup_tl {A : Type} (l : list A) : NoDup l -> NoDup (tl l).
Proof. destruct l; cbn; intros H; [exact H|inversion H; assumption]. Qed.

(** The snapshot pushed before a commit is a list object of its own. *)
Lemma sim_push_undo (h : Heap.Window) :
  Heap.well_formed h ->
  Heap.simulates h (Heap.push_undo h) (push_undo (Heap.value h)).
Proof.
  intros Hwf. destruct Hwf as [W1 W2 W3 W4 W5 W6].
  unfold Heap.push_undo, Heap.new_shape_list, push_undo. cbv iota beta.
  set (sl := Heap.shape_lists h).
  set (n := List.length sl).
  set (c := Heap.read sl (Heap.shapes h)).
  set (h1 := Heap.set_shape_lists (sl ++ [c]) h).
  change (Heap.undo_stack h1) with (Heap.undo_stack h).
  change (Heap.settings h1) with (Heap.settings h).
  match goal with
  | |- Heap.simulates _
         (if (_ <? Z.of_nat (List.length ?s))%Z then _ else _) _ =>
      set (stack := s)
  end.
  assert (Hstack_lt : forall l, In l stack ->
                                (l < List.length (sl ++ [c]))%nat).
  { intros l Hin. rewrite length_app. cbn. unfold stack in Hin.
    apply in_app_or in Hin as [Hin|[Hin|[]]].
    - specialize (W3 l Hin). fold sl in W3. lia.
    - subst l. fold n. lia. }
  assert (Hstack_nd : NoDup stack).
  { unfold stack. apply NoDup_app; [exact W5|repeat constructor; auto|].
    intros l Hin [Hn|[]]. subst l. specialize (W3 n Hin).
    fold sl n in W3. lia. }
  assert (Hstack_sh : ~ In (Heap.shapes h) stack).
  { unfold stack. intros Hin. apply in_app_or in Hin as [Hin|[Hin|[]]].
    - contradiction.
    - fold sl n in W2. lia. }
  assert (Hstored : forall shp st,
             Heap.stored (Heap.set_undo_stack st h1) shp -> Heap.stored h shp).
  { intros shp st (l & Hl & Hin). cbn in Hl.
    apply in_app_or in Hl as [Hl|[Hl|[]]].
    - exists l. split; assumption.
    - subst l. apply (stored_read h (Heap.shapes h)); assumption. }
  assert (Hlater : forall st, Heap.later h (Heap.set_undo_stack st h1)).
  { intros st shp (l & Hl & Hin). split; [|reflexivity].
    exists l. split; [cbn; apply in_or_app; left; exact Hl|exact Hin]. }
  assert (Hwf : forall st,
             (forall l, In l st -> In l stack) -> NoDup st ->
             Heap.well_formed (Heap.set_undo_stack st h1)).
  { intros st Hsub Hnd. constructor; cbn.
    - exact W1.
    - rewrite length_app. fold sl in W2. lia.
    - intros l Hin. apply Hstack_lt, Hsub, Hin.
    - intros Hin. apply Hstack_sh, Hsub, Hin.
    - exact Hnd.
    - intros shp l Hst Hl. apply (W6 shp l); [|exact Hl].
      apply (Hstored shp st Hst). }
  assert (Hvalue_at : forall l, (l < n)%nat ->
             Heap.shapes_at h1 l = Heap.shapes_at h l).
  { intros l Hl. unfold Heap.shapes_at.
    change (Heap.shape_lists h1) with (sl ++ [c]).
    change (Heap.point_lists h1) with (Heap.point_lists h).
    rewrite read_old by exact Hl. reflexivity. }
  assert (Hvalue_stack :
            map (Heap.shapes_at h1) stack
            = undo_stack (Heap.value h) ++ [shapes (Heap.value h)]).
  { unfold stack. rewrite map_app. cbn [map Heap.value undo_stack shapes].
    f_equal.
    - apply map_ext_in. intros l Hin. apply Hvalue_at. apply (W3 l Hin).
    - unfold Heap.shapes_at.
      change (Heap.shape_lists h1) with (sl ++ [c]).
      change (Heap.point_lists h1) with (Heap.point_lists h).
      unfold n. rewrite read_new. reflexivity. }
  assert (Hlen : List.length stack
                 = List.length (undo_stack (Heap.value h)
                                ++ [shapes (Heap.value h)])).
  { rewrite <- Hvalue_stack, length_map. reflexivity. }
  assert (Hvalue : forall st,
             Heap.value (Heap.set_undo_stack st h1)
             = set_undo_stack (map (Heap.shapes_at h1) st) (Heap.value h)).
  { intros st.
    transitivity
      (mkEditor (Heap.settings h) (Heap.current_tool h) (Heap.drawing h)
                (Heap.read (Heap.point_lists h) (Heap.temp_points h))
                (Heap.shapes_at h1 (Heap.shapes h))
                (map (Heap.shapes_at h1) st)
                (Heap.modified h) (Heap.closed h)); [reflexivity|].
    rewrite Hvalue_at by exact W2. reflexivity. }
  change (Heap.settings h) with (settings (Heap.value h)).
  rewrite Hlen.
  destruct (max_undo_levels (settings (Heap.value h)) <? _)%Z.
  - split; [|split].
    + apply Hwf; [intros l; apply In_tl|apply NoDup_tl, Hstack_nd].
    + apply Hlater.
    + rewrite Hvalue, map_tl, Hvalue_stack. reflexivity.
  - split; [|split].
    + apply Hwf; [auto|exact Hstack_nd].
    + apply Hlater.
    + rewrite Hvalue, Hvalue_stack. reflexivity.
Qed.

(** [self.shapes.append(shp)] changes the shape list in place; no snapshot
    is that list. *)
Lemma sim_shapes_append (h : Heap.Window) (shp : Heap.HShape) :
  Heap.well_formed h ->
  (forall l, Heap.stroke_points shp = Some l ->
             (l < List.length (Heap.point_lists h))%nat
             /\ l <> Heap.temp_points h) ->
  Heap.simulates h (Heap.shapes_append shp h)
    (set_shapes (shapes (Heap.value h)
                 ++ [Heap.geometry (Heap.point_lists h) shp])
                (Heap.value h)).
Proof.
  intros Hwf Hshp. destruct Hwf as [W1 W2 W3 W4 W5 W6].
  unfold Heap.shapes_append.
  set (old := Heap.read (Heap.shape_lists h) (Heap.shapes h)).
  set (sl' := Heap.write (Heap.shape_lists h) (Heap.shapes h) (old ++ [shp])).
  set (h' := Heap.set_shape_lists sl' h).
  assert (Hsame : Heap.read sl' (Heap.shapes h) = old ++ [shp])
    by (apply read_write_same; exact W2).
  assert (Hother : forall l,
             l <> Heap.shapes h ->
             Heap.read sl' l = Heap.read (Heap.shape_lists h) l).
  { intros l Hne. apply read_write_other. congruence. }
  assert (Hlen : List.length sl' = List.length (Heap.shape_lists h))
    by apply length_write.
  split; [|split].
  - constructor; cbn [Heap.temp_points Heap.shapes Heap.undo_stack
                      Heap.point_lists Heap.shape_lists h'
                      Heap.set_shape_lists]; try assumption.
    + rewrite Hlen. exact W2.
    + intros l Hin. rewrite Hlen. apply W3, Hin.
    + intros s l (sl0 & Hsl0 & Hin) Hl. cbn in Hsl0.
      apply In_write in Hsl0 as [Hsl0|Hsl0].
      * subst sl0. apply in_app_or in Hin as [Hin|[Hin|[]]].
        -- apply (W6 s l); [|exact Hl].
           apply (stored_read h (Heap.shapes h)); assumption.
        -- subst s. apply Hshp, Hl.
      * apply (W6 s l); [|exact Hl]. exists sl0. split; assumption.
  - intros s (sl0 & Hsl0 & Hin). split; [|reflexivity].
    unfold Heap.stored. change (Heap.shape_lists h') with sl'.
    destruct (In_nth _ _ [] Hsl0) as (n & Hn & Hnth).
    destruct (Nat.eq_dec n (Heap.shapes h)) as [->|Hne].
    + exists (old ++ [shp]). split.
      * rewrite <- Hsame. apply read_In. rewrite Hlen. exact W2.
      * apply in_or_app. left. unfold old, Heap.read. rewrite Hnth. exact Hin.
    + exists sl0. split; [|exact Hin].
      change (nth n (Heap.shape_lists h) []) with
        (Heap.read (Heap.shape_lists h) n) in Hnth.
      rewrite <- Hnth, <- (Hother n Hne). apply read_In.
      rewrite Hlen. exact Hn.
  - transitivity
      (mkEditor (Heap.settings h) (Heap.current_tool h) (Heap.drawing h)
                (Heap.read (Heap.point_lists h) (Heap.temp_points h))
                (map (Heap.geometry (Heap.point_lists h))
                     (Heap.read sl' (Heap.shapes h)))
                (map (fun l => map (Heap.geometry (Heap.point_lists h))
                                   (Heap.read sl' l))
                     (Heap.undo_stack h))
                (Heap.modified h) (Heap.closed h)); [reflexivity|].
    rewrite Hsame, map_app. unfold set_shapes, Heap.value. cbn.
    f_equal. apply map_ext_in. intros l Hin.
    rewrite Hother; [reflexivity|]. intros ->. contradiction.
Qed.

Lemma undo_nonempty (st : EditorWindow) (below : list (list Shape))
      (top : list Shape) :
  undo_stack st = below ++ [top] ->
  undo st = set_modified true (set_undo_stack below (set_shapes top st)).
Proof.
  intros Hs. unfold undo. rewrite Hs.
  destruct (below ++ [top]) eqn:E.
  - destruct below; discriminate.
  - rewrite <- E, last_last, removelast_last. reflexivity.
Qed.

Lemma heap_undo_nonempty (h : Heap.Window) (below : list Heap.loc)
      (top : Heap.loc) :
  Heap.undo_stack h = below ++ [top] ->
  Heap.undo h
  = Heap.set_modified true
      (Heap.set_undo_stack below (Heap.set_shapes top h)).
Proof.
  intros Hs. unfold Heap.undo. rewrite Hs.
  destruct (below ++ [top]) eqn:E.
  - destruct below; discriminate.
  - rewrite <- E, last_last, removelast_last. reflexivity.
Qed.

(** [undo] rebinds the shape list to the popped snapshot. *)
Lemma sim_undo (h : Heap.Window) :
  Heap.well_formed h ->
  Heap.simulates h (Heap.undo h) (undo (Heap.value h)).
Proof.
  intros Hwf.
  destruct (Heap.undo_stack h) as [|a t] eqn:E.
  - assert (Hh : Heap.undo h = h) by (unfold Heap.undo; rewrite E; reflexivity).
    assert (Hv : undo (Heap.value h) = Heap.value h).
    { unfold undo. cbn [undo_stack Heap.value]. rewrite E. reflexivity. }
    rewrite Hh, Hv.
    split; [exact Hwf|split; [apply later_refl|reflexivity]].
  - destruct (exists_last (l := a :: t)) as (below & top & Hs);
      [discriminate|].
    rewrite Hs in E. clear Hs a t.
    rewrite (heap_undo_nonempty h below top E).
    rewrite (undo_nonempty (Heap.value h)
               (map (Heap.shapes_at h) below) (Heap.shapes_at h top))
      by (cbn [undo_stack Heap.value]; rewrite E, map_app; reflexivity).
    destruct Hwf as [W1 W2 W3 W4 W5 W6].
    assert (Hnd : NoDup below /\ ~ In top below).
    { rewrite E in W5. apply NoDup_remove in W5.
      rewrite app_nil_r in W5. exact W5. }
    split; [|split].
    + constructor; cbn; try assumption.
      * apply W3. rewrite E. apply in_or_app. right. left. reflexivity.
      * intros l Hin. apply W3. rewrite E. apply in_or_app. left. exact Hin.
      * apply Hnd.
      * apply Hnd.
    + intros s0 Hst. split; [exact Hst|reflexivity].
    + reflexivity.
Qed.

Lemma sim_same_store (h h' : Heap.Window) (st' : EditorWindow) :
  Heap.well_formed h -> Heap.same_store h h' -> Heap.value h' = st' ->
  Heap.simulates h h' st'.
Proof.
  intros Hwf Hsame Hv. destruct (same_store_simulates h h' Hwf Hsame).
  split; [assumption|split; assumption].
Qed.

Lemma same_store_refl (h : Heap.Window) : Heap.same_store h h.
Proof. repeat split. Qed.

Lemma sim_refl (h : Heap.Window) :
  Heap.well_formed h -> Heap.simulates h h (Heap.value h).
Proof. intros Hwf. apply sim_same_store; auto using same_store_refl. Qed.

Lemma sim_set_tool (t : string) (h : Heap.Window) :
  Heap.well_formed h ->
  Heap.simulates h (Heap.set_tool t h) (set_tool t (Heap.value h)).
Proof.
  intros Hwf. apply sim_same_store; [exact Hwf| |];
    unfold Heap.set_tool, set_tool; cbn;
    destruct (remember_tool_selection (Heap.settings h));
    repeat split.
Qed.

Lemma sim_set_drawing (b : bool) (h : Heap.Window) :
  Heap.well_formed h ->
  Heap.simulates h (Heap.set_drawing b h) (set_drawing b (Heap.value h)).
Proof. intros Hwf. apply sim_same_store; [exact Hwf| |]; repeat split. Qed.

Lemma sim_set_modified (b : bool) (h : Heap.Window) :
  Heap.well_formed h ->
  Heap.simulates h (Heap.set_modified b h) (set_modified b (Heap.value h)).
Proof. intros Hwf. apply sim_same_store; [exact Hwf| |]; repeat split. Qed.

Lemma sim_save_succeeded (h : Heap.Window) :
  Heap.well_formed h ->
  Heap.simulates h (Heap.save_succeeded h) (save_succeeded (Heap.value h)).
Proof.
  intros Hwf. apply sim_same_store; [exact Hwf| |];
    unfold Heap.save_succeeded, save_succeeded; cbn;
    destruct (auto_close_after_save (Heap.settings h)); repeat split.
Qed.

Lemma sim_save_dialog (w : World) (h : Heap.Window) :
  Heap.well_formed h ->
  Heap.simulates h (Heap.save_dialog w h) (save_dialog w (Heap.value h)).
Proof.
  intros Hwf. unfold Heap.save_dialog, save_dialog.
  destruct (file_chosen w), (save_raises w);
    auto using sim_refl, sim_save_succeeded.
Qed.

Lemma sim_quick_save (w : World) (h : Heap.Window) :
  Heap.well_formed h ->
  Heap.simulates h (Heap.quick_save w h) (quick_save w (Heap.value h)).
Proof.
  intros Hwf. unfold Heap.quick_save, quick_save.
  change (settings (Heap.value h)) with (Heap.settings h).
  destruct (negb (autosave_enabled (Heap.settings h))), (save_raises w);
    auto using sim_refl, sim_save_succeeded, sim_save_dialog.
Qed.

Lemma sim_on_close (w : World) (h : Heap.Window) :
  Heap.well_formed h ->
  Heap.simulates h (Heap.on_close w h) (on_close w (Heap.value h)).
Proof.
  intros Hwf. unfold Heap.on_close, on_close.
  change (settings (Heap.value h)) with (Heap.settings h).
  change (modified (Heap.value h)) with (Heap.modified h).
  destruct (Heap.modified h && show_save_confirmation (Heap.settings h)),
           (confirm_save_yes w), (autosave_enabled (Heap.settings h));
    auto using sim_refl, sim_quick_save, sim_save_dialog.
Qed.

Lemma sim_close (w : World) (h : Heap.Window) :
  Heap.well_formed h ->
  Heap.simulates h (Heap.close w h) (close w (Heap.value h)).
Proof.
  intros Hwf. unfold Heap.close, close.
  destruct (sim_on_close w h Hwf) as (W & L & V).
  eapply simulates_trans; [split; [exact W|split; [exact L|exact V]]|].
  rewrite <- V. apply sim_same_store; [exact W| |]; repeat split.
Qed.

(** Chaining: a further operation on a window that already simulates. *)
Lemma sim_then (h h1 : Heap.Window) (st1 : EditorWindow)
      (g : Heap.Window -> Heap.Window) (f : EditorWindow -> EditorWindow) :
  Heap.simulates h h1 st1 ->
  (forall h0, Heap.well_formed h0 ->
              Heap.simulates h0 (g h0) (f (Heap.value h0))) ->
  Heap.simulates h (g h1) (f st1).
Proof.
  intros (W & L & V) Hg. subst st1.
  eapply simulates_trans; [split; [exact W|split; [exact L|reflexivity]]|].
  apply Hg, W.
Qed.

Lemma sim_add_shape (h : Heap.Window) :
  Heap.well_formed h ->
  Heap.simulates h (Heap.add_shape h) (add_shape (Heap.value h)).
Proof.
  intros Hwf. unfold Heap.add_shape, add_shape.
  change (current_tool (Heap.value h)) with (Heap.current_tool h).
  change (temp_points (Heap.value h))
    with (Heap.read (Heap.point_lists h) (Heap.temp_points h)).
  change (settings (Heap.value h)) with (Heap.settings h).
  set (pts := Heap.read (Heap.point_lists h) (Heap.temp_points h)).
  destruct ((Heap.current_tool h =? TOOL_PEN)%string
            && (2 <=? List.length pts)%nat).
  - destruct (sim_copy_draft h pts Hwf) as (W1 & L1 & V1).
    cbn [Heap.new_point_list snd] in *. cbv iota beta.
    set (h1 := Heap.set_point_lists _ h) in *.
    eapply simulates_trans; [split; [exact W1|split; [exact L1|exact V1]]|].
    pose proof (sim_shapes_append h1
                  (Heap.HPenStroke (List.length (Heap.point_lists h))
                     (default_pen_width (Heap.settings h1))
                     (get_default_color (Heap.settings h))) W1) as H.
    rewrite V1 in H. cbn [Heap.geometry] in H.
    change (Heap.point_lists h1) with (Heap.point_lists h ++ [pts]) in H.
    rewrite read_new in H. apply H.
    intros l Hl. injection Hl as <-. rewrite length_app. cbn.
    pose proof (Heap.wf_temp h Hwf). lia.
  - destruct ((Heap.current_tool h =? TOOL_RECT)%string
              && (2 <=? List.length pts)%nat).
    + destruct (hd (0, 0) pts) as [x1 y1], (last pts (0, 0)) as [x2 y2].
      apply (sim_shapes_append h (Heap.HRectShape _ _ _ _ _ _) Hwf).
      intros l Hl. discriminate.
    + destruct ((Heap.current_tool h =? TOOL_ARROW)%string
                && (2 <=? List.length pts)%nat).
      * destruct (hd (0, 0) pts) as [x1 y1], (last pts (0, 0)) as [x2 y2].
        apply (sim_shapes_append h (Heap.HArrowShape _ _ _ _ _ _) Hwf).
        intros l Hl. discriminate.
      * apply sim_refl, Hwf.
Qed.

Lemma sim_create_text_at (w : World) (x y : R) (h : Heap.Window) :
  Heap.well_formed h ->
  Heap.simulates h (Heap.create_text_at w x y h)
                 (create_text_at w x y (Heap.value h)).
Proof.
  intros Hwf. unfold Heap.create_text_at, create_text_at.
  destruct (text_dialog_ok w); [|apply sim_refl, Hwf].
  destruct (str_truthy (strip (entry_text w))); [|apply sim_refl, Hwf].
  destruct (sim_push_undo h Hwf) as (W1 & L1 & V1).
  set (h1 := Heap.push_undo h) in *.
  set (shp := Heap.HTextLabel x y (strip (entry_text w))
                (default_text_size (Heap.settings h1))
                (get_default_color (Heap.settings h1))).
  assert (Hshp : forall l, Heap.stroke_points shp = Some l ->
                           (l < List.length (Heap.point_lists h1))%nat
                           /\ l <> Heap.temp_points h1)
    by (intros l Hl; discriminate).
  destruct (sim_shapes_append h1 shp W1 Hshp) as (W2 & L2 & V2).
  eapply simulates_trans; [split; [exact W1|split; [exact L1|exact V1]]|].
  eapply simulates_trans; [split; [exact W2|split; [exact L2|exact V2]]|].
  rewrite <- V1.
  change (settings (Heap.value h1)) with (Heap.settings h1).
  change (Heap.geometry (Heap.point_lists h1) shp)
    with (TextLabel x y (strip (entry_text w))
            (default_text_size (Heap.settings h1))
            (get_default_color (Heap.settings h1))) in V2.
  rewrite <- V2. apply sim_set_modified, W2.
Qed.

(** *** The callbacks on the store do what the callbacks on values do *)

Lemma sim_on_button_press (w : World) (b : Z) (x y : R) (h : Heap.Window) :
  Heap.well_formed h ->
  Heap.simulates h (state_of (Heap.on_button_press w b x y h))
                 (state_of (on_button_press w b x y (Heap.value h))).
Proof.
  intros Hwf. unfold Heap.on_button_press, on_button_press.
  destruct (negb (b =? 1)%Z); [apply sim_refl, Hwf|].
  unfold Heap.new_point_list. cbv iota beta.
  assert (H3 : Heap.simulates h
                 (Heap.set_temp_points
                    (List.length (Heap.point_lists (Heap.set_drawing true h)))
                    (Heap.set_point_lists
                       (Heap.point_lists (Heap.set_drawing true h)
                        ++ [[(x, y)]])
                       (Heap.set_drawing true h)))
                 (set_temp_points [(x, y)]
                                  (set_drawing true (Heap.value h)))).
  { apply (sim_then h (Heap.set_drawing true h) _
             (fun h0 => Heap.set_temp_points
                          (fst (Heap.new_point_list [(x, y)] h0))
                          (snd (Heap.new_point_list [(x, y)] h0)))
             (set_temp_points [(x, y)])).
    - apply sim_set_drawing, Hwf.
    - intros h0 W0. apply sim_new_draft, W0. }
  set (h3 := Heap.set_temp_points _ _) in *.
  set (st2 := set_temp_points [(x, y)] _) in *.
  change (Heap.current_tool h3) with (Heap.current_tool h).
  change (current_tool st2) with (Heap.current_tool h).
  destruct (Heap.current_tool h =? TOOL_TEXT)%string; cbn [state_of].
  - apply (sim_then h _ _ (Heap.set_drawing false) (set_drawing false)).
    + apply (sim_then h h3 st2 (Heap.create_text_at w x y)
                      (create_text_at w x y) H3).
      intros h0 W0. apply sim_create_text_at, W0.
    + intros h0 W0. apply sim_set_drawing, W0.
  - exact H3.
Qed.

Lemma sim_on_motion (x y : R) (h : Heap.Window) :
  Heap.well_formed h ->
  Heap.simulates h (state_of (Heap.on_motion x y h))
                 (state_of (on_motion x y (Heap.value h))).
Proof.
  intros Hwf. unfold Heap.on_motion, on_motion.
  change (drawing (Heap.value h)) with (Heap.drawing h).
  change (current_tool (Heap.value h)) with (Heap.current_tool h).
  change (temp_points (Heap.value h))
    with (Heap.read (Heap.point_lists h) (Heap.temp_points h)).
  set (pts := Heap.read (Heap.point_lists h) (Heap.temp_points h)).
  destruct (negb (Heap.drawing h)); [apply sim_refl, Hwf|].
  destruct (Heap.current_tool h =? TOOL_PEN)%string;
    [apply sim_write_draft, Hwf|].
  destruct (List.length pts =? 1)%nat; [apply sim_write_draft, Hwf|].
  destruct (list_assign pts 1 (x, y));
    [apply sim_write_draft, Hwf|apply sim_refl, Hwf].
Qed.

Lemma sim_on_button_release (b : Z) (h : Heap.Window) :
  Heap.well_formed h ->
  Heap.simulates h (state_of (Heap.on_button_release b h))
                 (state_of (on_button_release b (Heap.value h))).
Proof.
  intros Hwf. unfold Heap.on_button_release, on_button_release.
  change (drawing (Heap.value h)) with (Heap.drawing h).
  destruct (negb (b =? 1)%Z || negb (Heap.drawing h));
    [apply sim_refl, Hwf|].
  change (temp_points (set_drawing false (Heap.value h)))
    with (Heap.read (Heap.point_lists (Heap.set_drawing false h))
                    (Heap.temp_points (Heap.set_drawing false h))).
  destruct (Heap.read _ _); cbn [state_of].
  - apply sim_set_drawing, Hwf.
  - unfold Heap.new_point_list. cbv iota beta.
    apply (sim_then h _ _ (Heap.set_modified true) (set_modified true));
      [|intros h0 W0; apply sim_set_modified, W0].
    apply (sim_then h _ _
             (fun h0 => Heap.set_temp_points
                          (fst (Heap.new_point_list [] h0))
                          (snd (Heap.new_point_list [] h0)))
             (set_temp_points []));
      [|intros h0 W0; apply sim_new_draft, W0].
    apply (sim_then h _ _ Heap.add_shape add_shape);
      [|intros h0 W0; apply sim_add_shape, W0].
    apply (sim_then h _ _ Heap.push_undo push_undo);
      [|intros h0 W0; apply sim_push_undo, W0].
    apply sim_set_drawing, Hwf.
Qed.

Lemma sim_on_key (w : World) (keyval state : Z) (h : Heap.Window) :
  Heap.well_formed h ->
  Heap.simulates h (state_of (Heap.on_key w keyval state h))
                 (state_of (on_key w keyval state (Heap.value h))).
Proof.
  intros Hwf. unfold Heap.on_key, on_key. cbn [state_of].
  change (settings (Heap.value h)) with (Heap.settings h).
  unfold Heap.copy_to_clipboard, copy_to_clipboard, Heap.upload, upload.
  repeat break_if;
    auto using sim_refl, sim_set_tool, sim_undo, sim_save_dialog,
      sim_quick_save, sim_close.
Qed.

(** Every callback: the window on the store stays well formed, keeps what
    it stored, and stands for the window the callback on values gives. *)
Lemma sim_dispatch (w : World) (ev : Event) (h : Heap.Window) :
  Heap.well_formed h ->
  Heap.simulates h (Heap.step h (w, ev)) (step (Heap.value h) (w, ev)).
Proof.
  intros Hwf. unfold Heap.step, step. cbn [fst snd].
  destruct ev; cbn [Heap.dispatch dispatch];
    auto using sim_on_button_press, sim_on_motion, sim_on_button_release,
      sim_on_key;
    cbn [state_of];
    unfold Heap.copy_to_clipboard, copy_to_clipboard, Heap.upload, upload;
    auto using sim_refl, sim_set_tool, sim_undo, sim_save_dialog,
      sim_quick_save, sim_close.
Qed.

Lemma init_well_formed (s : ZorinShotSettings) :
  Heap.well_formed (Heap.init s) /\ Heap.value (Heap.init s) = init s.
Proof.
  split; [|reflexivity].
  constructor; cbn.
  - lia.
  - lia.
  - intros l [].
  - intros [].
  - constructor.
  - intros shp l (sl & [<-|[]] & []).
Qed.

Lemma sim_run (evs : list (World * Event)) (h : Heap.Window) :
  Heap.well_formed h ->
  Heap.simulates h (Heap.run evs h) (run evs (Heap.value h)).
Proof.
  revert h. induction evs as [|[w ev] evs IH]; intros h Hwf.
  - apply sim_refl, Hwf.
  - cbn [Heap.run run fold_left].
    destruct (sim_dispatch w ev h Hwf) as (W & L & V).
    eapply simulates_trans; [split; [exact W|split; [exact L|exact V]]|].
    rewrite <- V. apply IH, W.
Qed.

(** *** The claim *)

Lemma committed_stored (h : Heap.Window) (shp : Heap.HShape) :
  Heap.well_formed h -> In shp (Heap.committed h) -> Heap.stored h shp.
Proof.
  intros Hwf Hin. unfold Heap.committed in Hin.
  apply in_app_or in Hin as [Hin|Hin].
  - apply (stored_read h (Heap.shapes h)); [apply Hwf|exact Hin].
  - apply in_concat in Hin as (sl & Hsl & Hin).
    apply in_map_iff in Hsl as (l & <- & Hl).
    apply (stored_read h l); [apply (Heap.wf_stack h Hwf l Hl)|exact Hin].
Qed.

Lemma heap_push_undo_fields (h : Heap.Window) :
  Heap.point_lists (Heap.push_undo h) = Heap.point_lists h
  /\ Heap.temp_points (Heap.push_undo h) = Heap.temp_points h
  /\ Heap.shapes (Heap.push_undo h) = Heap.shapes h
  /\ Heap.current_tool (Heap.push_undo h) = Heap.current_tool h
  /\ Heap.settings (Heap.push_undo h) = Heap.settings h
  /\ Heap.shape_lists (Heap.push_undo h)
     = Heap.shape_lists h ++ [Heap.read (Heap.shape_lists h) (Heap.shapes h)].
Proof.
  unfold Heap.push_undo, Heap.new_shape_list. cbv iota beta.
  break_if; repeat split.
Qed.

(** An accepted pen release stores a new list object with the points of the
    draft. *)
Lemma pen_release_copies (h : Heap.Window) :
  Heap.well_formed h ->
  Heap.drawing h = true -> Heap.current_tool h = TOOL_PEN ->
  (2 <= List.length (Heap.read (Heap.point_lists h)
                               (Heap.temp_points h)))%nat ->
  let h' := state_of (Heap.on_button_release 1 h) in
  let copy := List.length (Heap.point_lists h) in
  Heap.read (Heap.shape_lists h') (Heap.shapes h')
  = Heap.read (Heap.shape_lists h) (Heap.shapes h)
    ++ [Heap.HPenStroke copy (default_pen_width (Heap.settings h))
                        (get_default_color (Heap.settings h))]
  /\ copy <> Heap.temp_points h
  /\ Heap.read (Heap.point_lists h') copy
     = Heap.read (Heap.point_lists h) (Heap.temp_points h)
  /\ Heap.temp_points h' <> copy.
Proof.
  intros Hwf Hd Ht Hlen h' copy. subst h'.
  unfold Heap.on_button_release. rewrite Hd. cbn [negb orb Z.eqb Pos.eqb].
  change (Heap.read (Heap.point_lists (Heap.set_drawing false h))
                    (Heap.temp_points (Heap.set_drawing false h)))
    with (Heap.read (Heap.point_lists h) (Heap.temp_points h)).
  set (pts := Heap.read (Heap.point_lists h) (Heap.temp_points h)) in *.
  destruct pts as [|p0 pts'] eqn:Epts; [cbn in Hlen; lia|].
  rewrite <- Epts in *. clear Epts p0 pts'.
  set (h1 := Heap.set_drawing false h).
  destruct (heap_push_undo_fields h1) as (Hp & Htp & Hs & Hc & Hset & Hsl).
  set (h2 := Heap.push_undo h1) in *.
  unfold Heap.add_shape. rewrite Hc, Hp, Htp, Hset.
  change (Heap.current_tool h1) with (Heap.current_tool h).
  change (Heap.point_lists h1) with (Heap.point_lists h) in *.
  change (Heap.temp_points h1) with (Heap.temp_points h) in *.
  change (Heap.settings h1) with (Heap.settings h) in *.
  change (Heap.shapes h1) with (Heap.shapes h) in *.
  change (Heap.shape_lists h1) with (Heap.shape_lists h) in *.
  fold pts. rewrite Ht.
  change ((TOOL_PEN =? TOOL_PEN)%string) with true.
  apply Nat.leb_le in Hlen. rewrite Hlen. cbn [andb].
  unfold Heap.new_point_list. rewrite Hp. cbv iota beta.
  unfold Heap.shapes_append.
  cbn [state_of Heap.shape_lists Heap.shapes Heap.point_lists
       Heap.temp_points Heap.settings Heap.set_modified
       Heap.set_temp_points Heap.set_point_lists Heap.set_shape_lists].
  rewrite Hs, Hsl, Hset.
  pose proof (Heap.wf_shapes h Hwf) as Hsh.
  pose proof (Heap.wf_temp h Hwf) as Htmp.
  repeat split.
  - rewrite read_write_same by (rewrite length_app; lia).
    rewrite read_old by exact Hsh. reflexivity.
  - unfold copy. lia.
  - rewrite read_old by (rewrite length_app; cbn; lia).
    apply read_new.
  - rewrite length_app. cbn. unfold copy. lia.
Qed.

(** A handled release leaves an empty draft. *)
Lemma release_clears_draft (b : Z) (h : Heap.Window) :
  was_handled (Heap.on_button_release b h) = true ->
  let h' := state_of (Heap.on_button_release b h) in
  Heap.read (Heap.point_lists h') (Heap.temp_points h') = [].
Proof.
  unfold Heap.on_button_release.
  destruct (negb (b =? 1)%Z || negb (Heap.drawing h)); [discriminate|].
  destruct (Heap.read _ _) eqn:E; cbn [was_handled state_of]; intros _.
  - exact E.
  - unfold Heap.new_point_list. cbv iota beta.
    cbn [Heap.point_lists Heap.temp_points Heap.set_modified
         Heap.set_temp_points Heap.set_point_lists].
    apply read_new.
Qed.

(** C10. In the model with list objects in a store, started from a new
    window: whatever callbacks run later, every shape held by the committed
    list or by an undo snapshot keeps its geometry. The store model and the
    value model agree on every state. An accepted pen release stores a new
    list object holding the points of the draft, not the draft itself, and
    the draft is rebound to another new object; every handled release
    leaves an empty draft, whether or not a shape was accepted. *)
Theorem C10_committed_shapes_immutable (s : ZorinShotSettings)
        (before after : list (World * Event)) :
  let h := Heap.run before (Heap.init s) in
  let h' := Heap.run after h in
  (forall shp,
      In shp (Heap.committed h) ->
      Heap.geometry (Heap.point_lists h') shp
      = Heap.geometry (Heap.point_lists h) shp)
  /\ Heap.value h = run before (init s)
  /\ (Heap.drawing h = true -> Heap.current_tool h = TOOL_PEN ->
      (2 <= List.length (Heap.read (Heap.point_lists h)
                                   (Heap.temp_points h)))%nat ->
      let h1 := state_of (Heap.on_button_release 1 h) in
      let copy := List.length (Heap.point_lists h) in
      Heap.read (Heap.shape_lists h1) (Heap.shapes h1)
      = Heap.read (Heap.shape_lists h) (Heap.shapes h)
        ++ [Heap.HPenStroke copy (default_pen_width (Heap.settings h))
                            (get_default_color (Heap.settings h))]
      /\ copy <> Heap.temp_points h
      /\ Heap.read (Heap.point_lists h1) copy
         = Heap.read (Heap.point_lists h) (Heap.temp_points h)
      /\ Heap.temp_points h1 <> copy)
  /\ (forall b,
        was_handled (Heap.on_button_release b h) = true ->
        let h1 := state_of (Heap.on_button_release b h) in
        Heap.read (Heap.point_lists h1) (Heap.temp_points h1) = []).
Proof.
  intros h h'.
  destruct (init_well_formed s) as [Hwf0 Hv0].
  destruct (sim_run before (Heap.init s) Hwf0) as (Hwf & _ & Hv).
  fold h in Hwf, Hv.
  destruct (sim_run after h Hwf) as (_ & Hlater & _). fold h' in Hlater.
  split; [|split; [|split]].
  - intros shp Hin. apply Hlater. apply committed_stored; assumption.
  - rewrite Hv, Hv0. reflexivity.
  - intros Hd Ht Hlen. apply pen_release_copies; assumption.
  - intros b Hb. apply release_clears_draft. exact Hb.
Qed.

(** C10 at work: a pen stroke through (0,0), (1,0), (2,0) is released; the
    committed stroke refers to list object 2 while the draft was object 1,
    and a later pen drag and an undo leave its points as they were. *)
Lemma C10_committed_shapes_immutable_witness :
  let s := default_settings in
  let before := [(quiet, ClickTool TOOL_PEN); (quiet, ButtonPress 1 0 0);
                 (quiet, MotionNotify 1 0); (quiet, MotionNotify 2 0)] in
  let h := Heap.run before (Heap.init s) in
  let h1 := state_of (Heap.on_button_release 1 h) in
  let later := (quiet, ButtonRelease 1) :: gesture (5, 5) [(6, 6); (7, 7)]
               ++ [(quiet, ClickUndo)] in
  Heap.drawing h = true
  /\ Heap.current_tool h = TOOL_PEN
  /\ Heap.read (Heap.point_lists h) (Heap.temp_points h)
     = [(0, 0); (1, 0); (2, 0)]
  /\ Heap.temp_points h = 1%nat
  /\ Heap.read (Heap.shape_lists h1) (Heap.shapes h1)
     = [Heap.HPenStroke 2%nat 3 (153, 51, 255, 242)%Z]
  /\ Heap.read (Heap.point_lists h1) 2%nat = [(0, 0); (1, 0); (2, 0)]
  /\ Heap.read (Heap.point_lists h1) (Heap.temp_points h1) = []
  /\ Heap.read (Heap.point_lists (Heap.run later h)) 2%nat
     = [(0, 0); (1, 0); (2, 0)].
Proof.
  intros s before h h1 later.
  destruct (C10_committed_shapes_immutable s before [])
    as (_ & _ & Hcopy & Hclear).
  fold h in Hcopy, Hclear.
  assert (Hd : Heap.drawing h = true) by reflexivity.
  assert (Ht : Heap.current_tool h = TOOL_PEN) by reflexivity.
  assert (Hlen : (2 <= List.length (Heap.read (Heap.point_lists h)
                                              (Heap.temp_points h)))%nat)
    by (cbn; lia).
  destruct (Hcopy Hd Ht Hlen) as (Hshapes & _ & Hpoints & _).
  repeat match goal with |- _ /\ _ => split end.
  - exact Hd.
  - exact Ht.
  - reflexivity.
  - reflexivity.
  - exact Hshapes.
  - exact Hpoints.
  - apply (Hclear 1%Z). reflexivity.
  - reflexivity.
Defined.

(** * Further properties of the editor *)

(** ** Whole gestures *)

Lemma tracked_pen (p : Point) (moves : list Point) :
  tracked TOOL_PEN p moves = p :: moves.
Proof. reflexivity. Qed.

Lemma tracked_arrow (p q : Point) (moves : list Point) :
  tracked TOOL_ARROW p (moves ++ [q]) = [p; q].
Proof.
  unfold tracked. change ((TOOL_ARROW =? TOOL_PEN)%string) with false.
  cbn iota. destruct (moves ++ [q]) eqn:E.
  - destruct moves; discriminate.
  - rewrite <- E, last_last. reflexivity.
Qed.

Lemma add_shape_current_tool (st : EditorWindow) :
  current_tool (add_shape st) = current_tool st.
Proof.
  unfold add_shape.
  destruct (hd _ _) as [x1 y1], (last _ _) as [x2 y2].
  repeat break_if; reflexivity.
Qed.

(** The fields a gesture with a drawing tool leaves besides the shapes. *)
Lemma run_gesture_fields (p : Point) (moves : list Point)
      (st : EditorWindow) :
  (current_tool st =? TOOL_TEXT)%string = false ->
  let st' := run (gesture p moves) st in
  temp_points st' = [] /\ drawing st' = false /\ modified st' = true
  /\ current_tool st' = current_tool st /\ settings st' = settings st.
Proof.
  intros Ht st'. subst st'. rewrite run_gesture_drawing_tool by exact Ht.
  cbn [temp_points drawing modified current_tool settings set_modified
       set_temp_points].
  rewrite add_shape_drawing, push_undo_drawing, add_shape_settings,
    push_undo_settings.
  rewrite add_shape_current_tool, push_undo_current_tool.
  repeat split.
Qed.





(** ** Clicks with the text tool and with other buttons *)

(** Pointer-moves outside a drag are not handled. *)
Lemma run_moves_idle (moves : list Point) (st : EditorWindow) :
  drawing st = false -> run (moves_events moves) st = st.
Proof.
  intros Hd. induction moves as [|[x y] moves IH]; [reflexivity|].
  cbn [moves_events map run fold_left].
  change (fold_left step (map _ moves) ?s) with (run (moves_events moves) s).
  unfold step at 1. cbn [fst snd dispatch]. unfold on_motion.
  rewrite Hd. cbn [negb state_of]. exact IH.
Qed.

Lemma create_text_at_temp_points (w : World) (x y : R) (st : EditorWindow) :
  temp_points (create_text_at w x y st) = temp_points st.
Proof.
  unfold create_text_at. repeat break_if; try reflexivity.
  cbn. apply push_undo_temp_points.
Qed.

(** X3. With the text tool the whole click is the pointer-down: the text
    dialog runs inside the press handler, which ends the drag itself, so
    the pointer-moves and the pointer-up that follow are not handled and
    push no snapshot. The draft keeps the clicked point. When the dialog is
    cancelled or the text is blank, the shapes, the history and the
    modified flag are what they were before the click. *)
Theorem X3_text_click_is_the_press (st : EditorWindow) (w : World)
        (x y : R) (moves : list Point) :
  current_tool st = TOOL_TEXT ->
  let st' := run (text_click w x y moves) st in
  st' = state_of (on_button_press w 1 x y st)
  /\ drawing st' = false
  /\ temp_points st' = [(x, y)]
  /\ (text_dialog_ok w = false \/ strip (entry_text w) = EmptyString ->
      shapes st' = shapes st /\ undo_stack st' = undo_stack st
      /\ modified st' = modified st).
Proof.
  intros Ht st'.
  assert (Hrun : st' = state_of (on_button_press w 1 x y st)).
  { subst st'. unfold text_click.
    change ((w, ButtonPress 1 x y) :: ?l)
      with ([(w, ButtonPress 1 x y)] ++ l).
    rewrite !run_app.
    change (run [(w, ButtonPress 1 x y)] st)
      with (state_of (on_button_press w 1 x y st)).
    rewrite on_button_press_text_tool by exact Ht. cbn [state_of].
    rewrite run_moves_idle by reflexivity.
    change (run [(quiet, ButtonRelease 1)] ?s)
      with (state_of (on_button_release 1 s)).
    unfold on_button_release. cbn [drawing set_drawing negb].
    rewrite orb_true_r. reflexivity. }
  rewrite Hrun. rewrite on_button_press_text_tool by exact Ht.
  cbn [state_of drawing temp_points shapes undo_stack modified set_drawing].
  rewrite create_text_at_temp_points.
  split; [reflexivity|split; [reflexivity|split; [reflexivity|]]].
  intros Hrej. rewrite create_text_at_rejected.
  - repeat split.
  - destruct Hrej as [Hc|He]; [left; exact Hc|right].
    rewrite He. reflexivity.
Qed.

Lemma X3_text_click_is_the_press_witness :
  let st := set_tool TOOL_TEXT (init default_settings) in
  let st' := run (text_click (typing "   ") 4 5 [(6, 7)]) st in
  temp_points st' = [(4, 5)] /\ undo_stack st' = [] /\ modified st' = false.
Proof.
  intros st st'.
  assert (Ht : current_tool st = TOOL_TEXT) by reflexivity.
  destruct (X3_text_click_is_the_press st (typing "   ") 4 5 [(6, 7)] Ht)
    as (_ & _ & Hp & Hrej).
  destruct Hrej as (_ & Hu & Hm); [right; reflexivity|].
  split; [exact Hp|split; [exact Hu|exact Hm]].
Defined.

(** X4. Only the primary button draws. A pointer-down or pointer-up of any
    other button is left unhandled and changes nothing, also in the middle
    of a drag with the primary button; outside a drag a whole gesture with
    another button (down, moves, up) leaves the window as it was. *)
Theorem X4_other_buttons_ignored (st : EditorWindow) (w : World) (b : Z)
        (p : Point) (moves : list Point) :
  b <> 1%Z ->
  dispatch w (ButtonPress b (fst p) (snd p)) st = Returned false st
  /\ dispatch w (ButtonRelease b) st = Returned false st
  /\ (drawing st = false -> run (button_gesture b p moves) st = st).
Proof.
  intros Hb.
  assert (Hb' : (b =? 1)%Z = false) by (apply Z.eqb_neq; exact Hb).
  assert (Hpress : forall w', dispatch w' (ButtonPress b (fst p) (snd p)) st
                              = Returned false st).
  { intros w'. cbn [dispatch]. unfold on_button_press. rewrite Hb'.
    reflexivity. }
  assert (Hrel : dispatch w (ButtonRelease b) st = Returned false st).
  { cbn [dispatch]. unfold on_button_release. rewrite Hb'. reflexivity. }
  split; [apply Hpress|split; [exact Hrel|]].
  intros Hd. unfold button_gesture. cbn [run fold_left].
  change (fold_left step ?l ?s) with (run l s).
  unfold step at 1. cbn [fst snd]. rewrite Hpress. cbn [state_of].
  rewrite run_app, run_moves_idle by exact Hd.
  cbn [run fold_left]. unfold step. cbn [fst snd dispatch].
  unfold on_button_release. rewrite Hb'. reflexivity.
Qed.

Lemma X4_other_buttons_ignored_witness :
  let st := init default_settings in
  run (button_gesture 3 (1, 1) [(2, 2); (3, 3)]) st = st.
Proof.
  intros st.
  assert (Hb : 3%Z <> 1%Z) by lia.
  destruct (X4_other_buttons_ignored st quiet 3 (1, 1) [(2, 2); (3, 3)] Hb)
    as (_ & _ & H).
  apply H. reflexivity.
Defined.

(** ** Undo over several commits *)

(** One accepted commit below the limit: the snapshot goes on top of the
    history and one shape is appended. *)
Lemma commit_exact (c : Commit) (st : EditorWindow) :
  commit_accepted c = true ->
  (history_len st < max_undo_levels (settings st))%Z ->
  let st' := run (commit_events c) st in
  undo_stack st' = undo_stack st ++ [shapes st]
  /\ (exists shp, shapes st' = shapes st ++ [shp])
  /\ max_undo_levels (settings st') = max_undo_levels (settings st).
Proof.
  intros Hacc Hlt st'. subst st'.
  assert (Hpush : forall st2,
             undo_stack st2 = undo_stack st -> shapes st2 = shapes st ->
             max_undo_levels (settings st2) = max_undo_levels (settings st) ->
             undo_stack (push_undo st2) = undo_stack st ++ [shapes st]).
  { intros st2 Hu Hs Hm. rewrite push_undo_stack, Hu, Hs, Hm.
    unfold history_len in Hlt. rewrite length_app. cbn [List.length].
    destruct (Z.ltb_spec (max_undo_levels (settings st))
                (Z.of_nat (List.length (undo_stack st) + 1)));
      [lia|reflexivity]. }
  destruct c as [tool p moves|x y text]; cbn [commit_accepted] in Hacc.
  - apply andb_true_iff in Hacc as [Htool Hmoves].
    assert (Hne : moves <> []) by (destruct moves; discriminate).
    cbn [commit_events].
    change (?a :: gesture p moves) with ([a] ++ gesture p moves).
    rewrite run_app. cbn [run fold_left step fst snd dispatch state_of].
    destruct (set_tool_current tool st) as (Hc & Hs & Hu & _ & _ & _ & Hm).
    set (st1 := set_tool tool st) in *.
    rewrite run_gesture_drawing_tool
      by (rewrite Hc; apply drawing_tool_not_text, Htool).
    set (st2 := set_drawing false _).
    assert (Hacc2 : release_accepts (push_undo st2) = true).
    { unfold release_accepts.
      rewrite push_undo_current_tool, push_undo_temp_points.
      unfold st2. cbn [current_tool temp_points set_drawing set_temp_points].
      rewrite Hc, Htool. cbn [andb].
      apply Nat.leb_le, tracked_length, Hne. }
    cbn [undo_stack shapes settings set_modified set_temp_points].
    rewrite add_shape_undo_stack, add_shape_settings, push_undo_settings.
    split; [|split].
    + apply Hpush; unfold st2; cbn; assumption.
    + destruct (add_shape_shapes (push_undo st2))
        as [[_ [shp Hshp]]|[Hrej _]]; [|congruence].
      exists shp. rewrite Hshp, push_undo_shapes. unfold st2. cbn.
      rewrite Hs. reflexivity.
    + unfold st2. cbn. exact Hm.
  - cbn [commit_events run fold_left step fst snd dispatch state_of].
    destruct (set_tool_current TOOL_TEXT st) as (Hc & Hs & Hu & _ & _ & _ & Hm).
    set (st1 := set_tool TOOL_TEXT st) in *.
    unfold step. cbn [fst snd dispatch].
    rewrite on_button_press_text_tool by exact Hc. cbn [state_of].
    rewrite create_text_at_accepted by (cbn; auto).
    set (st2 := set_temp_points _ _).
    cbn [undo_stack shapes settings set_modified set_shapes set_drawing].
    rewrite push_undo_settings, push_undo_shapes.
    split; [|split].
    + apply Hpush; unfold st2; cbn; assumption.
    + eexists. unfold st2. cbn. rewrite Hs. reflexivity.
    + unfold st2. cbn. exact Hm.
Qed.

(** Accepted commits that fit into the history stack their snapshots on
    top of it, the oldest one being the shapes they started from. *)
Lemma commits_exact (cs : list Commit) (st : EditorWindow) :
  forallb commit_accepted cs = true ->
  (history_len st + Z.of_nat (List.length cs)
   <= max_undo_levels (settings st))%Z ->
  exists snaps,
    undo_stack (run (List.concat (map commit_events cs)) st)
    = undo_stack st ++ snaps
    /\ List.length snaps = List.length cs
    /\ (cs <> [] -> hd [] snaps = shapes st).
Proof.
  revert st. induction cs as [|c cs IH]; intros st Hacc Hfit.
  - exists []. cbn. rewrite app_nil_r. repeat split. congruence.
  - cbn [forallb] in Hacc. apply andb_true_iff in Hacc as [Hc Hcs].
    cbn [List.length] in Hfit.
    cbn [map List.concat]. rewrite run_app.
    destruct (commit_exact c st Hc) as (Hu & _ & Hm); [lia|].
    set (st1 := run (commit_events c) st) in *.
    destruct (IH st1 Hcs) as (snaps & Hs & Hl & _).
    { unfold history_len in *. rewrite Hu, Hm, length_app.
      cbn [List.length]. lia. }
    exists (shapes st :: snaps). rewrite Hs, Hu, <- app_assoc.
    cbn [app List.length hd]. repeat split. congruence.
Qed.

(** As many [undo] calls as there are snapshots on top of [base] pop them
    all and leave the oldest as the shape list. *)
Lemma undo_times_pops (snaps base : list (list Shape)) (st : EditorWindow) :
  undo_stack st = base ++ snaps -> snaps <> [] ->
  shapes (undo_times (List.length snaps) st) = hd [] snaps
  /\ undo_stack (undo_times (List.length snaps) st) = base.
Proof.
  revert st. induction snaps as [|top snaps IH] using rev_ind;
    intros st Hs Hne; [contradiction|].
  rewrite length_app, Nat.add_comm. cbn [List.length Nat.add].
  unfold undo_times. rewrite Nat.iter_succ_r.
  change (Nat.iter ?n undo ?s) with (undo_times n s).
  rewrite app_assoc in Hs. rewrite (undo_nonempty st _ _ Hs).
  destruct snaps as [|s0 snaps'].
  - cbn. rewrite app_nil_r. split; reflexivity.
  - apply IH; [reflexivity|discriminate].
Qed.

(** X5. Undo goes back as many steps as were committed. After any number
    of accepted commits (drags with a drawing tool and confirmed texts, in
    any order) that fit into the history, the same number of [undo] calls
    restores the shape list and the history the commits started from. *)
Theorem X5_undo_restores_start (cs : list Commit) (st : EditorWindow) :
  forallb commit_accepted cs = true ->
  (history_len st + Z.of_nat (List.length cs)
   <= max_undo_levels (settings st))%Z ->
  let st' := run (List.concat (map commit_events cs)) st in
  shapes (undo_times (List.length cs) st') = shapes st
  /\ undo_stack (undo_times (List.length cs) st') = undo_stack st.
Proof.
  intros Hacc Hfit st'. subst st'.
  destruct cs as [|c cs'] eqn:E; [split; reflexivity|]. rewrite <- E in *.
  destruct (commits_exact cs st Hacc Hfit) as (snaps & Hs & Hl & Hh).
  assert (Hne : snaps <> []).
  { intros ->. rewrite E in Hl. discriminate. }
  rewrite <- Hl.
  destruct (undo_times_pops snaps (undo_stack st) _ Hs Hne) as [H1 H2].
  rewrite H1, H2, Hh; [split; reflexivity|]. rewrite E. discriminate.
Qed.

Lemma X5_undo_restores_start_witness :
  let cs := [DragCommit TOOL_PEN (0, 0) [(1, 1)]; TextCommit 2 2 "ok";
             DragCommit TOOL_RECT (3, 3) [(4, 5)]] in
  let st' := run (List.concat (map commit_events cs)) (init default_settings) in
  shapes (undo_times 3 st') = [] /\ undo_stack (undo_times 3 st') = [].
Proof.
  intros cs st'.
  apply (X5_undo_restores_start cs (init default_settings)).
  - reflexivity.
  - cbn. lia.
Defined.

(** ** What no reachable state does *)

(** X6. In every state a new window can reach, the pointer-move handler
    returns: the index assignment [self.temp_points[1] = (x, y)] never
    fails, because a drag always holds the pressed point. The handler
    reports the move as handled exactly during a drag, and it touches
    neither the committed shapes, the history nor the modified flag. *)
Theorem X6_motion_never_raises (evs : list (World * Event))
        (s : ZorinShotSettings) (x y : R) :
  let st := run evs (init s) in
  exists st',
    on_motion x y st = Returned (drawing st) st'
    /\ shapes st' = shapes st
    /\ undo_stack st' = undo_stack st
    /\ modified st' = modified st.
Proof.
  intros st. pose proof (run_draft_present evs s) as Hdp. fold st in Hdp.
  unfold on_motion. destruct (drawing st) eqn:Hd; cbn [negb].
  - specialize (Hdp Hd).
    destruct (current_tool st =? TOOL_PEN)%string;
      [eexists; repeat split; reflexivity|].
    destruct (temp_points st) as [|p [|q t]] eqn:E.
    + contradiction.
    + cbn. eexists; repeat split; reflexivity.
    + cbn. eexists; repeat split; reflexivity.
  - exists st. repeat split.
Qed.

(** X7. Closing cannot be cancelled and does not wait for a save that
    worked: the close button and the Escape key (with any modifiers) mark
    the window closed whatever the user answers and whether or not the save
    raises. When the save raises, the window closes with its shapes and
    with the modified flag as they were. *)
Theorem X7_close_always_closes (w : World) (state : Z) (st : EditorWindow) :
  let by_button := step st (w, ClickClose) in
  let by_key := step st (w, KeyPress KEY_Escape state) in
  by_key = by_button
  /\ closed by_button = true
  /\ shapes by_button = shapes st
  /\ (save_raises w = true -> modified by_button = modified st).
Proof.
  intros by_button by_key. subst by_button by_key.
  unfold step. cbn [fst snd dispatch state_of].
  split; [|split; [reflexivity|split]].
  - unfold on_key. cbn [state_of].
    change ((KEY_Escape =? KEY_P)%Z) with false.
    change ((KEY_Escape =? KEY_p)%Z) with false.
    change ((KEY_Escape =? KEY_R)%Z) with false.
    change ((KEY_Escape =? KEY_r)%Z) with false.
    change ((KEY_Escape =? KEY_A)%Z) with false.
    change ((KEY_Escape =? KEY_a)%Z) with false.
    change ((KEY_Escape =? KEY_T)%Z) with false.
    change ((KEY_Escape =? KEY_t)%Z) with false.
    change ((KEY_Escape =? KEY_z)%Z) with false.
    change ((KEY_Escape =? KEY_s)%Z) with false.
    change ((KEY_Escape =? KEY_c)%Z) with false.
    change ((KEY_Escape =? KEY_Return)%Z) with false.
    change ((KEY_Escape =? KEY_Escape)%Z) with true.
    cbn [orb]. rewrite !andb_false_r. reflexivity.
  - unfold close, on_close, quick_save, save_dialog, save_succeeded.
    repeat break_if; reflexivity.
  - intros Hr. unfold close. cbn [modified set_closed].
    unfold on_close. repeat break_if; try reflexivity.
    + apply (f_equal modified),
        (proj1 (failed_save_keeps_window w st Hr)).
    + apply (f_equal modified),
        (proj2 (failed_save_keeps_window w st Hr)).
Qed.

Lemma X7_close_always_closes_witness :
  let w := {| text_dialog_ok := false; entry_text := "";
              file_chosen := true; save_raises := true;
              confirm_save_yes := true |} in
  let st := run (gesture (0, 0) [(5, 5)]) (init default_settings) in
  closed (step st (w, ClickClose)) = true
  /\ modified (step st (w, ClickClose)) = true.
Proof.
  intros w st.
  destruct (X7_close_always_closes w 0 st) as (_ & Hc & _ & Hm).
  split; [exact Hc|]. rewrite Hm; reflexivity.
Defined.


(** ** The history in the store model *)

(** X9. In the model with list objects: in every state a new window can
    reach, the list object of [self.shapes] is none of the snapshots on the
    undo stack and no snapshot is on the stack twice, so appending a shape
    to [self.shapes] changes the content of no snapshot. *)
Theorem X9_snapshots_not_aliased (s : ZorinShotSettings)
        (evs : list (World * Event)) (shp : Heap.HShape) :
  let h := Heap.run evs (Heap.init s) in
  ~ In (Heap.shapes h) (Heap.undo_stack h)
  /\ NoDup (Heap.undo_stack h)
  /\ forall l, In l (Heap.undo_stack h) ->
               Heap.read (Heap.shape_lists (Heap.shapes_append shp h)) l
               = Heap.read (Heap.shape_lists h) l.
Proof.
  intros h.
  destruct (init_well_formed s) as [Hwf0 _].
  destruct (sim_run evs (Heap.init s) Hwf0) as (Hwf & _ & _). fold h in Hwf.
  split; [apply Hwf|split; [apply Hwf|]].
  intros l Hl. unfold Heap.shapes_append. cbn [Heap.shape_lists
    Heap.set_shape_lists].
  apply read_write_other. intros He. apply (Heap.wf_no_alias h Hwf).
  rewrite He. exact Hl.
Qed.

(** ** The two renderers *)

Lemma exec_all_app (cr : Cairo.Context) (a b : list Cairo.Call) :
  Cairo.exec_all cr (a ++ b)
  = match Cairo.exec_all cr a with
    | Some cr' => Cairo.exec_all cr' b
    | None => None
    end.
Proof.
  revert cr. induction a as [|c a IH]; intros cr; cbn; [reflexivity|].
  destruct (Cairo.exec cr c); [apply IH|reflexivity].
Qed.

(** The [line_to] calls of a stroke join each point to the next. *)
Lemma exec_lines (rest : list Point) (p : Point) (pending ink : list Mark) :
  Cairo.exec_all (Cairo.mkContext (Cairo.At p) pending ink)
    (map (fun q => Cairo.line_to (fst q) (snd q)) rest ++ [Cairo.stroke])
  = Some (Cairo.mkContext Cairo.NoPoint []
            (ink ++ pending ++ segments (p :: rest))).
Proof.
  revert p pending. induction rest as [|[x y] rest IH]; intros p pending.
  - cbn. rewrite app_nil_r. reflexivity.
  - cbn [map app Cairo.exec_all Cairo.exec Cairo.current_point Cairo.path
         Cairo.inked fst snd].
    rewrite IH. cbn [segments]. rewrite <- app_assoc. reflexivity.
Qed.

Lemma exec_polyline (p : Point) (rest : list Point) (c : Cairo.Position)
      (ink : list Mark) :
  Cairo.exec_all (Cairo.mkContext c [] ink) (Cairo.polyline (p :: rest))
  = Some (Cairo.mkContext Cairo.NoPoint [] (ink ++ segments (p :: rest))).
Proof.
  cbn [Cairo.polyline Cairo.exec_all Cairo.exec Cairo.path Cairo.inked].
  destruct p as [x y]. cbn [fst snd]. rewrite exec_lines. reflexivity.
Qed.

(** The calls of [draw_arrow] stroke the three segments of the arrow. *)
Lemma exec_draw_arrow (x1 y1 x2 y2 width : R) (c : Cairo.Position)
      (ink : list Mark) :
  Cairo.exec_all (Cairo.mkContext c [] ink)
                 (Cairo.draw_arrow x1 y1 x2 y2 width)
  = Some (Cairo.mkContext Cairo.NoPoint []
            (ink ++ arrow_lines x1 y1 x2 y2 width)).
Proof.
  unfold Cairo.draw_arrow, arrow_lines, draw_arrow.
  cbn [Cairo.exec_all Cairo.exec Cairo.current_point Cairo.path Cairo.inked
       app map fst snd].
  rewrite <- !app_assoc. reflexivity.
Qed.

Lemma exec_draw_shape (shp : Shape) (c : Cairo.Position) (ink : list Mark) :
  exists c',
    Cairo.exec_all (Cairo.mkContext c [] ink) (Cairo.draw_shape shp)
    = Some (Cairo.mkContext c' [] (ink ++ shape_marks shp)).
Proof.
  unfold Cairo.draw_shape. destruct (shape_color shp) as [[[r g] b] a].
  destruct shp as [pts width col|x y w h width col|x1 y1 x2 y2 width col
                   |x y text size col];
    cbn [Cairo.exec_all Cairo.exec shape_marks].
  - destruct (2 <=? List.length pts)%nat eqn:E.
    + destruct pts as [|p rest]; [discriminate|].
      rewrite exec_polyline. eexists. reflexivity.
    + cbn. rewrite app_nil_r. eexists. reflexivity.
  - cbn [Cairo.path Cairo.inked app]. eexists. reflexivity.
  - change (Cairo.set_line_width width :: ?l)
      with (Cairo.draw_arrow x1 y1 x2 y2 width).
    rewrite exec_draw_arrow. eexists. reflexivity.
  - cbn [Cairo.path Cairo.inked]. rewrite app_nil_r. eexists. reflexivity.
Qed.

Lemma exec_shapes (shps : list Shape) (c : Cairo.Position)
      (ink : list Mark) :
  exists c',
    Cairo.exec_all (Cairo.mkContext c [] ink)
                   (flat_map Cairo.draw_shape shps)
    = Some (Cairo.mkContext c' [] (ink ++ flat_map shape_marks shps)).
Proof.
  revert c ink. induction shps as [|shp shps IH]; intros c ink.
  - exists c. cbn. rewrite app_nil_r. reflexivity.
  - cbn [flat_map]. rewrite exec_all_app.
    destruct (exec_draw_shape shp c ink) as [c1 ->].
    destruct (IH c1 (ink ++ shape_marks shp)) as [c2 ->].
    exists c2. rewrite <- app_assoc. reflexivity.
Qed.

Lemma exec_draw_draft (st : EditorWindow) (c : Cairo.Position)
      (ink : list Mark) :
  exists c',
    Cairo.exec_all (Cairo.mkContext c [] ink) (Cairo.draw_draft st)
    = Some (Cairo.mkContext c' [] (ink ++ draft_marks st)).
Proof.
  unfold Cairo.draw_draft, draft_marks.
  destruct (temp_points st) as [|p rest] eqn:E.
  - exists c. cbn. rewrite app_nil_r. reflexivity.
  - cbn [Cairo.exec_all Cairo.exec].
    destruct (2 <=? List.length (p :: rest))%nat eqn:Hlen.
    + destruct (hd (0, 0) (p :: rest)) as [x1 y1].
      destruct (last (p :: rest) (0, 0)) as [x2 y2].
      destruct (current_tool st =? TOOL_PEN)%string eqn:Hpen.
      * cbn [andb Cairo.exec_all Cairo.exec]. rewrite exec_polyline.
        eexists. reflexivity.
      * cbn [andb orb].
        destruct (current_tool st =? TOOL_RECT)%string eqn:Hrect.
        -- cbn [orb andb Cairo.exec_all Cairo.exec Cairo.path Cairo.inked
                app]. eexists. reflexivity.
        -- cbn [orb].
           destruct (current_tool st =? TOOL_ARROW)%string eqn:Harrow.
           ++ cbn [andb]. rewrite exec_draw_arrow. eexists. reflexivity.
           ++ cbn. rewrite app_nil_r. eexists. reflexivity.
    + rewrite !andb_false_r. cbn. rewrite app_nil_r. eexists. reflexivity.
Qed.

(** What [on_draw] strokes: the marks of the committed shapes, then those
    of the draft. *)
Lemma marks_on_draw (st : EditorWindow) :
  Cairo.marks (Cairo.on_draw st)
  = Some (flat_map shape_marks (shapes st) ++ draft_marks st).
Proof.
  unfold Cairo.marks, Cairo.on_draw.
  cbn [app Cairo.exec_all Cairo.exec].
  rewrite exec_all_app.
  destruct (exec_shapes (shapes st) Cairo.NoPoint []) as [c1 ->].
  destruct (exec_draw_draft st c1 ([] ++ flat_map shape_marks (shapes st)))
    as [c2 ->].
  reflexivity.
Qed.

(** The index loop of the export joins each point to the next. *)
Lemma index_loop_segments (pts : list Point) :
  flat_map (fun i => [Line (nth i pts (0, 0)) (nth (i + 1) pts (0, 0))])
           (seq 0 (List.length pts - 1))
  = segments pts.
Proof.
  induction pts as [|p rest IH]; [reflexivity|].
  cbn [List.length]. rewrite Nat.sub_succ, Nat.sub_0_r.
  destruct rest as [|q rest']; [reflexivity|].
  change (segments (p :: q :: rest'))
    with (Line p q :: segments (q :: rest')).
  cbn [List.length] in IH. rewrite Nat.sub_succ, Nat.sub_0_r in IH.
  rewrite <- IH.
  cbn [List.length seq flat_map app nth Nat.add].
  f_equal. rewrite <- seq_shift, flat_map_concat_map, map_map,
    <- flat_map_concat_map.
  apply flat_map_ext. intros i. reflexivity.
Qed.

Lemma on_screen_segments (pts : list Point) :
  map on_screen (segments pts) = segments pts.
Proof.
  induction pts as [|p [|q rest] IH]; try reflexivity.
  cbn [segments map on_screen]. f_equal. exact IH.
Qed.

(** The export of a shape, moved to the screen, is what the screen shows
    of it. *)
Lemma export_shape_marks (font : option PIL.Font) (shp : Shape) :
  map on_screen (PIL.marks (PIL.save_shape font shp)) = shape_marks shp.
Proof.
  destruct shp as [pts width col|x y w h width col|x1 y1 x2 y2 width col
                   |x y text size col]; cbn [PIL.save_shape shape_marks].
  - destruct (2 <=? List.length pts)%nat; [|reflexivity].
    unfold PIL.marks. rewrite flat_map_concat_map, map_map,
      <- flat_map_concat_map.
    rewrite <- (on_screen_segments pts), <- index_loop_segments.
    f_equal. apply flat_map_ext. intros i.
    destruct (nth i pts (0, 0)), (nth (i + 1) pts (0, 0)). reflexivity.
  - cbn [PIL.marks flat_map app map on_screen].
    replace (x + w + 0.5) with (x + 0.5 + w) by ring.
    replace (y + h + 0.5) with (y + 0.5 + h) by ring.
    reflexivity.
  - reflexivity.
  - reflexivity.
Qed.

Lemma export_marks (font : option PIL.Font) (shps : list Shape) :
  map on_screen (PIL.marks (flat_map (PIL.save_shape font) shps))
  = flat_map shape_marks shps.
Proof.
  induction shps as [|shp shps IH]; [reflexivity|].
  cbn [flat_map]. unfold PIL.marks in *. rewrite flat_map_app, map_app, IH.
  f_equal. apply export_shape_marks.
Qed.

Lemma segments_nonempty (p q : Point) (rest : list Point) :
  segments (p :: q :: rest) <> [].
Proof. discriminate. Qed.

(** The draft strokes something exactly when a release would accept it. *)
Lemma draft_marks_empty (st : EditorWindow) :
  draft_marks st = [] <-> release_accepts st = false.
Proof.
  unfold draft_marks, release_accepts.
  destruct (2 <=? List.length (temp_points st))%nat eqn:Hlen.
  - destruct (hd (0, 0) (temp_points st)) as [x1 y1].
    destruct (last (temp_points st) (0, 0)) as [x2 y2].
    destruct (current_tool st =? TOOL_PEN)%string.
    + destruct (temp_points st) as [|p [|q rest]]; try discriminate.
      cbn [orb andb]. split; [intros H|discriminate].
      destruct (segments_nonempty p q rest H).
    + destruct (current_tool st =? TOOL_RECT)%string;
        [cbn; split; discriminate|].
      destruct (current_tool st =? TOOL_ARROW)%string;
        cbn; split; try discriminate; reflexivity.
  - rewrite andb_false_r. split; reflexivity.
Qed.

(** What [add_shape] appends is what the draft showed; for the arrow, when
    the arrow width of the settings is the 3.0 of the preview. *)
Lemma add_shape_marks (st : EditorWindow) :
  (current_tool st = TOOL_ARROW -> default_arrow_width (settings st) = 3) ->
  flat_map shape_marks (shapes (add_shape st))
  = flat_map shape_marks (shapes st) ++ draft_marks st.
Proof.
  intros Hw. unfold add_shape, draft_marks. cbv zeta.
  destruct (2 <=? List.length (temp_points st))%nat eqn:Hlen.
  - destruct (hd (0, 0) (temp_points st)) as [x1 y1].
    destruct (last (temp_points st) (0, 0)) as [x2 y2].
    destruct (current_tool st =? TOOL_PEN)%string.
    + cbn [andb shapes set_shapes]. rewrite flat_map_app.
      cbn [flat_map shape_marks]. rewrite Hlen, app_nil_r. reflexivity.
    + cbn [andb]. destruct (current_tool st =? TOOL_RECT)%string.
      * cbn [andb shapes set_shapes]. rewrite flat_map_app. reflexivity.
      * destruct (current_tool st =? TOOL_ARROW)%string eqn:Harrow.
        -- cbn [andb shapes set_shapes]. rewrite flat_map_app.
           cbn [flat_map shape_marks]. rewrite app_nil_r.
           rewrite Hw by (apply String.eqb_eq; exact Harrow).
           replace 3.0 with 3 by lra. reflexivity.
        -- cbn [andb]. rewrite app_nil_r. reflexivity.
  - rewrite !andb_false_r, app_nil_r. reflexivity.
Qed.

(** The marks on the screen once a handled release has run on a draft. *)
Lemma release_marks (st : EditorWindow) (p : Point) (rest : list Point) :
  drawing st = true -> temp_points st = p :: rest ->
  Cairo.marks (Cairo.on_draw (state_of (on_button_release 1 st)))
  = Some (flat_map shape_marks
            (shapes (add_shape (push_undo (set_drawing false st))))).
Proof.
  intros Hd Hp. rewrite marks_on_draw.
  unfold on_button_release. rewrite Hd.
  cbn [Z.eqb Pos.eqb negb orb temp_points set_drawing]. rewrite Hp.
  cbn [state_of shapes set_modified set_temp_points].
  unfold draft_marks. cbn [temp_points set_modified set_temp_points
    List.length Nat.leb]. rewrite app_nil_r. reflexivity.
Qed.

Lemma draft_marks_push_undo (st : EditorWindow) :
  draft_marks (push_undo (set_drawing false st)) = draft_marks st.
Proof.
  unfold draft_marks.
  rewrite push_undo_temp_points, push_undo_current_tool. reflexivity.
Qed.

(** X10. The screen and the export show the same picture. For every state
    of the editor, what [on_draw] strokes on the cairo context is, in the
    same order, what [_save_current_image_pil] draws with PIL (every line
    of a pen stroke, the three lines of every arrow, every rectangle half a
    pixel further right and down on the screen) followed by the preview of
    the draft. The preview is empty exactly when a release would commit
    nothing. Colours, line widths and text are left aside. *)
Theorem X10_export_matches_screen (font : option PIL.Font)
        (st : EditorWindow) :
  exists preview,
    Cairo.marks (Cairo.on_draw st)
    = Some (map on_screen (PIL.marks (PIL._save_current_image_pil font st))
            ++ preview)
    /\ (preview = [] <-> release_accepts st = false).
Proof.
  exists (draft_marks st). split.
  - rewrite marks_on_draw. unfold PIL._save_current_image_pil.
    rewrite export_marks. reflexivity.
  - apply draft_marks_empty.
Qed.

(** X11. Releasing the button does not change the lines on the screen:
    what the preview showed is what the committed shape shows, and a draft
    that is rejected showed nothing. For the arrow this needs the arrow
    width of the settings to be the 3.0 that the preview is drawn with,
    since the length of the head depends on the width. *)
Theorem X11_release_keeps_picture (b : Z) (st : EditorWindow) :
  (current_tool st = TOOL_ARROW -> default_arrow_width (settings st) = 3) ->
  Cairo.marks (Cairo.on_draw (state_of (on_button_release b st)))
  = Cairo.marks (Cairo.on_draw st).
Proof.
  intros Hw.
  destruct (negb (b =? 1)%Z || negb (drawing st)) eqn:Hguard.
  - unfold on_button_release. rewrite Hguard. reflexivity.
  - apply orb_false_iff in Hguard as [Hb Hd].
    apply negb_false_iff in Hb, Hd. apply Z.eqb_eq in Hb. subst b.
    destruct (temp_points st) as [|p rest] eqn:Hp.
    + unfold on_button_release. rewrite Hd.
      cbn [Z.eqb Pos.eqb negb orb temp_points set_drawing]. rewrite Hp.
      cbn [state_of]. rewrite !marks_on_draw. unfold draft_marks.
      cbn [shapes temp_points current_tool set_drawing]. reflexivity.
    + rewrite (release_marks st p rest Hd Hp), marks_on_draw.
      rewrite add_shape_marks, push_undo_shapes, draft_marks_push_undo.
      * reflexivity.
      * rewrite push_undo_current_tool, push_undo_settings. exact Hw.
Qed.

Lemma X11_release_keeps_picture_witness :
  let st := run [(quiet, ButtonPress 1 0 0); (quiet, MotionNotify 30 40)]
                (init default_settings) in
  current_tool st = TOOL_ARROW
  /\ Cairo.marks (Cairo.on_draw (state_of (on_button_release 1 st)))
     = Cairo.marks (Cairo.on_draw st).
Proof.
  intros st. split; [reflexivity|].
  apply (X11_release_keeps_picture 1 st). intros _. reflexivity.
Defined.

(** X12. The preview of an arrow is drawn with the width 3.0 whatever the
    settings say. When a drag with the arrow tool is released on an
    accepted draft, the lines on the screen stay as they were if and only
    if the arrow width of the settings is 3: with any other width the head
    of the committed arrow is not the head that was previewed. *)
Theorem X12_arrow_preview_ignores_width (st : EditorWindow) :
  current_tool st = TOOL_ARROW -> drawing st = true ->
  (2 <= List.length (temp_points st))%nat ->
  Cairo.marks (Cairo.on_draw (state_of (on_button_release 1 st)))
  = Cairo.marks (Cairo.on_draw st)
  <-> default_arrow_width (settings st) = 3.
Proof.
  intros Ht Hd Hlen.
  destruct (temp_points st) as [|p rest] eqn:Hp; [cbn in Hlen; lia|].
  rewrite (release_marks st p rest Hd Hp), marks_on_draw.
  split.
  - intros Heq. injection Heq as Heq. revert Heq.
    unfold add_shape, draft_marks. cbv zeta.
    rewrite push_undo_current_tool, push_undo_temp_points, push_undo_shapes,
      push_undo_settings.
    cbn [current_tool temp_points shapes settings set_drawing].
    rewrite Hp, Ht.
    change ((TOOL_ARROW =? TOOL_PEN)%string) with false.
    change ((TOOL_ARROW =? TOOL_RECT)%string) with false.
    change ((TOOL_ARROW =? TOOL_ARROW)%string) with true.
    apply Nat.leb_le in Hlen. rewrite Hlen. cbn [andb].
    destruct (hd (0, 0) (p :: rest)) as [x1 y1].
    destruct (last (p :: rest) (0, 0)) as [x2 y2].
    cbn [shapes set_shapes]. rewrite flat_map_app.
    cbn [flat_map shape_marks]. rewrite app_nil_r.
    intros Heq. apply app_inv_head in Heq.
    unfold arrow_lines, draw_arrow in Heq. cbn [map fst snd] in Heq.
    injection Heq as Hx Hy _ _.
    set (w := default_arrow_width (settings st)) in *.
    set (a := atan2 (y2 - y1) (x2 - x1) - PI / 6) in *.
    pose proof (sin2_cos2 a) as Hsc. unfold Rsqr in Hsc.
    assert (Hc : (w - 3) * cos a = 0) by lra.
    assert (Hs : (w - 3) * sin a = 0) by lra.
    destruct (Req_dec w 3) as [H3|H3]; [exact H3|exfalso].
    apply Rmult_integral in Hc as [Hc|Hc]; [lra|].
    apply Rmult_integral in Hs as [Hs|Hs]; [lra|].
    rewrite Hc, Hs in Hsc. lra.
  - intros Hw.
    rewrite add_shape_marks, push_undo_shapes, draft_marks_push_undo.
    + reflexivity.
    + intros _. rewrite push_undo_settings. exact Hw.
Qed.

Lemma X12_arrow_preview_ignores_width_witness :
  let st := run [(quiet, ButtonPress 1 0 0); (quiet, MotionNotify 30 40)]
                (init default_settings) in
  Cairo.marks (Cairo.on_draw (state_of (on_button_release 1 st)))
  = Cairo.marks (Cairo.on_draw st).
Proof.
  intros st.
  apply (X12_arrow_preview_ignores_width st);
    [reflexivity|reflexivity|reflexivity|reflexivity].
Defined.

(** ** Screen capture and clipboard *)

Lemma run_to_file_succeeds (sys : Capture.System) (cmd : Capture.Command)
      (path : string) :
  Capture.run_to_file sys cmd path
  = (if Capture.succeeds sys cmd path then Some path else None, [cmd]).
Proof.
  unfold Capture.run_to_file, Capture.succeeds.
  destruct (Capture.run_process sys cmd); reflexivity.
Qed.

Lemma str_truthy_append (a b : string) :
  str_truthy b = true -> str_truthy (a ++ b)%string = true.
Proof. destruct a; [intros H; exact H|reflexivity]. Qed.

(** The path both capture methods write to is never the empty string. *)
Lemma effective_path_truthy (dir name : string) (output_path : option string) :
  str_truthy name = true ->
  str_truthy (Capture.effective_path (dir ++ name)%string output_path)
  = true.
Proof.
  intros Hn. unfold Capture.effective_path.
  destruct output_path as [p|]; cbn [Capture.truthy negb].
  - destruct (str_truthy p) eqn:Hp; cbn [negb]; [exact Hp|].
    apply str_truthy_append, Hn.
  - apply str_truthy_append, Hn.
Qed.

Lemma capture_fullscreen_path (sys : Capture.System)
      (self : Capture.WaylandScreenshotCapture)
      (output_path : option string) :
  Capture.capture_fullscreen sys self output_path
  = Capture.try_methods
      [Capture._capture_fullscreen_grim sys self;
       Capture._capture_fullscreen_gnome sys self;
       Capture._capture_fullscreen_imagemagick sys self]
      (Capture.effective_path
         (Capture.temp_dir self ++ "/screenshot_" ++ Capture.getpid sys
          ++ ".png")%string output_path).
Proof. reflexivity. Qed.

Lemma capture_region_path (sys : Capture.System)
      (self : Capture.WaylandScreenshotCapture)
      (output_path : option string) :
  Capture.capture_region sys self output_path
  = Capture.try_methods
      [Capture._capture_region_grim_slurp sys self;
       Capture._capture_region_gnome sys self;
       Capture._capture_region_imagemagick sys self]
      (Capture.effective_path
         (Capture.temp_dir self ++ "/screenshot_region_"
          ++ Capture.getpid sys ++ ".png")%string output_path).
Proof. reflexivity. Qed.

(** X13. [capture_fullscreen] runs the commands of the available backends
    in the order grim, gnome-screenshot, import, and stops at the first one
    that exits with status 0 and leaves the file; it then returns the
    output path (the one given, or the default under the temporary
    directory when none or an empty one is given), which is never empty.
    It returns [None] exactly when every available backend has been run
    and has failed. A backend that is not available is never run, and
    nothing runs after the first success. *)
Theorem X13_capture_fullscreen_fallback (sys : Capture.System)
        (self : Capture.WaylandScreenshotCapture)
        (output_path : option string) :
  let path :=
    Capture.effective_path
      (Capture.temp_dir self ++ "/screenshot_" ++ Capture.getpid sys
       ++ ".png")%string output_path in
  let available :=
    (if Capture.grim_available self then [["grim"; path]] else [])
    ++ (if Capture.gnome_screenshot_available self
        then [["gnome-screenshot"; "--file"; path]] else [])
    ++ (if Capture.imagemagick_available self
        then [["import"; "-window"; "root"; path]] else []) in
  let result := fst (Capture.capture_fullscreen sys self output_path) in
  let ran := snd (Capture.capture_fullscreen sys self output_path) in
  exists not_run,
    available = ran ++ not_run
    /\ (forall cmd, In cmd (removelast ran) ->
                    Capture.succeeds sys cmd path = false)
    /\ match result with
       | Some p =>
           p = path /\ path <> ""
           /\ Capture.succeeds sys (last ran []) path = true
       | None =>
           not_run = []
           /\ forall cmd, In cmd ran -> Capture.succeeds sys cmd path = false
       end.
Proof.
  intros path available result ran. subst result ran available.
  rewrite capture_fullscreen_path. fold path.
  assert (Hp : str_truthy path = true).
  { unfold path. apply effective_path_truthy. reflexivity. }
  assert (Hne : path <> "") by (intros E; rewrite E in Hp; discriminate).
  unfold Capture.try_methods, Capture._capture_fullscreen_grim,
    Capture._capture_fullscreen_gnome,
    Capture._capture_fullscreen_imagemagick.
  rewrite !run_to_file_succeeds.
  destruct (Capture.succeeds sys ["grim"; path] path) eqn:Hg,
           (Capture.succeeds sys ["gnome-screenshot"; "--file"; path] path)
             eqn:Hn,
           (Capture.succeeds sys ["import"; "-window"; "root"; path] path)
             eqn:Hi,
           (Capture.grim_available self),
           (Capture.gnome_screenshot_available self),
           (Capture.imagemagick_available self);
    cbn [negb Capture.truthy app fst snd]; rewrite ?Hp;
    cbn [fst snd app removelast last];
    eexists; (split; [reflexivity|]);
    (split;
     [intros cmd Hin; cbn [In] in Hin;
      repeat match goal with
             | H : _ \/ _ |- _ => destruct H as [H|H]
             | H : _ = cmd |- _ => subst cmd
             end; solve [assumption | contradiction]
     |]);
    try (split; [reflexivity|split; [exact Hne|assumption]]);
    (split; [reflexivity|]);
    intros cmd Hin; cbn [In] in Hin;
    repeat match goal with
           | H : _ \/ _ |- _ => destruct H as [H|H]
           | H : _ = cmd |- _ => subst cmd
           end; solve [assumption | contradiction].
Qed.

(** A region selection that gave nothing: [slurp] raised, exited with
    another status than 0, or printed only white space. *)
Lemma slurp_gave_nothing (sys : Capture.System)
      (self : Capture.WaylandScreenshotCapture) (path : string) :
  Capture.grim_available self = true ->
  (forall out, Capture.run_process sys ["slurp"] = Capture.Completed 0 out ->
               strip out = "") ->
  Capture._capture_region_grim_slurp sys self path = (None, [["slurp"]]).
Proof.
  intros Hg Hsel. unfold Capture._capture_region_grim_slurp.
  rewrite Hg. cbn [negb].
  destruct (Capture.run_process sys ["slurp"]) as [rc out| |] eqn:E;
    try reflexivity.
  destruct (rc =? 0)%Z eqn:Hrc; [|reflexivity]. cbn [negb].
  apply Z.eqb_eq in Hrc. subst rc. rewrite (Hsel out eq_refl). reflexivity.
Qed.

(** X14. Cancelling the selection does not cancel the capture. When grim
    and slurp are available and [slurp] selects nothing (it raises, exits
    with a status other than 0, or prints only white space),
    [capture_region] runs no [grim] command and goes on to the next
    backend: with gnome-screenshot available its own area selection is the
    second command that runs, and the result is that of the remaining
    backends. *)
Theorem X14_cancelled_selection_falls_through (sys : Capture.System)
        (self : Capture.WaylandScreenshotCapture)
        (output_path : option string) :
  Capture.grim_available self = true ->
  (forall out, Capture.run_process sys ["slurp"] = Capture.Completed 0 out ->
               strip out = "") ->
  let path :=
    Capture.effective_path
      (Capture.temp_dir self ++ "/screenshot_region_" ++ Capture.getpid sys
       ++ ".png")%string output_path in
  let rest :=
    Capture.try_methods [Capture._capture_region_gnome sys self;
                         Capture._capture_region_imagemagick sys self]
                        path in
  Capture.capture_region sys self output_path
  = (fst rest, ["slurp"] :: snd rest)
  /\ (forall cmd,
         In cmd (snd (Capture.capture_region sys self output_path)) ->
         Capture.program cmd <> "grim")
  /\ (Capture.gnome_screenshot_available self = true ->
      nth 1 (snd (Capture.capture_region sys self output_path)) []
      = ["gnome-screenshot"; "--area"; "--file"; path]).
Proof.
  intros Hg Hsel path rest.
  assert (Heq : Capture.capture_region sys self output_path
                = (fst rest, ["slurp"] :: snd rest)).
  { rewrite capture_region_path. fold path.
    cbn [Capture.try_methods].
    rewrite (slurp_gave_nothing sys self path Hg Hsel).
    cbn [Capture.truthy]. subst rest. cbn [Capture.try_methods].
    destruct (Capture._capture_region_gnome sys self path) as [r1 t1].
    destruct (Capture.truthy r1); [reflexivity|].
    destruct (Capture._capture_region_imagemagick sys self path) as [r2 t2].
    destruct (Capture.truthy r2); reflexivity. }
  rewrite Heq. cbn [snd]. split; [reflexivity|split].
  - intros cmd [<-|Hin]; [discriminate|].
    subst rest. revert Hin.
    unfold Capture.try_methods, Capture._capture_region_gnome,
      Capture._capture_region_imagemagick.
    rewrite !run_to_file_succeeds.
    destruct (Capture.gnome_screenshot_available self),
             (Capture.imagemagick_available self);
      cbn [negb Capture.truthy];
      repeat match goal with
             | |- context [Capture.succeeds sys ?c path] =>
                 destruct (Capture.succeeds sys c path)
             end;
      cbn [Capture.truthy snd app In];
      repeat match goal with
             | |- context [str_truthy path] => destruct (str_truthy path)
             end;
      cbn [snd app In];
      intros Hin;
      repeat match goal with
             | H : _ \/ _ |- _ => destruct H as [H|H]
             | H : _ = cmd |- _ => subst cmd
             end; solve [discriminate | contradiction].
  - intros Hn. subst rest.
    unfold Capture.try_methods, Capture._capture_region_gnome.
    rewrite Hn. cbn [negb]. rewrite run_to_file_succeeds.
    destruct (Capture.truthy _);
      [reflexivity|].
    destruct (Capture._capture_region_imagemagick sys self path) as [r2 t2].
    destruct (Capture.truthy r2); reflexivity.
Qed.

Lemma X14_cancelled_selection_falls_through_witness :
  let sys :=
    Capture.mkSystem
      (fun cmd =>
         if String.eqb (Capture.program cmd) "slurp"
         then Capture.Completed 1 ""
         else Capture.Completed 0 "")
      (fun _ _ => true) (fun _ => false) (fun _ => false) "/tmp/zorinshot"
      false "42" in
  let self := Capture.mkCapture "/tmp/zorinshot" true true false in
  Capture.capture_region sys self (Some "/tmp/a.png")
  = (Some "/tmp/a.png",
     [["slurp"]; ["gnome-screenshot"; "--area"; "--file"; "/tmp/a.png"]]).
Proof.
  intros sys self.
  destruct (X14_cancelled_selection_falls_through sys self
              (Some "/tmp/a.png")) as (H & _ & _).
  - reflexivity.
  - intros out Hout. discriminate Hout.
  - exact H.
Defined.

(** X15. [copy_to_clipboard] runs at most one command and never two
    tools: with [wl-copy] installed only [wl-copy] can run, also when it
    fails or when the image cannot be read, and [xclip] runs only when
    [wl-copy] is not installed. The method answers [True] only if the one
    command it ran completed with status 0. *)
Theorem X15_clipboard_single_tool (sys : Capture.System)
        (image_path : string) :
  let ok := fst (Capture.copy_to_clipboard sys image_path) in
  let ran := snd (Capture.copy_to_clipboard sys image_path) in
  (List.length ran <= 1)%nat
  /\ (ok = true ->
      exists cmd out,
        ran = [cmd] /\ Capture.run_process sys cmd = Capture.Completed 0 out)
  /\ (forall cmd, In cmd ran ->
                  Capture.program cmd
                  = if Capture.which sys "wl-copy" then "wl-copy"
                    else "xclip").
Proof.
  intros ok ran. subst ok ran. unfold Capture.copy_to_clipboard.
  destruct (Capture.which sys "wl-copy");
    [destruct (Capture.open_raises sys image_path)
    |destruct (Capture.which sys "xclip")];
    try destruct (Capture.run_process sys _) as [rc out| |] eqn:E;
    cbn [fst snd List.length In];
    (split; [lia|split]);
    try (intros H; discriminate H);
    try (intros cmd [<-|[]]; reflexivity);
    try (intros cmd []).
  - intros Hrc. apply Z.eqb_eq in Hrc. subst rc.
    eexists. exists out. split; [reflexivity|exact E].
  - intros Hrc. apply Z.eqb_eq in Hrc. subst rc.
    eexists. exists out. split; [reflexivity|exact E].
Qed.

(** The flags of a capture object that [__init__] has built. *)
Lemma init_flags (sys : Capture.System)
      (self : Capture.WaylandScreenshotCapture)
      (ran : list Capture.Command) :
  Capture.init sys = (Capture.Ok self, ran) ->
  fst (Capture._check_grim_available sys)
  = Capture.Ok (Capture.grim_available self).
Proof.
  unfold Capture.init. destruct (Capture.mkdir_raises sys); [discriminate|].
  destruct (Capture._check_grim_available sys) as [[grim|] t1];
    [|discriminate].
  destruct (Capture._check_gnome_screenshot_available sys) as [[gnome|] t2];
    [|discriminate].
  destruct (Capture._check_imagemagick_available sys) as [[im|] t3];
    [|discriminate].
  intros H. injection H as <- _. reflexivity.
Qed.

(** X16. grim counts as available only together with slurp. For a capture
    object that [__init__] has built, [grim_available] is set exactly when
    both [grim --version] and [slurp --version] completed with status 0.
    Without it no capture runs [grim]: on a system with grim but without
    slurp the full-screen capture, which needs no slurp, does not use grim
    either. *)
Theorem X16_grim_needs_slurp (sys : Capture.System)
        (self : Capture.WaylandScreenshotCapture)
        (ran : list Capture.Command) (output_path : option string) :
  Capture.init sys = (Capture.Ok self, ran) ->
  (Capture.grim_available self = true
   <-> (exists out, Capture.run_process sys ["grim"; "--version"]
                    = Capture.Completed 0 out)
       /\ (exists out, Capture.run_process sys ["slurp"; "--version"]
                       = Capture.Completed 0 out))
  /\ (Capture.grim_available self = false ->
      forall cmd,
        In cmd (snd (Capture.capture_fullscreen sys self output_path))
        \/ In cmd (snd (Capture.capture_region sys self output_path)) ->
        Capture.program cmd <> "grim" /\ Capture.program cmd <> "slurp").
Proof.
  intros Hinit. apply init_flags in Hinit. split.
  - revert Hinit. unfold Capture._check_grim_available, Capture.probe.
    destruct (Capture.run_process sys ["grim"; "--version"])
      as [rc1 out1| |] eqn:E1; cbn [fst].
    + destruct (rc1 =? 0)%Z eqn:H1.
      * apply Z.eqb_eq in H1. subst rc1.
        destruct (Capture.run_process sys ["slurp"; "--version"])
          as [rc2 out2| |] eqn:E2; cbn [fst]; intros H;
          try discriminate H; injection H as <-.
        -- destruct (rc2 =? 0)%Z eqn:H2.
           ++ apply Z.eqb_eq in H2. subst rc2.
              split; [intros _|reflexivity].
              split; eexists; reflexivity.
           ++ split; [discriminate|]. intros (_ & out & Hout).
              injection Hout as -> _. discriminate H2.
        -- split; [discriminate|]. intros (_ & out & Hout). discriminate.
      * intros H. injection H as <-. split; [discriminate|].
        intros ((out & Hout) & _). injection Hout as -> _. discriminate H1.
    + intros H. injection H as <-. split; [discriminate|].
      intros ((out & Hout) & _). discriminate.
    + discriminate.
  - intros Hg cmd.
    rewrite capture_fullscreen_path, capture_region_path.
    unfold Capture.try_methods, Capture._capture_fullscreen_grim,
      Capture._capture_fullscreen_gnome,
      Capture._capture_fullscreen_imagemagick,
      Capture._capture_region_grim_slurp, Capture._capture_region_gnome,
      Capture._capture_region_imagemagick.
    rewrite Hg, !run_to_file_succeeds. cbn [negb Capture.truthy app].
    destruct (Capture.gnome_screenshot_available self),
             (Capture.imagemagick_available self);
      cbn [negb Capture.truthy app];
      repeat match goal with
             | |- context [Capture.succeeds sys ?c ?p] =>
                 destruct (Capture.succeeds sys c p)
             end;
      cbn [Capture.truthy snd app In];
      repeat match goal with
             | |- context [str_truthy ?p] => destruct (str_truthy p)
             end;
      cbn [snd app In];
      intros Hin;
      repeat match goal with
             | H : _ \/ _ |- _ => destruct H as [H|H]
             | H : _ = cmd |- _ => subst cmd
             end;
      solve [split; discriminate | contradiction].
Qed.

Lemma X16_grim_needs_slurp_witness :
  let sys :=
    Capture.mkSystem
      (fun cmd =>
         if String.eqb (Capture.program cmd) "slurp"
         then Capture.FileNotFoundError
         else Capture.Completed 0 "")
      (fun _ _ => true) (fun _ => false) (fun _ => false) "/tmp/zorinshot"
      false "42" in
  let self := Capture.mkCapture "/tmp/zorinshot" false true true in
  Capture.init sys
  = (Capture.Ok self,
     [["grim"; "--version"]; ["slurp"; "--version"];
      ["gnome-screenshot"; "--version"]; ["import"; "-version"]])
  /\ Capture.program ["gnome-screenshot"; "--file"; "/tmp/a.png"] <> "grim".
Proof.
  intros sys self.
  assert (Hinit : Capture.init sys
                  = (Capture.Ok self,
                     [["grim"; "--version"]; ["slurp"; "--version"];
                      ["gnome-screenshot"; "--version"];
                      ["import"; "-version"]])) by reflexivity.
  split; [exact Hinit|].
  destruct (X16_grim_needs_slurp sys self _ (Some "/tmp/a.png") Hinit)
    as (_ & H).
  apply (H eq_refl). left. cbn. left. reflexivity.
Defined.

(** ** A history longer than the limit *)

(** An accepted commit pushes one snapshot of the shapes it started from,
    under the limit it started with. *)
Lemma commit_pushes (c : Commit) (st : EditorWindow) :
  commit_accepted c = true ->
  let st' := run (commit_events c) st in
  undo_stack st'
  = (if (max_undo_levels (settings st)
         <? Z.of_nat (List.length (undo_stack st ++ [shapes st])))%Z
     then tl (undo_stack st ++ [shapes st])
     else undo_stack st ++ [shapes st])
  /\ max_undo_levels (settings st') = max_undo_levels (settings st).
Proof.
  intros Hacc st'. subst st'.
  assert (Hpush : forall st2,
             undo_stack st2 = undo_stack st -> shapes st2 = shapes st ->
             max_undo_levels (settings st2) = max_undo_levels (settings st) ->
             undo_stack (push_undo st2)
             = (if (max_undo_levels (settings st)
                    <? Z.of_nat (List.length (undo_stack st ++ [shapes st])))%Z
                then tl (undo_stack st ++ [shapes st])
                else undo_stack st ++ [shapes st])).
  { intros st2 Hu Hs Hm. rewrite push_undo_stack, Hu, Hs, Hm. reflexivity. }
  destruct c as [tool p moves|x y text]; cbn [commit_accepted] in Hacc.
  - apply andb_true_iff in Hacc as [Htool Hmoves].
    cbn [commit_events].
    change (?a :: gesture p moves) with ([a] ++ gesture p moves).
    rewrite run_app. cbn [run fold_left step fst snd dispatch state_of].
    destruct (set_tool_current tool st) as (Hc & Hs & Hu & _ & _ & _ & Hm).
    set (st1 := set_tool tool st) in *.
    rewrite run_gesture_drawing_tool
      by (rewrite Hc; apply drawing_tool_not_text, Htool).
    set (st2 := set_drawing false _).
    cbn [undo_stack shapes settings set_modified set_temp_points].
    rewrite add_shape_undo_stack, add_shape_settings, push_undo_settings.
    split; [apply Hpush; unfold st2; cbn; assumption|].
    unfold st2. cbn. exact Hm.
  - cbn [commit_events run fold_left step fst snd dispatch state_of].
    destruct (set_tool_current TOOL_TEXT st) as (Hc & Hs & Hu & _ & _ & _ & Hm).
    set (st1 := set_tool TOOL_TEXT st) in *.
    unfold step. cbn [fst snd dispatch].
    rewrite on_button_press_text_tool by exact Hc. cbn [state_of].
    rewrite create_text_at_accepted by (cbn; auto).
    set (st2 := set_temp_points _ _).
    cbn [undo_stack shapes settings set_modified set_shapes set_drawing].
    rewrite push_undo_settings.
    split; [apply Hpush; unfold st2; cbn; assumption|].
    unfold st2. cbn. exact Hm.
Qed.

(** X17. A lowered limit is not enforced on the history that exists. When
    the undo stack is longer than [max_undo_levels] (the preferences can
    lower the limit under the current length), an accepted commit drops
    only the oldest snapshot for the one it pushes: the stack keeps its
    length and stays over the limit. Each [undo] takes one entry off. *)
Theorem X17_lowered_limit_not_enforced (c : Commit) (st : EditorWindow) :
  commit_accepted c = true ->
  (0 <= max_undo_levels (settings st) < history_len st)%Z ->
  let st' := run (commit_events c) st in
  undo_stack st' = tl (undo_stack st) ++ [shapes st]
  /\ history_len st' = history_len st
  /\ (max_undo_levels (settings st') < history_len st')%Z
  /\ history_len (undo st') = (history_len st - 1)%Z.
Proof.
  intros Hacc Hover st'.
  destruct (commit_pushes c st Hacc) as [Hu Hm]. fold st' in Hu, Hm.
  unfold history_len in *.
  destruct (undo_stack st) as [|s0 below] eqn:E; [cbn in Hover; lia|].
  assert (Hst : undo_stack st' = below ++ [shapes st]).
  { rewrite Hu. cbn [app tl List.length].
    destruct (Z.ltb_spec (max_undo_levels (settings st))
                (Z.of_nat (S (List.length (below ++ [shapes st])))));
      [reflexivity|].
    rewrite length_app in *. cbn [List.length] in *. lia. }
  assert (Hlen : List.length (undo_stack st') = List.length (s0 :: below)).
  { rewrite Hst, length_app. cbn [List.length]. lia. }
  split; [exact Hst|split; [rewrite Hlen; reflexivity|split]].
  - rewrite Hm, Hlen. lia.
  - rewrite (undo_nonempty st' below (shapes st) Hst).
    cbn [undo_stack set_modified set_undo_stack List.length]. lia.
Qed.

Lemma X17_lowered_limit_not_enforced_witness :
  let lowered :=
    {| autosave_enabled := false; default_pen_width := 3;
       default_arrow_width := 3; default_rect_width := 3;
       default_text_size := 16; default_color_r := 153;
       default_color_g := 51; default_color_b := 255;
       default_color_a := 242; copy_to_clipboard_on_save := true;
       show_save_confirmation := true; auto_close_after_save := false;
       remember_tool_selection := true; last_selected_tool := "arrow";
       max_undo_levels := 1 |} in
  let st :=
    set_settings lowered
      (run (commit_events (TextCommit 0 0 "a")
            ++ commit_events (TextCommit 1 1 "b")) (init default_settings)) in
  history_len st = 2%Z
  /\ history_len (run (commit_events (TextCommit 2 2 "c")) st) = 2%Z.
Proof.
  intros lowered st.
  assert (Hlen : history_len st = 2%Z) by reflexivity.
  split; [exact Hlen|].
  destruct (X17_lowered_limit_not_enforced (TextCommit 2 2 "c") st)
    as (_ & H & _).
  - reflexivity.
  - rewrite Hlen. cbn. lia.
  - rewrite H. exact Hlen.
Defined.

(** ** The preferences dialog and the shared settings object *)

Lemma prefs_read_write_same (objs : list ZorinShotSettings) (l : Prefs.loc)
      (v : ZorinShotSettings) :
  (l < List.length objs)%nat ->
  nth l (Prefs.write objs l v) default_settings = v.
Proof.
  revert l. induction objs as [|a t IH]; intros [|l] Hl; cbn in *;
    try lia; try reflexivity.
  apply IH. lia.
Qed.

Lemma prefs_read_write_other (objs : list ZorinShotSettings)
      (l l' : Prefs.loc) (v : ZorinShotSettings) :
  l <> l' ->
  nth l' (Prefs.write objs l v) default_settings
  = nth l' objs default_settings.
Proof.
  revert l l'. induction objs as [|a t IH]; intros [|l] [|l'] Hne; cbn;
    try reflexivity; try contradiction.
  apply IH. congruence.
Qed.

Lemma prefs_length_write (objs : list ZorinShotSettings) (l : Prefs.loc)
      (v : ZorinShotSettings) :
  List.length (Prefs.write objs l v) = List.length objs.
Proof.
  revert l. induction objs as [|a t IH]; intros [|l]; cbn;
    try reflexivity.
  rewrite IH. reflexivity.
Qed.

(** The references while the dialog runs: the editor keeps its object; the
    manager's reference only moves to objects that are new, and it moves
    exactly when the reset button is used. *)
Lemma run_dialog_refs (actions : list Prefs.Action) (d : Prefs.loc)
      (s : Prefs.State) :
  (Prefs.manager s < List.length (Prefs.objects s))%nat ->
  let s' := snd (Prefs.run_dialog actions d s) in
  Prefs.editor s' = Prefs.editor s
  /\ (Prefs.manager s' < List.length (Prefs.objects s'))%nat
  /\ (Prefs.resets actions = false -> Prefs.manager s' = Prefs.manager s)
  /\ (Prefs.resets actions = true ->
      (List.length (Prefs.objects s) <= Prefs.manager s')%nat).
Proof.
  revert d s. induction actions as [|a actions IH]; intros d s Hm s';
    subst s'.
  - cbn. repeat split; auto. discriminate.
  - destruct a as [|ui|ui|]; cbn [Prefs.run_dialog snd Prefs.resets].
    + set (s1 := Prefs.reset_to_defaults s).
      assert (Hl1 : List.length (Prefs.objects s1)
                    = S (List.length (Prefs.objects s))).
      { unfold s1. cbn. rewrite length_app. cbn. lia. }
      assert (Hm1 : (Prefs.manager s1 < List.length (Prefs.objects s1))%nat).
      { rewrite Hl1. unfold s1. cbn. lia. }
      destruct (IH (Prefs.manager s1) s1 Hm1) as (He & Hm' & Hsame & Hnew).
      split; [exact He|split; [exact Hm'|split; [discriminate|]]].
      intros _. destruct (Prefs.resets actions).
      * specialize (Hnew eq_refl). lia.
      * rewrite (Hsame eq_refl). unfold s1. cbn. lia.
    + set (s1 := Prefs._save_settings ui d s).
      assert (Hl1 : List.length (Prefs.objects s1)
                    = List.length (Prefs.objects s)).
      { unfold s1. cbn. apply prefs_length_write. }
      assert (Hm1 : (Prefs.manager s1 < List.length (Prefs.objects s1))%nat).
      { rewrite Hl1. exact Hm. }
      destruct (IH d s1 Hm1) as (He & Hm' & Hsame & Hnew).
      split; [exact He|split; [exact Hm'|split]].
      * exact Hsame.
      * intros Hr. specialize (Hnew Hr). lia.
    + cbn. rewrite prefs_length_write.
      repeat split; auto. discriminate.
    + cbn. repeat split; auto. discriminate.
Qed.

(** A dialog that refers to a new object writes to no old one. *)
Lemma run_dialog_keeps_old (actions : list Prefs.Action) (d : Prefs.loc)
      (s : Prefs.State) (n : nat) (l : Prefs.loc) :
  (n <= d)%nat -> (n <= List.length (Prefs.objects s))%nat -> (l < n)%nat ->
  Prefs.read (snd (Prefs.run_dialog actions d s)) l = Prefs.read s l.
Proof.
  revert d s. induction actions as [|a actions IH]; intros d s Hd Hn Hl;
    [reflexivity|].
  destruct a as [|ui|ui|]; cbn [Prefs.run_dialog snd].
  - rewrite IH.
    + unfold Prefs.read. cbn. apply app_nth1. lia.
    + cbn. lia.
    + cbn. rewrite length_app. lia.
    + exact Hl.
  - rewrite IH.
    + unfold Prefs.read. cbn. apply prefs_read_write_other. lia.
    + exact Hd.
    + cbn. rewrite prefs_length_write. exact Hn.
    + exact Hl.
  - unfold Prefs.read. cbn. apply prefs_read_write_other. lia.
  - reflexivity.
Qed.



(** X19. OK keeps the editor and the settings manager on one object, a
    reset without OK does not. After [show_preferences] the editor holds
    the manager's object exactly when the dialog ended with OK or the reset
    button was not used. When the dialog opens with a reset to defaults
    and ends without OK, the editor still reads the settings it had, while
    the manager refers to a new object: the attributes the handlers take
    from [self.settings] (widths, undo limit) and the colour they take from
    [settings_manager] then come from two different objects. *)
Theorem X19_reset_without_ok_desynchronises (actions : list Prefs.Action)
        (s : Prefs.State) :
  Prefs.in_sync s ->
  let accepted := fst (Prefs.run_dialog actions (Prefs.manager s) s) in
  let s' := Prefs.show_preferences actions s in
  (Prefs.editor s' = Prefs.manager s'
   <-> accepted = true \/ Prefs.resets actions = false)
  /\ (accepted = false ->
      forall rest, actions = Prefs.ResetToDefaults :: rest ->
                   Prefs.editor_settings s' = Prefs.editor_settings s).
Proof.
  intros [He Hm] accepted s'. subst accepted s'.
  unfold Prefs.show_preferences.
  pose proof (run_dialog_refs actions (Prefs.manager s) s Hm) as Hrefs.
  cbn zeta in Hrefs.
  destruct (Prefs.run_dialog actions (Prefs.manager s) s) as [acc s1] eqn:E.
  cbn [fst snd] in *. destruct Hrefs as (He1 & Hm1 & Hsame & Hnew).
  split.
  - destruct acc; [split; [left; reflexivity|reflexivity]|].
    destruct (Prefs.resets actions).
    + specialize (Hnew eq_refl). split; [|intros [H|H]; discriminate H].
      intros Heq. exfalso. rewrite He1, He in Heq. lia.
    + split; [right; reflexivity|intros _].
      rewrite He1, He. symmetry. apply Hsame. reflexivity.
  - intros -> rest ->. unfold Prefs.editor_settings. rewrite He1.
    cbn [Prefs.run_dialog] in E.
    pose proof (run_dialog_keeps_old rest
                  (Prefs.manager (Prefs.reset_to_defaults s))
                  (Prefs.reset_to_defaults s)
                  (List.length (Prefs.objects s)) (Prefs.editor s)) as Hk.
    rewrite E in Hk. cbn [snd] in Hk. rewrite Hk.
    + unfold Prefs.read. cbn. apply app_nth1. rewrite He. exact Hm.
    + cbn. lia.
    + cbn. rewrite length_app. lia.
    + rewrite He. exact Hm.
Qed.

Lemma X19_reset_without_ok_desynchronises_witness :
  let s := Prefs.mkState [set_last_selected_tool "pen" default_settings]
                         0%nat 0%nat in
  let s' := Prefs.show_preferences [Prefs.ResetToDefaults; Prefs.Cancel] s in
  last_selected_tool (Prefs.editor_settings s') = "pen"
  /\ last_selected_tool (Prefs.manager_settings s') = "arrow".
Proof.
  intros s s'.
  assert (Hs : Prefs.in_sync s) by (split; [reflexivity|cbn; lia]).
  destruct (X19_reset_without_ok_desynchronises
              [Prefs.ResetToDefaults; Prefs.Cancel] s Hs) as (_ & H).
  split; [|reflexivity].
  unfold s'. rewrite (H eq_refl [Prefs.Cancel] eq_refl). reflexivity.
Defined.

(** ** Settings persistence *)

Lemma get_set_same (key : string) (value : Settings.Json)
      (d : Settings.Dict) :
  Settings.get key (Settings.set key value d) = Some value.
Proof.
  induction d as [|[k v] rest IH]; cbn.
  - rewrite String.eqb_refl. reflexivity.
  - destruct (k =? key)%string eqn:E; cbn; rewrite E; [reflexivity|exact IH].
Qed.

Lemma get_set_other (key key' : string) (value : Settings.Json)
      (d : Settings.Dict) :
  key <> key' ->
  Settings.get key' (Settings.set key value d) = Settings.get key' d.
Proof.
  intros Hne. induction d as [|[k v] rest IH]; cbn.
  - apply String.eqb_neq in Hne. rewrite Hne. reflexivity.
  - destruct (k =? key)%string eqn:E; cbn.
    + apply String.eqb_eq in E. subst k.
      apply String.eqb_neq in Hne. rewrite Hne. reflexivity.
    + destruct (k =? key')%string; [reflexivity|exact IH].
Qed.

Lemma get_absent (key : string) (d : Settings.Dict) :
  ~ In key (map fst d) -> Settings.get key d = None.
Proof.
  induction d as [|[k v] rest IH]; cbn; intros Hn; [reflexivity|].
  destruct (k =? key)%string eqn:E.
  - apply String.eqb_eq in E. exfalso. apply Hn. left. exact E.
  - apply IH. intros Hin. apply Hn. right. exact Hin.
Qed.

(** An assignment to an attribute the instance has changes no answer of
    [hasattr]. *)
Lemma hasattr_set (class_attribute : string -> bool) (key key' : string)
      (value : Settings.Json) (obj : Settings.Dict) :
  Settings.hasattr class_attribute obj key = true ->
  Settings.hasattr class_attribute (Settings.set key value obj) key'
  = Settings.hasattr class_attribute obj key'.
Proof.
  intros Hk. destruct (string_dec key key') as [<-|Hne].
  - rewrite Hk. unfold Settings.hasattr. rewrite get_set_same. reflexivity.
  - unfold Settings.hasattr. rewrite get_set_other by exact Hne. reflexivity.
Qed.

Lemma setattr_plain (key : string) (value : Settings.Json)
      (obj : Settings.Dict) :
  Settings.is_special key = false ->
  Settings.setattr obj key value = Some (Settings.set key value obj).
Proof.
  unfold Settings.is_special, Settings.setattr. intros H.
  apply orb_false_iff in H as [H H3]. apply orb_false_iff in H as [H1 H2].
  rewrite H1, H2, H3. reflexivity.
Qed.

(** The loop over a dictionary without special keys. *)
Lemma update_from_plain (class_attribute : string -> bool)
      (items obj : Settings.Dict) :
  NoDup (map fst items) ->
  (forall key, In key (map fst items) -> Settings.is_special key = false) ->
  exists obj',
    Settings.update_from class_attribute items obj = (true, obj')
    /\ forall key,
         Settings.get key obj'
         = match Settings.get key items with
           | Some value =>
               if Settings.hasattr class_attribute obj key then Some value
               else Settings.get key obj
           | None => Settings.get key obj
           end.
Proof.
  revert obj. induction items as [|[k v] rest IH]; intros obj Hnd Hsp.
  - exists obj. split; reflexivity.
  - cbn [map fst] in Hnd, Hsp. inversion Hnd as [|? ? Hnotin Hnd']; subst.
    assert (Hsp' : forall key, In key (map fst rest) ->
                               Settings.is_special key = false).
    { intros key Hin. apply Hsp. right. exact Hin. }
    cbn [Settings.update_from].
    destruct (Settings.hasattr class_attribute obj k) eqn:Hk.
    + rewrite setattr_plain by (apply Hsp; left; reflexivity).
      destruct (IH (Settings.set k v obj) Hnd' Hsp') as (obj' & Hrun & Hget).
      exists obj'. split; [exact Hrun|]. intros key. rewrite Hget.
      cbn [Settings.get]. destruct (k =? key)%string eqn:E.
      * apply String.eqb_eq in E. subst key.
        rewrite (get_absent k rest Hnotin), Hk. apply get_set_same.
      * apply String.eqb_neq in E.
        rewrite (hasattr_set class_attribute k key v obj Hk).
        rewrite get_set_other by exact E. reflexivity.
    + destruct (IH obj Hnd' Hsp') as (obj' & Hrun & Hget).
      exists obj'. split; [exact Hrun|]. intros key. rewrite Hget.
      cbn [Settings.get]. destruct (k =? key)%string eqn:E.
      * apply String.eqb_eq in E. subst key.
        rewrite (get_absent k rest Hnotin), Hk. reflexivity.
      * reflexivity.
Qed.

Lemma update_from_app (class_attribute : string -> bool)
      (a b obj : Settings.Dict) :
  Settings.update_from class_attribute (a ++ b) obj
  = (let '(ok, obj') := Settings.update_from class_attribute a obj in
     if ok then Settings.update_from class_attribute b obj'
     else (false, obj')).
Proof.
  revert obj. induction a as [|[k v] a IH]; intros obj; [reflexivity|].
  cbn [app Settings.update_from].
  destruct (Settings.hasattr class_attribute obj k); [|apply IH].
  destruct (Settings.setattr obj k v); [apply IH|reflexivity].
Qed.

(** The entry of a field in what [asdict] returns. *)
Lemma get_asdict (obj : Settings.Dict) (key : string) :
  Settings.get key (Settings.asdict obj)
  = if Settings.is_field key
    then Some match Settings.getattr obj key with
              | Some v => v
              | None => Settings.JNull
              end
    else None.
Proof.
  unfold Settings.asdict, Settings.is_field.
  induction Settings.fields as [|[k v] rest IH]; [reflexivity|].
  cbn [map fst Settings.get]. destruct (k =? key)%string eqn:E.
  - apply String.eqb_eq in E. subst k. reflexivity.
  - exact IH.
Qed.

Lemma asdict_keys (obj : Settings.Dict) :
  map fst (Settings.asdict obj) = map fst Settings.fields.
Proof.
  unfold Settings.asdict. rewrite map_map. reflexivity.
Qed.

Lemma field_names :
  NoDup (map fst Settings.fields)
  /\ forall key, In key (map fst Settings.fields) ->
                 Settings.is_special key = false.
Proof.
  split.
  - cbn. repeat (constructor; [cbn; intuition discriminate|]). constructor.
  - intros key Hin. cbn in Hin.
    repeat (destruct Hin as [<-|Hin]; [reflexivity|]). destruct Hin.
Qed.

(** X20. [load_settings] assigns without looking at types and skips what
    it does not know. For a settings file that holds a JSON object without
    the keys [__class__], [__dict__] and [__weakref__], the method returns
    True; a key that names an attribute of the instance is assigned the
    value of the file as it is, whatever its JSON type; a key that names
    no attribute is skipped; an attribute the file does not mention keeps
    its value. *)
Theorem X20_load_assigns_untyped (class_attribute : string -> bool)
        (members obj : Settings.Dict) :
  NoDup (map fst members) ->
  (forall key, In key (map fst members) ->
               Settings.is_special key = false) ->
  exists obj',
    Settings.load_settings class_attribute
      (Settings.Holds (Settings.JObject members)) obj = (true, obj')
    /\ forall key,
         Settings.get key obj'
         = match Settings.get key members with
           | Some value =>
               if Settings.hasattr class_attribute obj key then Some value
               else Settings.get key obj
           | None => Settings.get key obj
           end.
Proof.
  intros Hnd Hsp. cbn [Settings.load_settings].
  apply update_from_plain; assumption.
Qed.

Lemma X20_load_assigns_untyped_witness :
  exists obj',
    Settings.load_settings (fun _ => false)
      (Settings.Holds
         (Settings.JObject
            [("max_undo_levels", Settings.JString "many");
             ("colour_scheme", Settings.JString "dark")]))
      Settings.new = (true, obj')
    /\ Settings.get "max_undo_levels" obj' = Some (Settings.JString "many")
    /\ Settings.get "colour_scheme" obj' = None
    /\ Settings.get "default_text_size" obj' = Some (Settings.JInt 16).
Proof.
  destruct (X20_load_assigns_untyped (fun _ => false)
              [("max_undo_levels", Settings.JString "many");
               ("colour_scheme", Settings.JString "dark")] Settings.new)
    as (obj' & Hload & Hget).
  - cbn. repeat (constructor; [cbn; intuition discriminate|]). constructor.
  - intros key Hin. cbn in Hin.
    repeat (destruct Hin as [<-|Hin]; [reflexivity|]). destruct Hin.
  - exists obj'. split; [exact Hload|].
    rewrite !Hget. repeat split; reflexivity.
Defined.


(** X22. [load_settings] can fail half-way. A settings file with the key
    [__class__] makes the method return False, since the assignment
    raises; the keys in front of it have been assigned by then and stay
    assigned, and the keys behind it are not looked at. *)
Theorem X22_load_fails_half_way (class_attribute : string -> bool)
        (front behind obj : Settings.Dict) (value : Settings.Json) :
  NoDup (map fst front) ->
  (forall key, In key (map fst front) -> Settings.is_special key = false) ->
  exists obj',
    Settings.load_settings class_attribute
      (Settings.Holds
         (Settings.JObject (front ++ ("__class__", value) :: behind))) obj
    = (false, obj')
    /\ Settings.load_settings class_attribute
         (Settings.Holds (Settings.JObject front)) obj = (true, obj').
Proof.
  intros Hnd Hsp. cbn [Settings.load_settings].
  destruct (update_from_plain class_attribute front obj Hnd Hsp)
    as (obj' & Hrun & _).
  exists obj'. split; [|exact Hrun].
  rewrite update_from_app, Hrun. cbn [Settings.update_from].
  unfold Settings.hasattr.
  destruct (Settings.get "__class__" obj'); reflexivity.
Qed.

Lemma X22_load_fails_half_way_witness :
  exists obj',
    Settings.load_settings (fun _ => false)
      (Settings.Holds
         (Settings.JObject
            [("max_undo_levels", Settings.JInt 50);
             ("__class__", Settings.JString "x");
             ("default_text_size", Settings.JInt 20)]))
      Settings.new = (false, obj')
    /\ Settings.get "max_undo_levels" obj' = Some (Settings.JInt 50)
    /\ Settings.get "default_text_size" obj' = Some (Settings.JInt 16).
Proof.
  destruct (X22_load_fails_half_way (fun _ => false)
              [("max_undo_levels", Settings.JInt 50)]
              [("default_text_size", Settings.JInt 20)]
              Settings.new (Settings.JString "x"))
    as (obj' & Hfail & Hfront).
  - cbn. repeat (constructor; [cbn; intuition discriminate|]). constructor.
  - intros key Hin. cbn in Hin.
    repeat (destruct Hin as [<-|Hin]; [reflexivity|]). destruct Hin.
  - exists obj'. split; [exact Hfail|].
    cbn in Hfront. injection Hfront as <-. split; reflexivity.
Defined.

(** ** Starting the application *)

(** A capture method that returns a path returns the one it was given,
    and one of its commands has left the file there. *)
Lemma run_to_file_some (sys : Capture.System) (cmd : Capture.Command)
      (path p : string) :
  fst (Capture.run_to_file sys cmd path) = Some p ->
  p = path
  /\ exists c, In c (snd (Capture.run_to_file sys cmd path))
               /\ Capture.succeeds sys c path = true.
Proof.
  rewrite run_to_file_succeeds. cbn [fst snd].
  destruct (Capture.succeeds sys cmd path) eqn:E; [|discriminate].
  intros H. injection H as <-. split; [reflexivity|].
  exists cmd. split; [left; reflexivity|exact E].
Qed.

Lemma try_methods_some (sys : Capture.System)
      (methods : list (string -> option string * list Capture.Command))
      (path p : string) :
  (forall m q,
      In m methods -> fst (m path) = Some q ->
      q = path
      /\ exists c, In c (snd (m path))
                   /\ Capture.succeeds sys c path = true) ->
  fst (Capture.try_methods methods path) = Some p ->
  p = path
  /\ exists c, In c (snd (Capture.try_methods methods path))
               /\ Capture.succeeds sys c path = true.
Proof.
  induction methods as [|m rest IH]; intros Hm; [discriminate|].
  cbn [Capture.try_methods].
  pose proof (Hm m) as Hfirst.
  destruct (m path) as [r t] eqn:E.
  destruct (Capture.truthy r) eqn:Hr.
  - cbn [fst snd]. intros ->. apply Hfirst; [left|]; reflexivity.
  - destruct (Capture.try_methods rest path) as [r' t'] eqn:E'.
    cbn [fst snd] in *. intros ->.
    destruct IH as (Hp & c & Hin & Hc).
    + intros m' q Hin. apply Hm. right. exact Hin.
    + reflexivity.
    + split; [exact Hp|]. exists c. split; [|exact Hc].
      apply in_or_app. right. exact Hin.
Qed.

Lemma capture_region_some (sys : Capture.System)
      (self : Capture.WaylandScreenshotCapture)
      (output_path : option string) (p : string) :
  fst (Capture.capture_region sys self output_path) = Some p ->
  p = Capture.effective_path
        (Capture.temp_dir self ++ "/screenshot_region_"
         ++ Capture.getpid sys ++ ".png")%string output_path
  /\ exists c, In c (snd (Capture.capture_region sys self output_path))
               /\ Capture.succeeds sys c p = true.
Proof.
  rewrite capture_region_path. set (path := Capture.effective_path _ _).
  intros H.
  destruct (try_methods_some sys
              [Capture._capture_region_grim_slurp sys self;
               Capture._capture_region_gnome sys self;
               Capture._capture_region_imagemagick sys self] path p)
    as (Hp & c & Hin & Hc); [|exact H|].
  - intros m q [<-|[<-|[<-|[]]]].
    + unfold Capture._capture_region_grim_slurp.
      destruct (negb (Capture.grim_available self)); [discriminate|].
      destruct (Capture.run_process sys ["slurp"]) as [rc out| |];
        try discriminate.
      destruct (negb (rc =? 0)%Z); [discriminate|].
      destruct (negb (str_truthy (strip out))); [discriminate|].
      pose proof (run_to_file_some sys ["grim"; "-g"; strip out; path]
                    path q) as Hrun.
      destruct (Capture.run_to_file sys _ path) as [r t].
      cbn [fst snd] in *. intros Hq.
      destruct (Hrun Hq) as (Hqp & c & Hin & Hc).
      split; [exact Hqp|]. exists c. split; [right; exact Hin|exact Hc].
    + unfold Capture._capture_region_gnome.
      destruct (negb (Capture.gnome_screenshot_available self));
        [discriminate|]. apply run_to_file_some.
    + unfold Capture._capture_region_imagemagick.
      destruct (negb (Capture.imagemagick_available self));
        [discriminate|]. apply run_to_file_some.
  - subst p. split; [reflexivity|]. exists c. split; assumption.
Qed.

(** X23. The editor opens only on a file that a capture backend has left.
    When [ZorinShotApp()] ends with an editor window, the image is the
    temporary region file, loading it did not raise, and one of the
    commands that ran completed with status 0 and left that file. When no
    backend is available the application exits with status 1 and has run
    nothing but the version probes of [WaylandScreenshotCapture()]. *)
Theorem X23_editor_opens_on_captured_file (sys : Capture.System)
        (d : App.Desktop) :
  App.temp_file d <> "" ->
  let outcome := fst (App.init sys d) in
  let ran := snd (App.init sys d) in
  (forall image,
      outcome = App.OpensEditor image ->
      image = App.temp_file d
      /\ App.editor_raises d image = false
      /\ exists cmd, In cmd ran /\ Capture.succeeds sys cmd image = true)
  /\ (forall status,
         outcome = App.Exits status ->
         status = 1%Z
         /\ ran = snd (Capture.init sys)
         /\ exists self,
              fst (Capture.init sys) = Capture.Ok self
              /\ Capture.grim_available self = false
              /\ Capture.gnome_screenshot_available self = false
              /\ Capture.imagemagick_available self = false).
Proof.
  intros Hne outcome ran. subst outcome ran. unfold App.init.
  assert (Ht : str_truthy (App.temp_file d) = true).
  { destruct (App.temp_file d); [contradiction|reflexivity]. }
  destruct (Capture.init sys) as [[self|] ran0];
    [|split; intros ? H; discriminate H].
  destruct (App.temp_mkdir_raises d); [split; intros ? H; discriminate H|].
  destruct (negb (App.any_method self)) eqn:Hany.
  - split; [intros ? H; discriminate H|].
    cbn [fst snd]. intros status H. injection H as <-.
    split; [reflexivity|split; [reflexivity|]]. exists self.
    apply negb_true_iff in Hany. unfold App.any_method in Hany.
    cbn in Hany. rewrite orb_false_r in Hany.
    apply orb_false_iff in Hany as [Hg Hrest].
    apply orb_false_iff in Hrest as [Hn Hi]. repeat split; assumption.
  - unfold App._capture_region_and_edit.
    pose proof (capture_region_some sys self (Some (App.temp_file d)))
      as Hsome.
    destruct (Capture.capture_region sys self (Some (App.temp_file d)))
      as [result ran1].
    cbn [fst snd] in Hsome.
    split.
    + intros image. destruct result as [path|]; [|discriminate].
      destruct (str_truthy path); [|discriminate].
      destruct (App.editor_raises d path) eqn:Hload; [discriminate|].
      cbn [fst snd]. intros H. injection H as <-.
      destruct (Hsome path eq_refl) as (Hp & c & Hin & Hc).
      unfold Capture.effective_path in Hp. cbn [Capture.truthy] in Hp.
      rewrite Ht in Hp. cbn [negb] in Hp.
      split; [exact Hp|split; [exact Hload|]].
      exists c. split; [apply in_or_app; right; exact Hin|exact Hc].
    + intros status. destruct result as [path|]; [|discriminate].
      destruct (str_truthy path); [|discriminate].
      destruct (App.editor_raises d path); discriminate.
Qed.

Lemma X23_editor_opens_on_captured_file_witness :
  let sys :=
    Capture.mkSystem
      (fun cmd =>
         if String.eqb (Capture.program cmd) "gnome-screenshot"
         then Capture.Completed 0 ""
         else Capture.FileNotFoundError)
      (fun _ _ => true) (fun _ => false) (fun _ => false) "/tmp/zorinshot"
      false "42" in
  let d := App.mkDesktop false "/tmp/region_42.png" (fun _ => false) in
  fst (App.init sys d) = App.OpensEditor "/tmp/region_42.png"
  /\ exists cmd,
       In cmd (snd (App.init sys d))
       /\ Capture.succeeds sys cmd "/tmp/region_42.png" = true.
Proof.
  intros sys d.
  assert (Hne : App.temp_file d <> "") by discriminate.
  assert (Hout : fst (App.init sys d) = App.OpensEditor "/tmp/region_42.png")
    by reflexivity.
  split; [exact Hout|].
  destruct (X23_editor_opens_on_captured_file sys d Hne) as [H _].
  destruct (H _ Hout) as (_ & _ & Hex). exact Hex.
Defined.
